(** * Finance manager: monthly ledger, yearly aggregation and authentication

    A shallow embedding of the server routes of the finance manager
    ([routes/monthly.ts], [routes/yearly.ts], [routes/auth.ts]) together with
    the properties its specification states about them.

    Modelling choices, once and for all:
    - a JavaScript [number] is written as a rational ([Q]) and its operations
      as those of [Q].  The properties about sums, quotients and comparisons
      are stated with the operations in the order in which the handler
      applies them, so that they read the same of the handler's rounded
      numbers;
    - a [DECIMAL(10,2)] column holds what the database makes of the number
      written to it: the number rounded to two decimal places, or a rejected
      write when that does not fit ([Schema.DECIMAL_10_2]);
    - a string is the [string] of the bytes of its UTF-8 encoding, compared
      byte-wise (the month keys are ASCII digits and a hyphen, on which
      every collation agrees); [JS.length] counts its UTF-16 code units;
    - the relational store is a record of tables with one id sequence per
      table; a table is the list of its rows as a scan returns them (a new
      row, and the new version of an updated row, behind the others); the
      time stamps [createdAt] and [updatedAt] are left out;
    - an [async] handler is a state-passing function over the store whose
      awaited calls may reject; [try { .. } catch] turns a rejection into the
      handler's 500 response;
    - what the process keeps between requests besides the store - the
      session and the members that [Object.prototype] has acquired - is part
      of the application state ([App.State]). *)

From Stdlib Require Import List Sorted Permutation String Ascii Bool Arith ZArith
  NArith QArith Qminmax Qabs Lqa Lia OrderedTypeEx.
Import ListNotations.

Local Open Scope string_scope.
Local Open Scope list_scope.
Local Open Scope Q_scope.

Set Implicit Arguments.

(** ** JavaScript primitives used by the routes *)

Module JS.

(** [\d] *)
Definition is_digit (c : ascii) : bool :=
  ((48 <=? nat_of_ascii c) && (nat_of_ascii c <=? 57))%nat.

(** The two regular expressions of the routes are anchored sequences of
    single-character atoms. *)
Inductive atom := Digit | Lit (c : ascii).

Definition atom_matches (a : atom) (c : ascii) : bool :=
  match a with
  | Digit => is_digit c
  | Lit d => Ascii.eqb c d
  end.

(** [/^a1 a2 .. an$/.test(s)] *)
Fixpoint test (re : list atom) (s : string) : bool :=
  match re, s with
  | [], EmptyString => true
  | a :: re', String c s' => atom_matches a c && test re' s'
  | _, _ => false
  end.

(** [/^\d{4}-\d{2}$/] *)
Definition month_re : list atom :=
  [Digit; Digit; Digit; Digit; Lit "-"; Digit; Digit].

(** [/^\d{4}$/] *)
Definition year_re : list atom := [Digit; Digit; Digit; Digit].

(** Truthiness of a string: only the empty string is falsy. *)
Definition truthy_string (s : string) : bool :=
  match s with EmptyString => false | _ => true end.

(** Truthiness of an optional string property ([undefined] is falsy). *)
Definition truthy (o : option string) : bool :=
  match o with Some s => truthy_string s | None => false end.

(** [String(v)] of a truthy string property. *)
Definition String_ (o : option string) : string :=
  match o with Some s => s | None => "undefined" end.

(** The number of UTF-16 code units a byte of a UTF-8 string stands for: one
    for the first byte of a sequence of one, two or three bytes, two (a
    surrogate pair) for the first byte of a sequence of four, none for a
    continuation byte. *)
Definition code_units (c : ascii) : nat :=
  let n := nat_of_ascii c in
  if (n <? 128)%nat then 1%nat
  else if (n <? 192)%nat then 0%nat
  else if (n <? 240)%nat then 1%nat
  else 2%nat.

(** [s.length] *)
Fixpoint length (s : string) : nat :=
  match s with
  | EmptyString => 0%nat
  | String c s' => (code_units c + length s')%nat
  end.

(** A property of a JSON body of which a handler reads more than its
    truthiness and its [String(..)].  A truthy value that is not a string
    (a number, [true], an array, an object) is kept as what a handler can
    see of it: the number its [length] is, if it has one, and its
    [String(..)].  The falsy values ([0], [false], [null]) read like a
    property that is not there. *)
Inductive value :=
| VString (s : string)
| VOther (len : option nat) (text : string).

Definition value_truthy (o : option value) : bool :=
  match o with
  | Some (VString s) => truthy_string s
  | Some (VOther _ _) => true
  | None => false
  end.

(** [String(v)] *)
Definition value_String (o : option value) : string :=
  match o with
  | Some (VString s) => s
  | Some (VOther _ text) => text
  | None => "undefined"
  end.

(** [v.length]: [None] stands for [undefined]. *)
Definition value_length (o : option value) : option nat :=
  match o with
  | Some (VString s) => Some (length s)
  | Some (VOther len _) => len
  | None => None
  end.

(** [x < n] where [x] may be [undefined]: [undefined < n] is [false]. *)
Definition lt (x : option nat) (n : nat) : bool :=
  match x with
  | Some m => (m <? n)%nat
  | None => false
  end.

(** A number as a handler may read it off an object. *)
Inductive number := Num (q : Q) | NaN.

(** [a > b] on numbers. *)
Definition gt (a b : Q) : bool := negb (Qle_bool a b).

(** [Math.max(a, b)] *)
Definition Math_max (a b : Q) : Q := if Qle_bool a b then b else a.

(** [n || d] on numbers: [0] is falsy. *)
Definition or_number (n d : Q) : Q := if Qeq_bool n 0 then d else n.

(** A stable sort: [x] is put behind every [y] it must come after, and in
    front of the first element it need not come after.  Folding from the
    right keeps elements that compare equal in their original order. *)
Section Sort.
Variable A : Type.
Variable after : A -> A -> bool.

Fixpoint stable_insert (x : A) (l : list A) : list A :=
  match l with
  | [] => [x]
  | y :: l' => if after x y then y :: stable_insert x l' else x :: l
  end.

Definition stable_sort (l : list A) : list A :=
  fold_right stable_insert [] l.
End Sort.

(** [[...l].sort(cmp)]: [Array.prototype.sort] is stable, and [a] goes behind
    [b] exactly when [cmp(a, b) > 0]. *)
Definition Array_sort (A : Type) (cmp : A -> A -> Q) (l : list A) : list A :=
  stable_sort (fun a b => gt (cmp a b) 0) l.

(** [arr[0] || null] for an array of objects. *)
Definition first_or_null (A : Type) (l : list A) : option A := hd_error l.

(** [arr[arr.length - 1] || null] for an array of objects. *)
Definition last_or_null (A : Type) (l : list A) : option A :=
  match l with
  | [] => None
  | x :: l' => Some (last l' x)
  end.

(** *** Plain objects used as string-keyed records

    An object literal [{}] has [Object.prototype] as its prototype, so a read
    [o[k]] finds the own property [k] or else an inherited one.  The own
    properties are kept in insertion order. *)

Definition Object_prototype_keys : list string :=
  [ "constructor"; "__defineGetter__"; "__defineSetter__"; "hasOwnProperty";
    "__lookupGetter__"; "__lookupSetter__"; "isPrototypeOf";
    "propertyIsEnumerable"; "toString"; "valueOf"; "__proto__";
    "toLocaleString" ].

Definition inherited (k : string) : bool :=
  existsb (String.eqb k) Object_prototype_keys.

Section Obj.
Variable V : Type.

Definition Obj := list (string * V).

Definition own (o : Obj) (k : string) : option V :=
  match find (fun kv => String.eqb (fst kv) k) o with
  | Some kv => Some (snd kv)
  | None => None
  end.

(** [!!o[k]] when the own values are objects: an own property is truthy,
    and so is every member of [Object.prototype]. *)
Definition has_truthy (o : Obj) (k : string) : bool :=
  match own o k with
  | Some _ => true
  | None => inherited k
  end.

(** [o[k] = v] for a key that is not [__proto__]. *)
Fixpoint set (o : Obj) (k : string) (v : V) : Obj :=
  match o with
  | [] => [(k, v)]
  | (k', v') :: o' =>
      if String.eqb k' k then (k', v) :: o' else (k', v') :: set o' k v
  end.

(** [o[k].field += ..]: the own value is updated in place; when [k] is
    only inherited, the write lands on the shared prototype member and
    the own properties stay as they are ([writes_prototype] below tells
    when that member is [Object.prototype] itself). *)
Fixpoint update (o : Obj) (k : string) (f : V -> V) : Obj :=
  match o with
  | [] => []
  | (k', v') :: o' =>
      if String.eqb k' k then (k', f v') :: o' else (k', v') :: update o' k f
  end.

Fixpoint digits_value (s : string) (acc : N) : option N :=
  match s with
  | EmptyString => Some acc
  | String c s' =>
      if is_digit c
      then digits_value s' (acc * 10 + (N_of_ascii c - 48))%N
      else None
  end.

(** A key is an array index when it is the canonical decimal form of an
    integer in [0, 2^32 - 2]. *)
Definition array_index (k : string) : option N :=
  match k with
  | EmptyString => None
  | String c r =>
      if Ascii.eqb c "0" && truthy_string r then None
      else match digits_value k 0 with
           | Some n => if (n <=? 4294967294)%N then Some n else None
           | None => None
           end
  end.

Definition index_of (kv : string * V) : N :=
  match array_index (fst kv) with Some n => n | None => 0%N end.

Definition is_index (kv : string * V) : bool :=
  match array_index (fst kv) with Some _ => true | None => false end.

(** [Object.entries(o)]: array-index keys in ascending numeric order, then
    the other keys in insertion order. *)
Definition Object_entries (o : Obj) : list (string * V) :=
  stable_sort (fun a b => (index_of b <? index_of a)%N) (filter is_index o)
  ++ filter (fun kv => negb (is_index kv)) o.
End Obj.

(** *** The shared [Object.prototype]

    [o["__proto__"]] is [Object.prototype] itself, for every object [o] made
    by a literal.  The two writes [o[k].budgeted += ..] and
    [o[k].actual += ..] for that key therefore give [Object.prototype] the
    members [budgeted] and [actual], both [NaN] ([undefined + x]), and they
    stay there for as long as the process runs.  For the other inherited
    keys [o[k]] is a function, and the writes land on that function. *)
Definition writes_prototype (k : string) : bool := String.eqb k "__proto__".

(** [const { f } = req.body] for [f] one of [budgeted] and [actual]: the
    body's own [f], or else the [NaN] that [Object.prototype] holds once it
    was written to ([polluted]), or else [undefined]. *)
Definition read_amount (polluted : bool) (own : option Q) : option number :=
  match own with
  | Some q => Some (Num q)
  | None => if polluted then Some NaN else None
  end.

End JS.

(** ** Data model (the Prisma schema) *)

Module User.
Record t := { id : Z; username : string; password : string }.
End User.

Module MonthlyData.
Record t := { id : Z; month : string }.
End MonthlyData.

Module IncomeSource.
Record t := { id : Z; name : string; expected : Q; actual : Q;
              monthlyDataId : Z }.
End IncomeSource.

Module ExpenseCategory.
Record t := { id : Z; name : string; budgeted : Q; actual : Q;
              isPaid : bool; showPaidStatus : bool; monthlyDataId : Z }.
End ExpenseCategory.

(** A [MonthlyData] row as returned with
    [include: { incomeSources: true, expenseCategories: true }]. *)
Module MonthlyDataFull.
Record t := { id : Z; month : string;
              incomeSources : list IncomeSource.t;
              expenseCategories : list ExpenseCategory.t }.
End MonthlyDataFull.

Record Store := {
  users : list User.t;
  monthlyData : list MonthlyData.t;
  incomeSources : list IncomeSource.t;
  expenseCategories : list ExpenseCategory.t;
  monthlyData_seq : Z;
  expenseCategory_seq : Z
}.

(** ** Asynchronous calls against the store *)

Inductive outcome (A : Type) :=
| Resolved (a : A)
| Rejected (e : string).
Arguments Rejected {A} e.

Section Async.
Variable S : Type.

Definition Async (A : Type) := S -> outcome A * S.

Definition ret (A : Type) (a : A) : Async A := fun s => (Resolved a, s).

Definition bind (A B : Type) (m : Async A) (k : A -> Async B) : Async B :=
  fun s =>
    match m s with
    | (Resolved a, s') => k a s'
    | (Rejected e, s') => (Rejected e, s')
    end.

(** [try { m } catch (error) { h }] at the top of a handler. *)
Definition try_catch (A : Type) (m : Async A) (h : string -> A) : S -> A * S :=
  fun s =>
    match m s with
    | (Resolved a, s') => (a, s')
    | (Rejected e, s') => (h e, s')
    end.

(** A read that does not fail. *)
Definition query (A : Type) (f : S -> A) : Async A :=
  fun s => (Resolved (f s), s).
End Async.

Notation "'await' x <- m ; k" := (bind m (fun x => k))
  (at level 10, x name, m at level 100, k at level 200).

(** ** Column types ([prisma/migrations]) *)

Module Schema.

(** [q * 100] rounded to the nearest integer, halves away from zero: the
    way the database rounds a [numeric] to a scale of 2. *)
Definition cents (q : Q) : Z :=
  let n := (Qnum q * 100)%Z in
  let d := Zpos (Qden q) in
  (Z.sgn n * ((2 * Z.abs n + d) / (2 * d)))%Z.

(** A number written to a [DECIMAL(10,2)] column: it is rounded to two
    decimal places, and the write is rejected ([None], "numeric field
    overflow") unless the rounded value is below [10^8] in absolute value.
    The stored value is kept in lowest terms. *)
Definition DECIMAL_10_2 (q : Q) : option Q :=
  let c := cents q in
  if (Z.abs c <? 10000000000)%Z then Some (Qred (c # 100)) else None.

End Schema.

(** ** The Prisma client calls made by the routes *)

(** The [data] of one nested or direct expense-category create. *)
Module CategoryData.
Record t := { name : string; budgeted : Q; actual : Q;
              isPaid : bool; showPaidStatus : bool }.
End CategoryData.

Module Prisma.

Definition incomeSources_of (db : Store) (mid : Z) : list IncomeSource.t :=
  filter (fun i => Z.eqb (IncomeSource.monthlyDataId i) mid) (incomeSources db).

Definition expenseCategories_of (db : Store) (mid : Z)
  : list ExpenseCategory.t :=
  filter (fun e => Z.eqb (ExpenseCategory.monthlyDataId e) mid)
         (expenseCategories db).

(** [include: { incomeSources: true, expenseCategories: true }] *)
Definition include_all (db : Store) (m : MonthlyData.t) : MonthlyDataFull.t :=
  {| MonthlyDataFull.id := MonthlyData.id m;
     MonthlyDataFull.month := MonthlyData.month m;
     MonthlyDataFull.incomeSources := incomeSources_of db (MonthlyData.id m);
     MonthlyDataFull.expenseCategories :=
       expenseCategories_of db (MonthlyData.id m) |}.

(** [monthlyData.findUnique({ where: { month } })] *)
Definition monthlyData_findUnique (key : string) (db : Store)
  : option MonthlyData.t :=
  find (fun m => String.eqb (MonthlyData.month m) key) (monthlyData db).

(** [monthlyData.findUnique({ where: { month }, include: {..both..} })] *)
Definition monthlyData_findUnique_include (key : string) (db : Store)
  : option MonthlyDataFull.t :=
  option_map (include_all db) (monthlyData_findUnique key db).

(** [monthlyData.findFirst({ where: { month: { lt: key } },
      orderBy: { month: "desc" }, include: { expenseCategories: true } })] *)
Definition monthlyData_findFirst_lt_desc (key : string) (db : Store)
  : option (MonthlyData.t * list ExpenseCategory.t) :=
  option_map
    (fun m => (m, expenseCategories_of db (MonthlyData.id m)))
    (hd_error
       (JS.stable_sort
          (fun a b => String.ltb (MonthlyData.month a) (MonthlyData.month b))
          (filter (fun m => String.ltb (MonthlyData.month m) key)
                  (monthlyData db)))).

(** [monthlyData.findMany({ where: { month: { startsWith: year } },
      include: {..both..}, orderBy: { month: "asc" } })] *)
Definition monthlyData_findMany_startsWith_asc (year : string) (db : Store)
  : list MonthlyDataFull.t :=
  map (include_all db)
      (JS.stable_sort
         (fun a b => String.ltb (MonthlyData.month b) (MonthlyData.month a))
         (filter (fun m => String.prefix year (MonthlyData.month m))
                 (monthlyData db))).

(** Rows for the created categories, numbered from the sequence. *)
Fixpoint new_categories (next mid : Z) (l : list CategoryData.t)
  : list ExpenseCategory.t :=
  match l with
  | [] => []
  | c :: l' =>
      {| ExpenseCategory.id := next;
         ExpenseCategory.name := CategoryData.name c;
         ExpenseCategory.budgeted := CategoryData.budgeted c;
         ExpenseCategory.actual := CategoryData.actual c;
         ExpenseCategory.isPaid := CategoryData.isPaid c;
         ExpenseCategory.showPaidStatus := CategoryData.showPaidStatus c;
         ExpenseCategory.monthlyDataId := mid |}
      :: new_categories (next + 1) mid l'
  end.

(** [monthlyData.create({ data: { month, expenseCategories: { create } },
      include: {..both..} })].  The unique index on [month] rejects a
    second row with the same key.  The amounts of the nested rows are read
    from the columns or are [0], so that the columns take them as they
    are. *)
Definition monthlyData_create (key : string) (cats : list CategoryData.t)
  : Async Store MonthlyDataFull.t :=
  fun db =>
    if existsb (fun m => String.eqb (MonthlyData.month m) key) (monthlyData db)
    then (Rejected "Unique constraint failed on the fields: (`month`)", db)
    else
      let mid := monthlyData_seq db in
      let rows := new_categories (expenseCategory_seq db) mid cats in
      let db' :=
        {| users := users db;
           monthlyData :=
             monthlyData db
             ++ [{| MonthlyData.id := mid; MonthlyData.month := key |}];
           incomeSources := incomeSources db;
           expenseCategories := expenseCategories db ++ rows;
           monthlyData_seq := (mid + 1)%Z;
           expenseCategory_seq :=
             (expenseCategory_seq db + Z.of_nat (List.length cats))%Z |} in
      (Resolved
         (include_all db' {| MonthlyData.id := mid; MonthlyData.month := key |}),
       db').

(** [expenseCategory.create({ data })].  The two [DECIMAL(10,2)] columns
    round the amounts or reject the row, the foreign key rejects a row
    whose month does not exist, and the call resolves with the row as it is
    stored.  Whether a rejected create has used up an id of the sequence is
    not fixed by the code; here it has not. *)
Definition expenseCategory_create (mid : Z) (c : CategoryData.t)
  : Async Store ExpenseCategory.t :=
  fun db =>
    match Schema.DECIMAL_10_2 (CategoryData.budgeted c),
          Schema.DECIMAL_10_2 (CategoryData.actual c) with
    | Some budgeted, Some actual =>
        if existsb (fun m => Z.eqb (MonthlyData.id m) mid) (monthlyData db)
        then
          let row :=
            new_categories (expenseCategory_seq db) mid
              [{| CategoryData.name := CategoryData.name c;
                  CategoryData.budgeted := budgeted;
                  CategoryData.actual := actual;
                  CategoryData.isPaid := CategoryData.isPaid c;
                  CategoryData.showPaidStatus :=
                    CategoryData.showPaidStatus c |}] in
          (match row with
           | r :: _ => Resolved r
           | [] => Rejected "unreachable"
           end,
           {| users := users db;
              monthlyData := monthlyData db;
              incomeSources := incomeSources db;
              expenseCategories := expenseCategories db ++ row;
              monthlyData_seq := monthlyData_seq db;
              expenseCategory_seq := (expenseCategory_seq db + 1)%Z |})
        else (Rejected "Foreign key constraint failed", db)
    | _, _ => (Rejected "numeric field overflow", db)
    end.

End Prisma.

(** ** HTTP responses *)

Module Item.
(** [MonthlyBreakdownItem] *)
Record t := { month : string; expectedIncome : Q; actualIncome : Q;
              effectiveIncome : Q; budgeted : Q; actualExpenses : Q;
              savings : Q }.
End Item.

Module Category.
(** An entry of [categoryBreakdown]. *)
Record t := { name : string; budgeted : Q; actual : Q; variance : Q }.
End Category.

Module Totals.
Record t := { expectedIncome : Q; actualIncome : Q; effectiveIncome : Q;
              budgeted : Q; actualExpenses : Q; savings : Q }.
End Totals.

Module Averages.
Record t := { monthlyIncome : Q; monthlyExpenses : Q; monthlySavings : Q }.
End Averages.

Module Highlights.
Record t := { bestMonth : option Item.t; worstMonth : option Item.t;
              highestSpendingMonth : option Item.t;
              topSpendingCategory : option Category.t }.
End Highlights.

Module Summary.
Record t := { year : string; monthCount : nat; totals : Totals.t;
              averages : Averages.t; savingsRate : Q;
              monthlyBreakdown : list Item.t;
              categoryBreakdown : list Category.t;
              highlights : Highlights.t }.
End Summary.

Inductive Json :=
| JError (error : string)
| JSummary (s : Summary.t)
| JMonth (m : MonthlyDataFull.t)
| JExpense (e : ExpenseCategory.t)
| JSuccess (username : string).

Record Response := { status : Z; body : Json }.

(** [res.status(c).json(b)] and [res.json(b)] *)
Definition res_status_json (c : Z) (b : Json) : Response :=
  {| status := c; body := b |}.
Definition res_json (b : Json) : Response := res_status_json 200 b.

(** ** Month resolver and expense creation ([routes/monthly.ts]) *)

Module Monthly.

Record DefaultCategory := { name : string; budgeted : Q; showPaidStatus : bool }.

Definition DEFAULT_CATEGORIES : list DefaultCategory :=
  [ {| name := "Rent"; budgeted := 0; showPaidStatus := true |};
    {| name := "Groceries"; budgeted := 0; showPaidStatus := false |};
    {| name := "Car Insurance"; budgeted := 0; showPaidStatus := true |};
    {| name := "Clothes"; budgeted := 0; showPaidStatus := false |};
    {| name := "Other"; budgeted := 0; showPaidStatus := false |} ].

Definition clone_category (cat : ExpenseCategory.t) : CategoryData.t :=
  {| CategoryData.name := ExpenseCategory.name cat;
     CategoryData.budgeted := ExpenseCategory.budgeted cat;
     CategoryData.actual := 0;
     CategoryData.isPaid := false;
     CategoryData.showPaidStatus := ExpenseCategory.showPaidStatus cat |}.

Definition default_category (cat : DefaultCategory) : CategoryData.t :=
  {| CategoryData.name := name cat;
     CategoryData.budgeted := budgeted cat;
     CategoryData.actual := 0;
     CategoryData.isPaid := false;
     CategoryData.showPaidStatus := showPaidStatus cat |}.

(** [previousMonth?.expenseCategories.length ? .. : ..] *)
Definition categoriesToClone
  (previousMonth : option (MonthlyData.t * list ExpenseCategory.t))
  : list CategoryData.t :=
  match previousMonth with
  | Some (_, (_ :: _) as cats) => map clone_category cats
  | _ => map default_category DEFAULT_CATEGORIES
  end.

(** [router.get("/:month", ..)] *)
Definition get_month (month : string) : Store -> Response * Store :=
  if negb (JS.test JS.month_re month)
  then fun db =>
         (res_status_json 400 (JError "Invalid month format. Use YYYY-MM"), db)
  else
    try_catch
      (await monthlyData <-
         query (Prisma.monthlyData_findUnique_include month);
       match monthlyData with
       | Some found => ret (res_json (JMonth found))
       | None =>
           await previousMonth <-
             query (Prisma.monthlyData_findFirst_lt_desc month);
           await created <-
             Prisma.monthlyData_create month (categoriesToClone previousMonth);
           ret (res_json (JMonth created))
       end)
      (fun _ => res_status_json 500 (JError "Failed to fetch month data")).

(** [req.body] of the expense routes: the handler below destructures only
    [name] and [budgeted]. *)
Record ExpenseBody := {
  body_name : option string;
  body_budgeted : option Q;
  body_actual : option Q;
  body_isPaid : option bool;
  body_showPaidStatus : option bool
}.

(** [name || "New Category"] *)
Definition name_or_default (n : option string) : string :=
  if JS.truthy n then JS.String_ n else "New Category".

(** [new Decimal(budgeted || 0)].  [new Decimal(n)] takes the decimal
    notation of the number [n]; the number is written here as the rational
    that this notation denotes.  A [budgeted] that is [undefined], or the
    [NaN] that [Object.prototype] may hold for it, gives [0]. *)
Definition budgeted_or_default (b : option Q) : Q :=
  match b with
  | Some q => JS.or_number q 0
  | None => 0
  end.

(** [router.post("/:month/expense", ..)] *)
Definition post_expense (month : string) (body : ExpenseBody)
  : Store -> Response * Store :=
  try_catch
    (await monthlyData <- query (Prisma.monthlyData_findUnique month);
     match monthlyData with
     | None => ret (res_status_json 404 (JError "Month not found"))
     | Some found =>
         await expense <-
           Prisma.expenseCategory_create (MonthlyData.id found)
             {| CategoryData.name := name_or_default (body_name body);
                CategoryData.budgeted :=
                  budgeted_or_default (body_budgeted body);
                CategoryData.actual := 0;
                CategoryData.isPaid := false;
                CategoryData.showPaidStatus := false |};
         ret (res_json (JExpense expense))
     end)
    (fun _ => res_status_json 500 (JError "Failed to add expense")).

End Monthly.

(** ** Yearly aggregation ([routes/yearly.ts]) *)

Module Yearly.

(** [l.reduce((sum, x) => sum + f(x), 0)] *)
Definition reduce_sum (A : Type) (f : A -> Q) (l : list A) : Q :=
  fold_left (fun sum x => sum + f x) l 0.

(** The variables the [for (const month of months)] loop updates. *)
Record Acc := {
  totalExpectedIncome : Q;
  totalActualIncome : Q;
  totalBudgeted : Q;
  totalActualExpenses : Q;
  monthlyBreakdown : list Item.t;
  categoryTotals : JS.Obj (Q * Q)      (* { budgeted, actual } *)
}.

Definition init : Acc :=
  {| totalExpectedIncome := 0; totalActualIncome := 0; totalBudgeted := 0;
     totalActualExpenses := 0; monthlyBreakdown := []; categoryTotals := [] |}.

(** One round of [for (const exp of month.expenseCategories)] *)
Definition aggregate (ct : JS.Obj (Q * Q)) (exp : ExpenseCategory.t)
  : JS.Obj (Q * Q) :=
  let k := ExpenseCategory.name exp in
  let ct1 := if negb (JS.has_truthy ct k) then JS.set ct k (0, 0) else ct in
  let ct2 :=
    JS.update ct1 k (fun d => (fst d + ExpenseCategory.budgeted exp, snd d)) in
  JS.update ct2 k (fun d => (fst d, snd d + ExpenseCategory.actual exp)).

Definition item_of (month : MonthlyDataFull.t) : Item.t :=
  let monthExpectedIncome :=
    reduce_sum IncomeSource.expected (MonthlyDataFull.incomeSources month) in
  let monthActualIncome :=
    reduce_sum IncomeSource.actual (MonthlyDataFull.incomeSources month) in
  let monthBudgeted :=
    reduce_sum ExpenseCategory.budgeted
               (MonthlyDataFull.expenseCategories month) in
  let monthActualExpenses :=
    reduce_sum ExpenseCategory.actual
               (MonthlyDataFull.expenseCategories month) in
  let effectiveIncome := JS.Math_max monthExpectedIncome monthActualIncome in
  {| Item.month := MonthlyDataFull.month month;
     Item.expectedIncome := monthExpectedIncome;
     Item.actualIncome := monthActualIncome;
     Item.effectiveIncome := effectiveIncome;
     Item.budgeted := monthBudgeted;
     Item.actualExpenses := monthActualExpenses;
     Item.savings := effectiveIncome - monthActualExpenses |}.

(** One round of [for (const month of months)] *)
Definition step (acc : Acc) (month : MonthlyDataFull.t) : Acc :=
  let it := item_of month in
  {| totalExpectedIncome := totalExpectedIncome acc + Item.expectedIncome it;
     totalActualIncome := totalActualIncome acc + Item.actualIncome it;
     totalBudgeted := totalBudgeted acc + Item.budgeted it;
     totalActualExpenses := totalActualExpenses acc + Item.actualExpenses it;
     monthlyBreakdown := monthlyBreakdown acc ++ [it];
     categoryTotals :=
       fold_left aggregate (MonthlyDataFull.expenseCategories month)
                 (categoryTotals acc) |}.

Definition category_of (entry : string * (Q * Q)) : Category.t :=
  let (name, data) := entry in
  {| Category.name := name;
     Category.budgeted := fst data;
     Category.actual := snd data;
     Category.variance := fst data - snd data |}.

(** Everything after the query. *)
Definition summarize (year : string) (months : list MonthlyDataFull.t)
  : Summary.t :=
  let acc := fold_left step months init in
  let categoryBreakdown :=
    JS.Array_sort
      (fun a b => Category.actual b - Category.actual a)
      (map category_of (JS.Object_entries (categoryTotals acc))) in
  let monthCount :=
    match List.length months with
    | O => 1
    | n => inject_Z (Z.of_nat n)
    end in
  let totalEffectiveIncome :=
    JS.Math_max (totalExpectedIncome acc) (totalActualIncome acc) in
  let totalSavings := totalEffectiveIncome - totalActualExpenses acc in
  let savingsRate :=
    if JS.gt totalEffectiveIncome 0
    then (totalSavings / totalEffectiveIncome) * 100
    else 0 in
  let avgMonthlyExpenses := totalActualExpenses acc / monthCount in
  let avgMonthlyIncome := totalEffectiveIncome / monthCount in
  let avgMonthlySavings := totalSavings / monthCount in
  let sortedBySavings :=
    JS.Array_sort (fun a b => Item.savings b - Item.savings a)
                  (monthlyBreakdown acc) in
  let bestMonth := JS.first_or_null sortedBySavings in
  let worstMonth := JS.last_or_null sortedBySavings in
  let sortedByExpenses :=
    JS.Array_sort (fun a b => Item.actualExpenses b - Item.actualExpenses a)
                  (monthlyBreakdown acc) in
  let highestSpendingMonth := JS.first_or_null sortedByExpenses in
  {| Summary.year := year;
     Summary.monthCount := List.length months;
     Summary.totals :=
       {| Totals.expectedIncome := totalExpectedIncome acc;
          Totals.actualIncome := totalActualIncome acc;
          Totals.effectiveIncome := totalEffectiveIncome;
          Totals.budgeted := totalBudgeted acc;
          Totals.actualExpenses := totalActualExpenses acc;
          Totals.savings := totalSavings |};
     Summary.averages :=
       {| Averages.monthlyIncome := avgMonthlyIncome;
          Averages.monthlyExpenses := avgMonthlyExpenses;
          Averages.monthlySavings := avgMonthlySavings |};
     Summary.savingsRate := savingsRate;
     Summary.monthlyBreakdown := monthlyBreakdown acc;
     Summary.categoryBreakdown := categoryBreakdown;
     Summary.highlights :=
       {| Highlights.bestMonth := bestMonth;
          Highlights.worstMonth := worstMonth;
          Highlights.highestSpendingMonth := highestSpendingMonth;
          Highlights.topSpendingCategory :=
            JS.first_or_null categoryBreakdown |} |}.

(** Whether the loop over the months' categories writes to
    [Object.prototype]: it does for a row named [__proto__]. *)
Definition writes_prototype (months : list MonthlyDataFull.t) : bool :=
  existsb (fun exp => JS.writes_prototype (ExpenseCategory.name exp))
          (flat_map MonthlyDataFull.expenseCategories months).

(** [router.get("/:year", ..)] *)
Definition get_year (year : string) : Store -> Response * Store :=
  if negb (JS.test JS.year_re year)
  then fun db =>
         (res_status_json 400 (JError "Invalid year format. Use YYYY"), db)
  else
    try_catch
      (await months <-
         query (Prisma.monthlyData_findMany_startsWith_asc year);
       ret (res_json (JSummary (summarize year months))))
      (fun _ => res_status_json 500 (JError "Failed to fetch yearly data")).

(** What the same request leaves in [Object.prototype], where [polluted]
    tells whether the members [budgeted] and [actual] were there before. *)
Definition get_year_prototype (year : string) (db : Store) (polluted : bool)
  : bool :=
  if negb (JS.test JS.year_re year)
  then polluted
  else polluted
       || writes_prototype (Prisma.monthlyData_findMany_startsWith_asc year db).

End Yearly.

(** ** Authentication ([routes/auth.ts]) *)

Module Auth.

(** The fields the routes keep in [req.session]. *)
Record Session := { userId : option Z; username : option string }.

(** What a handler of this router reads and writes. *)
Record World := { db : Store; session : Session }.

(** [req.session && req.session.userId]: the session object always exists;
    an absent id and the id [0] are falsy. *)
Definition logged_in (s : Session) : option Z :=
  match userId s with
  | Some n => if Z.eqb n 0 then None else Some n
  | None => None
  end.

(** A store call made from a handler of this router. *)
Definition on_db (A : Type) (m : Async Store A) : Async World A :=
  fun w =>
    let (r, db') := m (db w) in (r, {| db := db'; session := session w |}).

Definition set_session (s : Session) : Async World unit :=
  fun w => (Resolved tt, {| db := db w; session := s |}).

(** [user.findUnique({ where: { username } })] *)
Definition user_findUnique_username (name : string) (d : Store)
  : option User.t :=
  find (fun u => String.eqb (User.username u) name) (users d).

(** [user.findUnique({ where: { id } })] *)
Definition user_findUnique_id (uid : Z) (d : Store) : option User.t :=
  find (fun u => Z.eqb (User.id u) uid) (users d).

(** [updateData] *)
Record UpdateData := { new_username : option string;
                       new_password : option string }.

Definition apply_update (data : UpdateData) (u : User.t) : User.t :=
  {| User.id := User.id u;
     User.username :=
       match new_username data with Some n => n | None => User.username u end;
     User.password :=
       match new_password data with Some p => p | None => User.password u end |}.

(** [user.update({ where: { id }, data })].  The update rejects when no row
    has the id, and when the unique index on [username] would be violated.
    The new version of the row is read back behind the rows that were not
    touched. *)
Definition user_update (uid : Z) (data : UpdateData) : Async Store User.t :=
  fun d =>
    match user_findUnique_id uid d with
    | None => (Rejected "Record to update not found", d)
    | Some u =>
        let taken :=
          match new_username data with
          | Some n =>
              existsb (fun v => String.eqb (User.username v) n
                                && negb (Z.eqb (User.id v) uid))
                      (users d)
          | None => false
          end in
        if taken
        then (Rejected "Unique constraint failed on the fields: (`username`)", d)
        else
          (Resolved (apply_update data u),
           {| users :=
                filter (fun v => negb (Z.eqb (User.id v) uid)) (users d)
                ++ [apply_update data u];
              monthlyData := monthlyData d;
              incomeSources := incomeSources d;
              expenseCategories := expenseCategories d;
              monthlyData_seq := monthlyData_seq d;
              expenseCategory_seq := expenseCategory_seq d |})
    end.

(** Of these properties the handlers read the truthiness and the
    [String(..)] only: a property is written as its [String(..)], a falsy
    one as absent. *)
Record LoginBody := { login_username : option string;
                      login_password : option string }.

(** Of [newPassword] the handler also reads the [length]. *)
Record CredentialsBody := { currentPassword : option string;
                            newUsername : option string;
                            newPassword : option JS.value }.

Section Bcrypt.
(** The password hashing primitive is opaque. *)
Variable bcrypt_compare : string -> string -> bool.
Variable bcrypt_hash : string -> Z -> string.

Definition SALT_ROUNDS : Z := 12.

(** [router.post("/login", ..)] *)
Definition login (body : LoginBody) : World -> Response * World :=
  try_catch
    (if negb (JS.truthy (login_username body))
        || negb (JS.truthy (login_password body))
     then ret (res_status_json 400 (JError "Username and password required"))
     else
       await user <-
         on_db (query (user_findUnique_username
                         (JS.String_ (login_username body))));
       match user with
       | None => ret (res_status_json 401 (JError "Invalid credentials"))
       | Some u =>
           let validPassword :=
             bcrypt_compare (JS.String_ (login_password body))
                            (User.password u) in
           if negb validPassword
           then ret (res_status_json 401 (JError "Invalid credentials"))
           else
             await _ <-
               set_session {| userId := Some (User.id u);
                              username := Some (User.username u) |};
             ret (res_json (JSuccess (User.username u)))
       end)
    (fun _ => res_status_json 500 (JError "Internal server error")).

(** The tail of the credential change, once [updateData] is built. *)
Definition commit (user : User.t) (updateData : UpdateData)
  : Async World Response :=
  await updatedUser <- on_db (user_update (User.id user) updateData);
  await _ <-
    (if JS.truthy (new_username updateData)
     then fun w =>
            set_session {| userId := userId (session w);
                           username := Some (User.username updatedUser) |} w
     else ret tt);
  ret (res_json (JSuccess (User.username updatedUser))).

(** [if (newPassword) { .. }] and what follows it. *)
Definition with_password (user : User.t) (body : CredentialsBody)
  (updateUsername : option string) : Async World Response :=
  if JS.value_truthy (newPassword body)
  then
    if JS.lt (JS.value_length (newPassword body)) 6
    then ret (res_status_json 400
                (JError "Password must be at least 6 characters"))
    else commit user
           {| new_username := updateUsername;
              new_password :=
                Some (bcrypt_hash (JS.value_String (newPassword body))
                                  SALT_ROUNDS) |}
  else commit user {| new_username := updateUsername;
                      new_password := None |}.

(** [router.post("/change-credentials", ..)] *)
Definition change_credentials (body : CredentialsBody)
  : World -> Response * World :=
  try_catch
    (await sess <- query session;
     match logged_in sess with
     | None => ret (res_status_json 401 (JError "Not authenticated"))
     | Some uid =>
         if negb (JS.truthy (currentPassword body))
         then ret (res_status_json 400 (JError "Current password required"))
         else if negb (JS.truthy (newUsername body))
                 && negb (JS.value_truthy (newPassword body))
         then ret (res_status_json 400
                     (JError "New username or password required"))
         else
           await user <- on_db (query (user_findUnique_id uid));
           match user with
           | None => ret (res_status_json 401 (JError "User not found"))
           | Some u =>
               if negb (bcrypt_compare (JS.String_ (currentPassword body))
                                       (User.password u))
               then ret (res_status_json 401
                           (JError "Current password is incorrect"))
               else if JS.truthy (newUsername body)
               then
                 await existing <-
                   on_db (query (user_findUnique_username
                                   (JS.String_ (newUsername body))));
                 match existing with
                 | Some e =>
                     if negb (Z.eqb (User.id e) (User.id u))
                     then ret (res_status_json 400
                                 (JError "Username already taken"))
                     else with_password u body
                            (Some (JS.String_ (newUsername body)))
                 | None =>
                     with_password u body
                       (Some (JS.String_ (newUsername body)))
                 end
               else with_password u body None
           end
     end)
    (fun _ => res_status_json 500 (JError "Internal server error")).
End Bcrypt.

End Auth.

(** ** Vocabulary of the specification *)

(** Sum of a list of amounts, from the left as the routes add them up. *)
Definition sum (l : list Q) : Q := fold_left Qplus l 0.

Section Extremes.
Variable A : Type.
Variable f : A -> Q.

(** [o] is the first element of [l] whose [f] is greatest
    ([None] for the empty list). *)
Definition first_max_of (l : list A) (o : option A) : Prop :=
  match o with
  | None => l = []
  | Some b =>
      exists l1 l2, l = l1 ++ b :: l2
                    /\ (forall x, In x l1 -> f x < f b)
                    /\ (forall x, In x l2 -> f x <= f b)
  end.

(** [o] is the first element of [l] whose [f] is least. *)
Definition first_min_of (l : list A) (o : option A) : Prop :=
  match o with
  | None => l = []
  | Some w =>
      exists l1 l2, l = l1 ++ w :: l2
                    /\ (forall x, In x l1 -> f w < f x)
                    /\ (forall x, In x l2 -> f w <= f x)
  end.

(** [o] is the last element of [l] whose [f] is least. *)
Definition last_min_of (l : list A) (o : option A) : Prop :=
  match o with
  | None => l = []
  | Some w =>
      exists l1 l2, l = l1 ++ w :: l2
                    /\ (forall x, In x l1 -> f w <= f x)
                    /\ (forall x, In x l2 -> f w < f x)
  end.

(** [l] is in descending order of [f]. *)
Definition descending (l : list A) : Prop :=
  StronglySorted (fun a b => f b <= f a) l.
End Extremes.

(** Month keys in ascending order. *)
Definition ascending_months (l : list string) : Prop :=
  StronglySorted (fun a b => String.leb a b = true) l.

(** The integrity constraints the schema puts on the ledger tables: the
    unique index on [month], the two foreign keys, and ids drawn from the
    sequences. *)
Record ledger_ok (db : Store) : Prop := {
  unique_month : NoDup (map MonthlyData.month (monthlyData db));
  month_id_used :
    forall m, In m (monthlyData db) -> (MonthlyData.id m < monthlyData_seq db)%Z;
  income_fk :
    forall i, In i (incomeSources db) ->
      exists m, In m (monthlyData db)
                /\ MonthlyData.id m = IncomeSource.monthlyDataId i;
  expense_fk :
    forall e, In e (expenseCategories db) ->
      exists m, In m (monthlyData db)
                /\ MonthlyData.id m = ExpenseCategory.monthlyDataId e
}.

(** The constraints on the credential table: primary key and unique
    [username]. *)
Record users_ok (db : Store) : Prop := {
  unique_user_id : NoDup (map User.id (users db));
  unique_username : NoDup (map User.username (users db))
}.

(** What a cloned or default category keeps of its source:
    name, budgeted, actual, isPaid, showPaidStatus. *)
Definition shape (e : ExpenseCategory.t) : string * Q * Q * bool * bool :=
  (ExpenseCategory.name e, ExpenseCategory.budgeted e, ExpenseCategory.actual e,
   ExpenseCategory.isPaid e, ExpenseCategory.showPaidStatus e).

(** [P] is the month with the greatest key strictly below [key]. *)
Definition nearest_earlier (db : Store) (key : string) (P : MonthlyData.t)
  : Prop :=
  In P (monthlyData db)
  /\ String.ltb (MonthlyData.month P) key = true
  /\ forall m, In m (monthlyData db) ->
               String.ltb (MonthlyData.month m) key = true ->
               String.leb (MonthlyData.month m) (MonthlyData.month P) = true.

(** No month has a key strictly below [key]. *)
Definition no_earlier (db : Store) (key : string) : Prop :=
  forall m, In m (monthlyData db) ->
            String.ltb (MonthlyData.month m) key = false.

(** ** Sample stores *)

Module Sample.

Definition month (i : Z) (k : string) : MonthlyData.t :=
  {| MonthlyData.id := i; MonthlyData.month := k |}.

Definition income (i : Z) (n : string) (e a : Q) (m : Z) : IncomeSource.t :=
  {| IncomeSource.id := i; IncomeSource.name := n;
     IncomeSource.expected := e; IncomeSource.actual := a;
     IncomeSource.monthlyDataId := m |}.

Definition expense (i : Z) (n : string) (b a : Q) (paid shown : bool) (m : Z)
  : ExpenseCategory.t :=
  {| ExpenseCategory.id := i; ExpenseCategory.name := n;
     ExpenseCategory.budgeted := b; ExpenseCategory.actual := a;
     ExpenseCategory.isPaid := paid; ExpenseCategory.showPaidStatus := shown;
     ExpenseCategory.monthlyDataId := m |}.

Definition empty : Store :=
  {| users := []; monthlyData := []; incomeSources := [];
     expenseCategories := []; monthlyData_seq := 1;
     expenseCategory_seq := 1 |}.

(** January and February 2025, with income that peaks on different sides. *)
Definition ledger : Store :=
  {| users := [];
     monthlyData := [month 1 "2025-01"; month 2 "2025-02"];
     incomeSources := [income 1 "Salary" 100 50 1; income 2 "Salary" 50 100 2];
     expenseCategories :=
       [expense 1 "Rent" 1200 1200 true true 1;
        expense 2 "Groceries" 400 380 false false 1;
        expense 3 "Food" 10 5 false false 2];
     monthlyData_seq := 3;
     expenseCategory_seq := 4 |}.

(** January 2025 alone: Rent 1200/1200 paid, Groceries 400/380. *)
Definition january : Store :=
  {| users := [];
     monthlyData := [month 1 "2025-01"];
     incomeSources := [income 1 "Salary" 100 50 1];
     expenseCategories :=
       [expense 1 "Rent" 1200 1200 true true 1;
        expense 2 "Groceries" 400 380 false false 1];
     monthlyData_seq := 2;
     expenseCategory_seq := 3 |}.

(** Two months without any row: equal savings. *)
Definition tied : Store :=
  {| users := [];
     monthlyData := [month 1 "2025-01"; month 2 "2025-02"];
     incomeSources := [];
     expenseCategories := [];
     monthlyData_seq := 3;
     expenseCategory_seq := 1 |}.

(** One month whose only income row holds negative amounts. *)
Definition refund : Store :=
  {| users := [];
     monthlyData := [month 1 "2025-01"];
     incomeSources := [income 1 "Clawback" (-100) (-100) 1];
     expenseCategories := [expense 1 "Rent" 50 50 true true 1];
     monthlyData_seq := 2;
     expenseCategory_seq := 2 |}.

(** A hashing primitive for the examples: the hash is the password behind
    a marker. *)
Definition hash (pw : string) (rounds : Z) : string := "$2b$" ++ pw.
Definition compare (pw hashed : string) : bool := String.eqb (hash pw 12) hashed.

Definition user (i : Z) (n pw : string) : User.t :=
  {| User.id := i; User.username := n; User.password := hash pw 12 |}.

Definition accounts : Store :=
  {| users := [user 1 "alice" "wonderland"; user 2 "bob" "builder"];
     monthlyData := []; incomeSources := []; expenseCategories := [];
     monthlyData_seq := 1; expenseCategory_seq := 1 |}.

Definition anonymous : Auth.Session :=
  {| Auth.userId := None; Auth.username := None |}.

Definition alice_session : Auth.Session :=
  {| Auth.userId := Some 1%Z; Auth.username := Some "alice" |}.

End Sample.

(** * The other routes

    The remaining handlers of [routes/monthly.ts], [routes/yearly.ts] and
    [routes/auth.ts], the [requireAuth] middleware and the wiring of
    [index.ts].  The savings routes are left out: their list is ordered by
    [createdAt], and time stamps are outside the model. *)

(** The bodies these routes send besides the ones above. *)
Inductive Payload :=
| PJson (j : Json)
| PSuccess                                   (* { success: true } *)
| PMonths (months : list MonthlyData.t)      (* [{ id, month }] *)
| PIncome (income : IncomeSource.t)
| PYears (years : list string)
| PMe (authenticated : bool) (username : option string).

Record Reply := { code : Z; payload : Payload }.

Definition reply_status_json (c : Z) (p : Payload) : Reply :=
  {| code := c; payload := p |}.
Definition reply_json (p : Payload) : Reply := reply_status_json 200 p.
Definition reply_error (c : Z) (msg : string) : Reply :=
  reply_status_json c (PJson (JError msg)).

(** A response of the routes above, as a reply. *)
Definition reply_of (r : Response) : Reply :=
  reply_status_json (status r) (PJson (body r)).

(** The store together with the id sequence of [IncomeSource], from which
    only the income route below draws. *)
Record Db := { tables : Store; incomeSource_seq : Z }.

(** ** Further Prisma client calls *)

Module Client.

(** The ledger tables replaced, the rest of the store kept. *)
Definition with_ledger (db : Store) (ms : list MonthlyData.t)
  (incs : list IncomeSource.t) (exps : list ExpenseCategory.t) : Store :=
  {| users := users db;
     monthlyData := ms;
     incomeSources := incs;
     expenseCategories := exps;
     monthlyData_seq := monthlyData_seq db;
     expenseCategory_seq := expenseCategory_seq db |}.

(** [monthlyData.findMany({ orderBy: { month: "desc" }, select })] *)
Definition monthlyData_findMany_desc (db : Store) : list MonthlyData.t :=
  JS.stable_sort
    (fun a b => String.ltb (MonthlyData.month a) (MonthlyData.month b))
    (monthlyData db).

(** [monthlyData.delete({ where: { month } })].  The delete rejects when no
    row has the key; the two foreign keys are [ON DELETE CASCADE]. *)
Definition monthlyData_delete (key : string) : Async Store MonthlyData.t :=
  fun db =>
    match Prisma.monthlyData_findUnique key db with
    | None => (Rejected "Record to delete does not exist.", db)
    | Some found =>
        let gone :=
          filter (fun m => String.eqb (MonthlyData.month m) key)
                 (monthlyData db) in
        let dead (mid : Z) :=
          existsb (fun m => Z.eqb (MonthlyData.id m) mid) gone in
        (Resolved found,
         with_ledger db
           (filter (fun m => negb (String.eqb (MonthlyData.month m) key))
                   (monthlyData db))
           (filter (fun i => negb (dead (IncomeSource.monthlyDataId i)))
                   (incomeSources db))
           (filter (fun e => negb (dead (ExpenseCategory.monthlyDataId e)))
                   (expenseCategories db)))
    end.

(** [incomeSource.create({ data })].  The two [DECIMAL(10,2)] columns round
    the amounts or reject the row; the call resolves with the row as it is
    stored. *)
Definition incomeSource_create (mid : Z) (name : string) (expected actual : Q)
  : Async Db IncomeSource.t :=
  fun d =>
    match Schema.DECIMAL_10_2 expected, Schema.DECIMAL_10_2 actual with
    | Some expected', Some actual' =>
        if existsb (fun m => Z.eqb (MonthlyData.id m) mid)
                   (monthlyData (tables d))
        then
          let row := {| IncomeSource.id := incomeSource_seq d;
                        IncomeSource.name := name;
                        IncomeSource.expected := expected';
                        IncomeSource.actual := actual';
                        IncomeSource.monthlyDataId := mid |} in
          (Resolved row,
           {| tables :=
                with_ledger (tables d) (monthlyData (tables d))
                            (incomeSources (tables d) ++ [row])
                            (expenseCategories (tables d));
              incomeSource_seq := (incomeSource_seq d + 1)%Z |})
        else (Rejected "Foreign key constraint failed", d)
    | _, _ => (Rejected "numeric field overflow", d)
    end.

(** What a [DECIMAL(10,2)] column takes from the field [new Decimal(v)] of
    an [updateData]: nothing when the field is not there ([Some None]), the
    rounded number when it fits, and a rejected update ([None]) when it
    does not fit or when [v] is [NaN]. *)
Definition written (field : option JS.number) : option (option Q) :=
  match field with
  | None => Some None
  | Some (JS.Num q) => option_map Some (Schema.DECIMAL_10_2 q)
  | Some JS.NaN => None
  end.

(** [updateData] of the income route *)
Record IncomeData := { inc_name : option string;
                       inc_expected : option JS.number;
                       inc_actual : option JS.number }.

(** What the columns of an income source take from an update. *)
Record IncomeColumns := { to_name : option string; to_expected : option Q;
                          to_actual : option Q }.

Definition income_columns (data : IncomeData) : option IncomeColumns :=
  match written (inc_expected data), written (inc_actual data) with
  | Some expected, Some actual =>
      Some {| to_name := inc_name data; to_expected := expected;
              to_actual := actual |}
  | _, _ => None
  end.

Definition or_keep (A : Type) (o : option A) (old : A) : A :=
  match o with Some v => v | None => old end.

Definition apply_income (cols : IncomeColumns) (i : IncomeSource.t)
  : IncomeSource.t :=
  {| IncomeSource.id := IncomeSource.id i;
     IncomeSource.name := or_keep (to_name cols) (IncomeSource.name i);
     IncomeSource.expected :=
       or_keep (to_expected cols) (IncomeSource.expected i);
     IncomeSource.actual := or_keep (to_actual cols) (IncomeSource.actual i);
     IncomeSource.monthlyDataId := IncomeSource.monthlyDataId i |}.

(** [incomeSource.update({ where: { id }, data })].  An id that is [NaN]
    ([None]) fails validation, and so does an amount that is [NaN]; an
    amount that does not fit its column, or an id no row has, rejects the
    update.  The new version of the row is read back behind the rows that
    were not touched. *)
Definition incomeSource_update (id : option Z) (data : IncomeData)
  : Async Store IncomeSource.t :=
  fun db =>
    match id, income_columns data with
    | None, _ => (Rejected "Argument `id` is missing.", db)
    | Some _, None => (Rejected "Invalid value for a Decimal argument.", db)
    | Some n, Some cols =>
        match find (fun i => Z.eqb (IncomeSource.id i) n) (incomeSources db) with
        | None => (Rejected "Record to update not found.", db)
        | Some i =>
            (Resolved (apply_income cols i),
             with_ledger db (monthlyData db)
               (filter (fun r => negb (Z.eqb (IncomeSource.id r) n))
                       (incomeSources db)
                ++ [apply_income cols i])
               (expenseCategories db))
        end
    end.

(** [incomeSource.delete({ where: { id } })] *)
Definition incomeSource_delete (id : option Z) : Async Store IncomeSource.t :=
  fun db =>
    match id with
    | None => (Rejected "Argument `id` is missing.", db)
    | Some n =>
        match find (fun i => Z.eqb (IncomeSource.id i) n) (incomeSources db) with
        | None => (Rejected "Record to delete does not exist.", db)
        | Some i =>
            (Resolved i,
             with_ledger db (monthlyData db)
               (filter (fun r => negb (Z.eqb (IncomeSource.id r) n))
                       (incomeSources db))
               (expenseCategories db))
        end
    end.

(** [updateData] of the expense route *)
Record ExpenseData := { exp_name : option string;
                        exp_budgeted : option JS.number;
                        exp_actual : option JS.number;
                        exp_isPaid : option bool;
                        exp_showPaidStatus : option bool }.

(** What the columns of an expense category take from an update. *)
Record ExpenseColumns := { set_name : option string;
                           set_budgeted : option Q;
                           set_actual : option Q;
                           set_isPaid : option bool;
                           set_showPaidStatus : option bool }.

Definition expense_columns (data : ExpenseData) : option ExpenseColumns :=
  match written (exp_budgeted data), written (exp_actual data) with
  | Some budgeted, Some actual =>
      Some {| set_name := exp_name data; set_budgeted := budgeted;
              set_actual := actual; set_isPaid := exp_isPaid data;
              set_showPaidStatus := exp_showPaidStatus data |}
  | _, _ => None
  end.

Definition apply_expense (cols : ExpenseColumns) (e : ExpenseCategory.t)
  : ExpenseCategory.t :=
  {| ExpenseCategory.id := ExpenseCategory.id e;
     ExpenseCategory.name := or_keep (set_name cols) (ExpenseCategory.name e);
     ExpenseCategory.budgeted :=
       or_keep (set_budgeted cols) (ExpenseCategory.budgeted e);
     ExpenseCategory.actual :=
       or_keep (set_actual cols) (ExpenseCategory.actual e);
     ExpenseCategory.isPaid :=
       or_keep (set_isPaid cols) (ExpenseCategory.isPaid e);
     ExpenseCategory.showPaidStatus :=
       or_keep (set_showPaidStatus cols) (ExpenseCategory.showPaidStatus e);
     ExpenseCategory.monthlyDataId := ExpenseCategory.monthlyDataId e |}.

(** [expenseCategory.update({ where: { id }, data })], as for the income
    sources. *)
Definition expenseCategory_update (id : option Z) (data : ExpenseData)
  : Async Store ExpenseCategory.t :=
  fun db =>
    match id, expense_columns data with
    | None, _ => (Rejected "Argument `id` is missing.", db)
    | Some _, None => (Rejected "Invalid value for a Decimal argument.", db)
    | Some n, Some cols =>
        match find (fun e => Z.eqb (ExpenseCategory.id e) n)
                   (expenseCategories db) with
        | None => (Rejected "Record to update not found.", db)
        | Some e =>
            (Resolved (apply_expense cols e),
             with_ledger db (monthlyData db) (incomeSources db)
               (filter (fun r => negb (Z.eqb (ExpenseCategory.id r) n))
                       (expenseCategories db)
                ++ [apply_expense cols e]))
        end
    end.

(** [expenseCategory.delete({ where: { id } })] *)
Definition expenseCategory_delete (id : option Z)
  : Async Store ExpenseCategory.t :=
  fun db =>
    match id with
    | None => (Rejected "Argument `id` is missing.", db)
    | Some n =>
        match find (fun e => Z.eqb (ExpenseCategory.id e) n)
                   (expenseCategories db) with
        | None => (Rejected "Record to delete does not exist.", db)
        | Some e =>
            (Resolved e,
             with_ledger db (monthlyData db) (incomeSources db)
               (filter (fun r => negb (Z.eqb (ExpenseCategory.id r) n))
                       (expenseCategories db)))
        end
    end.

End Client.

(** ** The other ledger routes ([routes/monthly.ts]) *)

Module Ledger.

(** [router.get("/", ..)] *)
Definition get_months : Store -> Reply * Store :=
  try_catch
    (await months <- query Client.monthlyData_findMany_desc;
     ret (reply_json (PMonths months)))
    (fun _ => reply_error 500 "Failed to fetch months").

(** [router.delete("/:month", ..)] *)
Definition delete_month (month : string) : Store -> Reply * Store :=
  try_catch
    (await _ <- Client.monthlyData_delete month;
     ret (reply_json PSuccess))
    (fun _ => reply_error 500 "Failed to delete month").

(** [req.body] of the income routes *)
Record IncomeBody := { body_name : option string; body_expected : option Q;
                       body_actual : option Q }.

(** [name || "New Income"] *)
Definition name_or_default (n : option string) : string :=
  if JS.truthy n then JS.String_ n else "New Income".

(** [new Decimal(v || 0)]: a [v] that is [undefined], or the [NaN] that
    [Object.prototype] may hold for [actual], gives [0]. *)
Definition decimal_or_zero (v : option Q) : Q :=
  match v with
  | Some q => JS.or_number q 0
  | None => 0
  end.

(** [router.post("/:month/income", ..)] *)
Definition post_income (month : string) (body : IncomeBody)
  : Db -> Reply * Db :=
  try_catch
    (await monthlyData <-
       query (fun d => Prisma.monthlyData_findUnique month (tables d));
     match monthlyData with
     | None => ret (reply_error 404 "Month not found")
     | Some found =>
         await income <-
           Client.incomeSource_create (MonthlyData.id found)
             (name_or_default (body_name body))
             (decimal_or_zero (body_expected body))
             (decimal_or_zero (body_actual body));
         ret (reply_json (PIncome income))
     end)
    (fun _ => reply_error 500 "Failed to add income").

(** [if (f !== undefined) updateData.f = ..] for each field the handler
    reads off the body.  [polluted] tells whether [Object.prototype] holds
    the members [budgeted] and [actual]; it never holds the other names. *)
Definition income_updateData (polluted : bool) (body : IncomeBody)
  : Client.IncomeData :=
  {| Client.inc_name := body_name body;
     Client.inc_expected := JS.read_amount false (body_expected body);
     Client.inc_actual := JS.read_amount polluted (body_actual body) |}.

Definition expense_updateData (polluted : bool) (body : Monthly.ExpenseBody)
  : Client.ExpenseData :=
  {| Client.exp_name := Monthly.body_name body;
     Client.exp_budgeted := JS.read_amount polluted (Monthly.body_budgeted body);
     Client.exp_actual := JS.read_amount polluted (Monthly.body_actual body);
     Client.exp_isPaid := Monthly.body_isPaid body;
     Client.exp_showPaidStatus := Monthly.body_showPaidStatus body |}.

Section Routes.
(** [parseInt] is taken as given: [None] stands for [NaN]. *)
Variable parseInt : string -> option Z.
(** Whether [Object.prototype] holds [budgeted] and [actual] when the
    request arrives. *)
Variable polluted : bool.

(** [router.patch("/income/:id", ..)] *)
Definition patch_income (id : string) (body : IncomeBody)
  : Store -> Reply * Store :=
  try_catch
    (await income <-
       Client.incomeSource_update (parseInt id)
                                  (income_updateData polluted body);
     ret (reply_json (PIncome income)))
    (fun _ => reply_error 500 "Failed to update income").

(** [router.delete("/income/:id", ..)] *)
Definition delete_income (id : string) : Store -> Reply * Store :=
  try_catch
    (await _ <- Client.incomeSource_delete (parseInt id);
     ret (reply_json PSuccess))
    (fun _ => reply_error 500 "Failed to delete income").

(** [router.patch("/expense/:id", ..)] *)
Definition patch_expense (id : string) (body : Monthly.ExpenseBody)
  : Store -> Reply * Store :=
  try_catch
    (await expense <-
       Client.expenseCategory_update (parseInt id)
                                     (expense_updateData polluted body);
     ret (reply_json (PJson (JExpense expense))))
    (fun _ => reply_error 500 "Failed to update expense").

(** [router.delete("/expense/:id", ..)] *)
Definition delete_expense (id : string) : Store -> Reply * Store :=
  try_catch
    (await _ <- Client.expenseCategory_delete (parseInt id);
     ret (reply_json PSuccess))
    (fun _ => reply_error 500 "Failed to delete expense").
End Routes.

End Ledger.

(** ** The list of years ([routes/yearly.ts]) *)

Module Years.

(** [set.add(x)]: a value already in the set keeps its place. *)
Definition Set_add (acc : list string) (x : string) : list string :=
  if existsb (String.eqb x) acc then acc else acc ++ [x].

(** [[...new Set(l)]]: the values in the order of their first occurrence. *)
Definition Set_of (l : list string) : list string := fold_left Set_add l [].

(** [m.month.substring(0, 4)] *)
Definition year_of (m : MonthlyData.t) : string :=
  String.substring 0 4 (MonthlyData.month m).

(** [router.get("/", ..)] *)
Definition get_years : Store -> Reply * Store :=
  try_catch
    (await months <- query Client.monthlyData_findMany_desc;
     ret (reply_json (PYears (Set_of (map year_of months)))))
    (fun _ => reply_error 500 "Failed to fetch years").

End Years.

(** ** Session routes and the login gate ([routes/auth.ts],
       [middleware/auth.ts]) *)

Module Session.

(** [requireAuth]: [None] stands for the call of [next()]. *)
Definition requireAuth (s : Auth.Session) : option Reply :=
  match Auth.logged_in s with
  | Some _ => None
  | None => Some (reply_error 401 "Authentication required")
  end.

(** [router.get("/me", ..)] *)
Definition me (s : Auth.Session) : Reply :=
  match Auth.logged_in s with
  | Some _ => reply_json (PMe true (Auth.username s))
  | None => reply_json (PMe false None)
  end.

(** The session a request finds after [req.session.destroy]. *)
Definition destroyed : Auth.Session :=
  {| Auth.userId := None; Auth.username := None |}.

(** [router.post("/logout", ..)].  The session store is the default memory
    store of [index.ts], whose [destroy] reports no error. *)
Definition logout (s : Auth.Session) : Reply * Auth.Session :=
  (reply_json PSuccess, destroyed).

End Session.

(** ** The application ([index.ts]) *)

Module App.

(** What the process keeps between requests: the data, the session of the
    one client, and whether [Object.prototype] has acquired the members
    [budgeted] and [actual]. *)
Record State := { data : Db; session : Auth.Session; polluted : bool }.

(** The requests the routers above answer. *)
Inductive Request :=
| POST_auth_login (body : Auth.LoginBody)
| POST_auth_logout
| GET_auth_me
| POST_auth_change_credentials (body : Auth.CredentialsBody)
| GET_monthly
| GET_monthly_month (month : string)
| DELETE_monthly_month (month : string)
| POST_monthly_income (month : string) (body : Ledger.IncomeBody)
| PATCH_monthly_income (id : string) (body : Ledger.IncomeBody)
| DELETE_monthly_income (id : string)
| POST_monthly_expense (month : string) (body : Monthly.ExpenseBody)
| PATCH_monthly_expense (id : string) (body : Monthly.ExpenseBody)
| DELETE_monthly_expense (id : string)
| GET_yearly
| GET_yearly_year (year : string).

(** The routers mounted behind [requireAuth]. *)
Definition protected (r : Request) : bool :=
  match r with
  | POST_auth_login _ | POST_auth_logout | GET_auth_me
  | POST_auth_change_credentials _ => false
  | _ => true
  end.

(** A handler over the store, run on the application state. *)
Definition on_store (h : Store -> Reply * Store) (st : State) : Reply * State :=
  let (r, db') := h (tables (data st)) in
  (r, {| data := {| tables := db';
                    incomeSource_seq := incomeSource_seq (data st) |};
         session := session st;
         polluted := polluted st |}).

Definition on_data (h : Db -> Reply * Db) (st : State) : Reply * State :=
  let (r, d') := h (data st) in
  (r, {| data := d'; session := session st; polluted := polluted st |}).

(** A handler of the auth router, run on the application state. *)
Definition on_world (h : Auth.World -> Response * Auth.World) (st : State)
  : Reply * State :=
  let (r, w') := h {| Auth.db := tables (data st); Auth.session := session st |} in
  (reply_of r,
   {| data := {| tables := Auth.db w';
                 incomeSource_seq := incomeSource_seq (data st) |};
      session := Auth.session w';
      polluted := polluted st |}).

Definition retype (h : Store -> Response * Store) (db : Store) : Reply * Store :=
  let (r, db') := h db in (reply_of r, db').

Section Server.
Variable bcrypt_compare : string -> string -> bool.
Variable bcrypt_hash : string -> Z -> string.
Variable parseInt : string -> option Z.

(** The handler a request reaches once it is let through. *)
Definition route (r : Request) : State -> Reply * State :=
  match r with
  | POST_auth_login body => on_world (Auth.login bcrypt_compare body)
  | POST_auth_logout =>
      fun st => let (rep, s') := Session.logout (session st) in
                (rep, {| data := data st; session := s';
                         polluted := polluted st |})
  | GET_auth_me => fun st => (Session.me (session st), st)
  | POST_auth_change_credentials body =>
      on_world (Auth.change_credentials bcrypt_compare bcrypt_hash body)
  | GET_monthly => on_store Ledger.get_months
  | GET_monthly_month month => on_store (retype (Monthly.get_month month))
  | DELETE_monthly_month month => on_store (Ledger.delete_month month)
  | POST_monthly_income month body => on_data (Ledger.post_income month body)
  | PATCH_monthly_income id body =>
      fun st => on_store (Ledger.patch_income parseInt (polluted st) id body) st
  | DELETE_monthly_income id => on_store (Ledger.delete_income parseInt id)
  | POST_monthly_expense month body =>
      on_store (retype (Monthly.post_expense month body))
  | PATCH_monthly_expense id body =>
      fun st => on_store (Ledger.patch_expense parseInt (polluted st) id body) st
  | DELETE_monthly_expense id => on_store (Ledger.delete_expense parseInt id)
  | GET_yearly => on_store Years.get_years
  | GET_yearly_year year =>
      fun st =>
        let (rep, st') := on_store (retype (Yearly.get_year year)) st in
        (rep, {| data := data st'; session := session st';
                 polluted :=
                   Yearly.get_year_prototype year (tables (data st))
                                             (polluted st) |})
  end.

(** [app.use("/api/auth", authRoutes)] and
    [app.use("/api/..", requireAuth, ..Routes)] *)
Definition handle (r : Request) (st : State) : Reply * State :=
  if protected r
  then match Session.requireAuth (session st) with
       | Some rejected => (rejected, st)
       | None => route r st
       end
  else route r st.

(** A sequence of requests, answered one after the other. *)
Fixpoint serve (rs : list Request) (st : State) : list Reply * State :=
  match rs with
  | [] => ([], st)
  | r :: rs' =>
      let (rep, st1) := handle r st in
      let (reps, st2) := serve rs' st1 in
      (rep :: reps, st2)
  end.
End Server.

End App.

(** ** Further vocabulary *)

(** Ids of expense rows come from their sequence. *)
Definition expense_ids_ok (db : Store) : Prop :=
  forall e, In e (expenseCategories db) ->
            (ExpenseCategory.id e < expenseCategory_seq db)%Z.

(** Ids of income rows come from their sequence. *)
Definition income_ids_ok (d : Db) : Prop :=
  forall i, In i (incomeSources (tables d)) ->
            (IncomeSource.id i < incomeSource_seq d)%Z.

(** Month keys in descending order. *)
Definition descending_months (l : list string) : Prop :=
  StronglySorted (fun a b => String.leb b a = true) l.

(** Two stores hold the same rows (the sequences may differ). *)
Definition same_rows (a b : Store) : Prop :=
  users a = users b /\ monthlyData a = monthlyData b
  /\ incomeSources a = incomeSources b
  /\ expenseCategories a = expenseCategories b.

(** The store after the first read of an absent key. *)
Definition created_store (db : Store) (key : string) : Store :=
  let cats :=
    Monthly.categoriesToClone (Prisma.monthlyData_findFirst_lt_desc key db) in
  {| users := users db;
     monthlyData :=
       monthlyData db
       ++ [{| MonthlyData.id := monthlyData_seq db; MonthlyData.month := key |}];
     incomeSources := incomeSources db;
     expenseCategories :=
       expenseCategories db
       ++ Prisma.new_categories (expenseCategory_seq db) (monthlyData_seq db)
                                cats;
     monthlyData_seq := (monthlyData_seq db + 1)%Z;
     expenseCategory_seq :=
       (expenseCategory_seq db + Z.of_nat (List.length cats))%Z |}.

(** The month a first read of an absent key returns. *)
Definition created_month (db : Store) (key : string) : MonthlyDataFull.t :=
  {| MonthlyDataFull.id := monthlyData_seq db;
     MonthlyDataFull.month := key;
     MonthlyDataFull.incomeSources := [];
     MonthlyDataFull.expenseCategories :=
       Prisma.new_categories
         (expenseCategory_seq db) (monthlyData_seq db)
         (Monthly.categoriesToClone
            (Prisma.monthlyData_findFirst_lt_desc key db)) |}.

(** The totals an object of category totals holds for a name
    ([0] for a name it does not hold). *)
Definition entry_of (o : JS.Obj (Q * Q)) (k : string) : Q * Q :=
  match JS.own o k with Some v => v | None => (0, 0) end.

(** The expense rows of a given name. *)
Definition rows_named (k : string) (rows : list ExpenseCategory.t)
  : list ExpenseCategory.t :=
  filter (fun e => String.eqb (ExpenseCategory.name e) k) rows.

(** The [updateData] a credential change builds from its body. *)
Definition credentials_update (bcrypt_hash : string -> Z -> string)
  (body : Auth.CredentialsBody) : Auth.UpdateData :=
  {| Auth.new_username :=
       if JS.truthy (Auth.newUsername body)
       then Some (JS.String_ (Auth.newUsername body)) else None;
     Auth.new_password :=
       if JS.value_truthy (Auth.newPassword body)
       then Some (bcrypt_hash (JS.value_String (Auth.newPassword body))
                              Auth.SALT_ROUNDS)
       else None |}.

(** The store after the row [u] took an update. *)
Definition updated_users (db : Store) (u : User.t) (data : Auth.UpdateData)
  : Store :=
  {| users := filter (fun v => negb (Z.eqb (User.id v) (User.id u))) (users db)
              ++ [Auth.apply_update data u];
     monthlyData := monthlyData db;
     incomeSources := incomeSources db;
     expenseCategories := expenseCategories db;
     monthlyData_seq := monthlyData_seq db;
     expenseCategory_seq := expenseCategory_seq db |}.

Module Sample2.

(** A [parseInt] for the examples: plain decimal digits. *)
Definition parseInt (s : string) : option Z :=
  match s with
  | EmptyString => None
  | _ => option_map Z.of_N (JS.digits_value s 0)
  end.

Definition state (db : Store) (s : Auth.Session) : App.State :=
  {| App.data := {| tables := db; incomeSource_seq := 10 |};
     App.session := s;
     App.polluted := false |}.

(** January 2025 with a category that bears the name of a member of every
    object. *)
Definition inherited_name : Store :=
  {| users := [];
     monthlyData := [Sample.month 1 "2025-01"];
     incomeSources := [Sample.income 1 "Salary" 100 50 1];
     expenseCategories :=
       [Sample.expense 1 "Rent" 1200 1200 true true 1;
        Sample.expense 2 "__proto__" 10 5 false false 1];
     monthlyData_seq := 2;
     expenseCategory_seq := 3 |}.

End Sample2.

(** * Properties *)

Unset Implicit Arguments.

(** ** Numbers and strings *)

Lemma gt_iff (a b : Q) : JS.gt a b = true <-> b < a.
Proof.
  unfold JS.gt. rewrite negb_true_iff. split; intro H.
  - apply Qnot_le_lt. intro Hle. apply Qle_bool_iff in Hle. congruence.
  - destruct (Qle_bool a b) eqn:E; [|reflexivity].
    apply Qle_bool_iff in E. lra.
Qed.

Lemma gt_false_iff (a b : Q) : JS.gt a b = false <-> a <= b.
Proof.
  unfold JS.gt. rewrite negb_false_iff. apply Qle_bool_iff.
Qed.

Lemma Math_max_is_Qmax (a b : Q) : JS.Math_max a b == Qmax a b.
Proof.
  unfold JS.Math_max. destruct (Qle_bool a b) eqn:E.
  - apply Qle_bool_iff in E. symmetry. apply Q.max_r. exact E.
  - symmetry. apply Q.max_l.
    destruct (Qlt_le_dec b a) as [H|H]; [lra|].
    apply Qle_bool_iff in H. congruence.
Qed.

Lemma ltb_lt (a b : string) : String.ltb a b = true <-> String_as_OT.lt a b.
Proof.
  unfold String.ltb. rewrite <- String_as_OT.cmp_lt. unfold String_as_OT.cmp.
  destruct (String.compare a b); split; congruence.
Qed.

Lemma leb_iff (a b : string) :
  String.leb a b = true <-> String.ltb a b = true \/ a = b.
Proof.
  unfold String.leb, String.ltb. destruct (String.compare a b) eqn:E.
  - apply String.compare_eq_iff in E. split; auto.
  - split; auto.
  - split; [discriminate|]. intros [H|H]; [discriminate|].
    subst. assert (Hr : String.ltb b b = true).
    { unfold String.ltb. rewrite String.compare_antisym in E.
      destruct (String.compare b b); simpl in E; congruence. }
    apply ltb_lt in Hr. exfalso. eapply String_as_OT.lt_not_eq; eauto.
    reflexivity.
Qed.

Lemma leb_refl (a : string) : String.leb a a = true.
Proof. apply leb_iff. now right. Qed.

Lemma leb_trans (a b c : string) :
  String.leb a b = true -> String.leb b c = true -> String.leb a c = true.
Proof.
  rewrite !leb_iff, !ltb_lt. intros [H1|H1] [H2|H2]; subst; auto.
  left. eapply String_as_OT.lt_trans; eauto.
Qed.

Lemma ltb_false_leb (a b : string) :
  String.ltb a b = false -> String.leb b a = true.
Proof.
  unfold String.ltb, String.leb. rewrite (String.compare_antisym b a).
  destruct (String.compare a b); simpl; congruence.
Qed.

Lemma ltb_leb (a b : string) : String.ltb a b = true -> String.leb a b = true.
Proof. intro H. apply leb_iff. now left. Qed.

(** ** The [DECIMAL(10,2)] columns *)

Lemma DECIMAL_10_2_zero : Schema.DECIMAL_10_2 0 = Some 0.
Proof. reflexivity. Qed.

(** An amount in whole cents is its own rounding. *)
Lemma cents_exact (c : Z) : Schema.cents (c # 100) = c.
Proof.
  unfold Schema.cents. cbn [Qnum Qden].
  replace (2 * Z.abs (c * 100) + 100)%Z
    with (Z.abs c * (2 * 100) + 100)%Z by lia.
  rewrite Z.div_add_l by lia.
  change (100 / (2 * 100))%Z with 0%Z.
  destruct c; simpl; lia.
Qed.

Lemma DECIMAL_10_2_exact (c : Z) :
  (Z.abs c < 10000000000)%Z ->
  Schema.DECIMAL_10_2 (c # 100) = Some (Qred (c # 100)).
Proof.
  intro H. unfold Schema.DECIMAL_10_2. cbv zeta. rewrite cents_exact.
  apply Z.ltb_lt in H. now rewrite H.
Qed.

(** The rounding is to the nearest cent. *)
Lemma cents_near (q : Q) :
  (Z.abs (2 * (Qnum q * 100) - 2 * Zpos (Qden q) * Schema.cents q)
   <= Zpos (Qden q))%Z.
Proof.
  unfold Schema.cents. set (n := (Qnum q * 100)%Z). set (d := Zpos (Qden q)).
  assert (Hd : (0 < d)%Z) by (unfold d; lia).
  pose proof (Z.div_mod (2 * Z.abs n + d) (2 * d) ltac:(lia)) as Hdm.
  pose proof (Z.mod_pos_bound (2 * Z.abs n + d) (2 * d) ltac:(lia)) as Hm.
  set (k := ((2 * Z.abs n + d) / (2 * d))%Z) in *.
  destruct (Z.sgn_spec n) as [(Hn & ->)|[(Hn & ->)|(Hn & ->)]]; lia.
Qed.

(** What a column stores: a number of cents below [10^10], within half a
    cent of the number written. *)
Lemma DECIMAL_10_2_spec (q b : Q) :
  Schema.DECIMAL_10_2 q = Some b ->
  b = Qred (Schema.cents q # 100)
  /\ (Z.abs (Schema.cents q) < 10000000000)%Z
  /\ Qabs (b - q) <= 1 # 200.
Proof.
  unfold Schema.DECIMAL_10_2. cbv zeta.
  destruct (Z.abs (Schema.cents q) <? 10000000000)%Z eqn:E; [|discriminate].
  intros [= <-]. apply Z.ltb_lt in E. split; [reflexivity|]. split; [exact E|].
  assert (Heq : Qabs (Qred (Schema.cents q # 100) - q)
                == Qabs ((Schema.cents q # 100) - q)).
  { apply Qabs_wd. apply Qplus_comp; [apply Qred_correct|reflexivity]. }
  rewrite Heq. apply Qabs_Qle_condition.
  pose proof (cents_near q) as H. revert H.
  generalize (Schema.cents q). intros c H.
  destruct q as [n d]. cbn [Qnum Qden] in H.
  unfold Qle, Qminus, Qplus, Qopp. cbn [Qnum Qden]. split; lia.
Qed.

(** A rejected write is an amount of [10^8] or more, up to half a cent. *)
Lemma DECIMAL_10_2_overflow (q : Q) :
  Schema.DECIMAL_10_2 q = None <->
  (10000000000 <= Z.abs (Schema.cents q))%Z.
Proof.
  unfold Schema.DECIMAL_10_2. cbv zeta.
  destruct (Z.abs (Schema.cents q) <? 10000000000)%Z eqn:E.
  - apply Z.ltb_lt in E. split; [discriminate|lia].
  - apply Z.ltb_ge in E. tauto.
Qed.

(** ** The stable sort *)

Section SortFacts.
Variable A : Type.
Variable after : A -> A -> bool.

Lemma stable_insert_In (x y : A) (l : list A) :
  In y (JS.stable_insert after x l) <-> y = x \/ In y l.
Proof.
  induction l as [|z l IH]; simpl.
  - intuition.
  - destruct (after x z); simpl; rewrite ?IH; intuition.
Qed.

Lemma stable_sort_In (y : A) (l : list A) :
  In y (JS.stable_sort after l) <-> In y l.
Proof.
  induction l as [|x l IH]; simpl; [tauto|].
  rewrite stable_insert_In, IH. intuition.
Qed.

Lemma stable_sort_nil (l : list A) : JS.stable_sort after l = [] -> l = [].
Proof.
  destruct l as [|x l]; [reflexivity|]. simpl. intro H.
  assert (Hin : In x (JS.stable_insert after x (JS.stable_sort after l)))
    by (apply stable_insert_In; now left).
  rewrite H in Hin. destruct Hin.
Qed.

Lemma hd_stable_insert (x : A) (l : list A) :
  hd_error (JS.stable_insert after x l) =
  match l with
  | [] => Some x
  | y :: _ => if after x y then Some y else Some x
  end.
Proof. destruct l as [|y l]; simpl; [|destruct (after x y)]; reflexivity. Qed.

Lemma last_cons_default (l : list A) (z y : A) : last (z :: l) y = last l z.
Proof.
  revert z y. induction l as [|a l IH]; intros z y; [reflexivity|].
  change (last (z :: a :: l) y) with (last (a :: l) y).
  now rewrite (IH a y), (IH a z).
Qed.

Lemma last_or_null_cons (y : A) (l : list A) :
  JS.last_or_null (y :: l) =
  match JS.last_or_null l with Some z => Some z | None => Some y end.
Proof.
  destruct l as [|z l]; [reflexivity|].
  unfold JS.last_or_null. now rewrite last_cons_default.
Qed.

Lemma last_stable_insert (x : A) (l : list A) :
  JS.last_or_null (JS.stable_insert after x l) =
  if forallb (after x) l then Some x else JS.last_or_null l.
Proof.
  induction l as [|y l IH]; [reflexivity|].
  cbn [JS.stable_insert forallb]. destruct (after x y); cbn [andb].
  - rewrite last_or_null_cons, IH.
    destruct (forallb (after x) l).
    + reflexivity.
    + rewrite (last_or_null_cons y l).
      destruct (JS.last_or_null l) eqn:E; [reflexivity|].
      destruct l; [discriminate|discriminate].
  - rewrite (last_or_null_cons x (y :: l)).
    destruct (JS.last_or_null (y :: l)) eqn:E; [reflexivity|discriminate].
Qed.

(** The result is ordered by any transitive relation the comparison
    decides. *)
Variable R : A -> A -> Prop.
Hypothesis R_trans : forall a b c, R a b -> R b c -> R a c.
Hypothesis after_true : forall a b, after a b = true -> R b a.
Hypothesis after_false : forall a b, after a b = false -> R a b.

Lemma stable_insert_sorted (x : A) (l : list A) :
  StronglySorted R l -> StronglySorted R (JS.stable_insert after x l).
Proof.
  induction 1 as [|y l Hs IH Hall]; simpl.
  - constructor; constructor.
  - destruct (after x y) eqn:E.
    + constructor; [exact IH|].
      apply Forall_forall. intros z Hz. apply stable_insert_In in Hz.
      destruct Hz as [->|Hz]; [now apply after_true|].
      rewrite Forall_forall in Hall. now apply Hall.
    + constructor; [now constructor|].
      constructor; [now apply after_false|].
      rewrite Forall_forall in *. intros z Hz.
      eapply R_trans; [apply after_false; exact E | now apply Hall].
Qed.

Lemma stable_sort_sorted (l : list A) : StronglySorted R (JS.stable_sort after l).
Proof.
  induction l as [|x l IH]; simpl; [constructor|].
  now apply stable_insert_sorted.
Qed.
End SortFacts.

Lemma forallb_false_ex (A : Type) (p : A -> bool) (l : list A) :
  forallb p l = false -> exists y, In y l /\ p y = false.
Proof.
  induction l as [|x l IH]; simpl; [discriminate|].
  destruct (p x) eqn:E; simpl.
  - intro H. destruct (IH H) as (y & Hy & Hp). exists y. auto.
  - intros _. exists x. auto.
Qed.

(** Sorting in descending order of a key, as the three [sort] calls of the
    yearly route do. *)
Section Descending.
Variable A : Type.
Variable f : A -> Q.

Let by_key (l : list A) : list A := JS.Array_sort (fun a b => f b - f a) l.

Lemma after_key (a b : A) : JS.gt (f b - f a) 0 = true <-> f a < f b.
Proof. rewrite gt_iff. split; intro; lra. Qed.

Lemma after_key_false (a b : A) : JS.gt (f b - f a) 0 = false <-> f b <= f a.
Proof. rewrite gt_false_iff. split; intro; lra. Qed.

Lemma sort_first_is_first_max (l : list A) :
  first_max_of f l (JS.first_or_null (by_key l)).
Proof.
  unfold by_key, JS.Array_sort, JS.first_or_null.
  induction l as [|x l IH]; [reflexivity|].
  cbn [JS.stable_sort fold_right]. fold (JS.stable_sort (fun a b => JS.gt (f b - f a) 0) l) in *.
  rewrite hd_stable_insert.
  destruct (JS.stable_sort (fun a b => JS.gt (f b - f a) 0) l) as [|y S] eqn:E.
  - simpl in IH. subst l. exists [], []. simpl. intuition.
  - simpl in IH. destruct IH as (l1 & l2 & Hl & H1 & H2).
    destruct (JS.gt (f y - f x) 0) eqn:G.
    + apply after_key in G. exists (x :: l1), l2. subst l. simpl.
      split; [reflexivity|]. split; [|exact H2].
      intros z [<-|Hz]; auto.
    + apply after_key_false in G. exists [], l. simpl.
      split; [reflexivity|]. split; [intros z []|].
      intros z Hz. subst l. apply in_app_or in Hz.
      destruct Hz as [Hz|[<-|Hz]].
      * specialize (H1 z Hz). lra.
      * exact G.
      * specialize (H2 z Hz). lra.
Qed.

Lemma sort_last_is_last_min (l : list A) :
  last_min_of f l (JS.last_or_null (by_key l)).
Proof.
  unfold by_key, JS.Array_sort.
  induction l as [|x l IH]; [reflexivity|].
  cbn [JS.stable_sort fold_right]. fold (JS.stable_sort (fun a b => JS.gt (f b - f a) 0) l) in *.
  rewrite last_stable_insert.
  set (S := JS.stable_sort (fun a b => JS.gt (f b - f a) 0) l) in *.
  destruct (forallb (fun b => JS.gt (f b - f x) 0) S) eqn:F.
  - exists [], l. simpl. split; [reflexivity|]. split; [intros z []|].
    intros z Hz. rewrite forallb_forall in F.
    apply after_key, F. unfold S. now apply stable_sort_In.
  - assert (Hex : exists y, In y l /\ f y <= f x).
    { destruct (forallb_false_ex _ _ _ F) as (y & Hin & G).
      exists y. split; [unfold S in Hin; now apply stable_sort_In in Hin|].
      now apply after_key_false. }
    destruct Hex as (y & Hy & Hle).
    destruct (JS.last_or_null S) as [w|] eqn:E.
    + simpl in IH. destruct IH as (l1 & l2 & Hl & H1 & H2).
      exists (x :: l1), l2. subst l. simpl. split; [reflexivity|].
      split; [|exact H2].
      assert (Hw : f w <= f y).
      { apply in_app_or in Hy. destruct Hy as [Hy|[<-|Hy]].
        - now apply H1.
        - lra.
        - specialize (H2 y Hy). lra. }
      intros z [<-|Hz]; [lra|now apply H1].
    + simpl in IH. subst l. destruct Hy.
Qed.

Lemma sort_is_descending (l : list A) : descending f (by_key l).
Proof.
  unfold by_key, JS.Array_sort, descending.
  apply stable_sort_sorted.
  - intros a b c H1 H2. lra.
  - intros a b H. apply after_key in H. lra.
  - intros a b H. now apply after_key_false in H.
Qed.
End Descending.

(** ** Yearly aggregation *)

(** A well-formed year always gets its summary, and the store is only read. *)
Lemma get_year_ok (year : string) (db : Store) :
  JS.test JS.year_re year = true ->
  Yearly.get_year year db =
  (res_json (JSummary (Yearly.summarize year
                         (Prisma.monthlyData_findMany_startsWith_asc year db))),
   db).
Proof. intro H. unfold Yearly.get_year. rewrite H. reflexivity. Qed.

(** What the loop over the months leaves in its variables. *)
Lemma loop_invariant (months : list MonthlyDataFull.t) (acc : Yearly.Acc) :
  let items := map Yearly.item_of months in
  let r := fold_left Yearly.step months acc in
  Yearly.totalExpectedIncome r =
    fold_left Qplus (map Item.expectedIncome items) (Yearly.totalExpectedIncome acc)
  /\ Yearly.totalActualIncome r =
    fold_left Qplus (map Item.actualIncome items) (Yearly.totalActualIncome acc)
  /\ Yearly.totalBudgeted r =
    fold_left Qplus (map Item.budgeted items) (Yearly.totalBudgeted acc)
  /\ Yearly.totalActualExpenses r =
    fold_left Qplus (map Item.actualExpenses items) (Yearly.totalActualExpenses acc)
  /\ Yearly.monthlyBreakdown r = Yearly.monthlyBreakdown acc ++ items.
Proof.
  revert acc. induction months as [|m months IH]; intro acc; simpl.
  - now rewrite app_nil_r.
  - destruct (IH (Yearly.step acc m)) as (H1 & H2 & H3 & H4 & H5).
    rewrite H1, H2, H3, H4, H5. simpl. rewrite <- app_assoc. simpl. auto.
Qed.

Lemma summarize_breakdown (year : string) (months : list MonthlyDataFull.t) :
  Summary.monthlyBreakdown (Yearly.summarize year months) =
  map Yearly.item_of months.
Proof.
  unfold Yearly.summarize. simpl.
  now destruct (loop_invariant months Yearly.init) as (_ & _ & _ & _ & ->).
Qed.

Lemma summarize_totals (year : string) (months : list MonthlyDataFull.t) :
  let s := Yearly.summarize year months in
  let items := Summary.monthlyBreakdown s in
  Totals.expectedIncome (Summary.totals s) = sum (map Item.expectedIncome items)
  /\ Totals.actualIncome (Summary.totals s) = sum (map Item.actualIncome items)
  /\ Totals.budgeted (Summary.totals s) = sum (map Item.budgeted items)
  /\ Totals.actualExpenses (Summary.totals s) =
     sum (map Item.actualExpenses items).
Proof.
  cbv zeta. rewrite summarize_breakdown. unfold Yearly.summarize, sum. simpl.
  destruct (loop_invariant months Yearly.init) as (H1 & H2 & H3 & H4 & _).
  rewrite H1, H2, H3, H4. simpl. auto.
Qed.

Lemma summarize_effective (year : string) (months : list MonthlyDataFull.t) :
  let s := Yearly.summarize year months in
  Totals.effectiveIncome (Summary.totals s) =
  JS.Math_max (Totals.expectedIncome (Summary.totals s))
              (Totals.actualIncome (Summary.totals s)).
Proof. reflexivity. Qed.

(** A [reduce] over rows adds up the mapped amounts. *)
Lemma reduce_sum_is_sum (A : Type) (f : A -> Q) (l : list A) :
  Yearly.reduce_sum f l = sum (map f l).
Proof.
  unfold Yearly.reduce_sum, sum. generalize 0.
  induction l as [|x l IH]; intro a; simpl; [reflexivity|apply IH].
Qed.

(** The per-month figures of the breakdown. *)
Lemma item_of_figures (m : MonthlyDataFull.t) :
  Item.month (Yearly.item_of m) = MonthlyDataFull.month m
  /\ Item.expectedIncome (Yearly.item_of m) =
     sum (map IncomeSource.expected (MonthlyDataFull.incomeSources m))
  /\ Item.actualIncome (Yearly.item_of m) =
     sum (map IncomeSource.actual (MonthlyDataFull.incomeSources m))
  /\ Item.budgeted (Yearly.item_of m) =
     sum (map ExpenseCategory.budgeted (MonthlyDataFull.expenseCategories m))
  /\ Item.actualExpenses (Yearly.item_of m) =
     sum (map ExpenseCategory.actual (MonthlyDataFull.expenseCategories m))
  /\ Item.effectiveIncome (Yearly.item_of m) ==
     Qmax (Item.expectedIncome (Yearly.item_of m))
          (Item.actualIncome (Yearly.item_of m))
  /\ Item.savings (Yearly.item_of m) =
     Item.effectiveIncome (Yearly.item_of m)
     - Item.actualExpenses (Yearly.item_of m).
Proof.
  unfold Yearly.item_of. cbn. rewrite !reduce_sum_is_sum.
  repeat split; try reflexivity. apply Math_max_is_Qmax.
Qed.

(** C1. For every store and well-formed year, the summary's total
    effectiveIncome is the maximum of the summed expected income and the
    summed actual income of the months of that year (the per-month figures
    being the sums over the month's income rows); and there is a year in
    which this differs from the sum of the months' own effective incomes. *)
Theorem yearly_effective_income_is_max_of_sums :
  (forall (db : Store) (year : string),
      JS.test JS.year_re year = true ->
      exists s,
        Yearly.get_year year db = (res_json (JSummary s), db)
        /\ Summary.monthlyBreakdown s =
           map Yearly.item_of
               (Prisma.monthlyData_findMany_startsWith_asc year db)
        /\ Totals.effectiveIncome (Summary.totals s) ==
           Qmax (sum (map Item.expectedIncome (Summary.monthlyBreakdown s)))
                (sum (map Item.actualIncome (Summary.monthlyBreakdown s))))
  /\ (exists s,
        Yearly.get_year "2025" Sample.ledger =
          (res_json (JSummary s), Sample.ledger)
        /\ ~ Totals.effectiveIncome (Summary.totals s) ==
             sum (map Item.effectiveIncome (Summary.monthlyBreakdown s))).
Proof.
  split.
  - intros db year Hy. eexists. split; [now apply get_year_ok|].
    split; [apply summarize_breakdown|].
    rewrite summarize_effective.
    destruct (summarize_totals year
                (Prisma.monthlyData_findMany_startsWith_asc year db))
      as (H1 & H2 & _).
    cbv zeta in H1, H2. rewrite H1, H2. apply Math_max_is_Qmax.
  - eexists. split; [now apply get_year_ok|].
    vm_compute. discriminate.
Qed.

Lemma yearly_effective_income_is_max_of_sums_witness :
  JS.test JS.year_re "2025" = true
  /\ exists s,
      Yearly.get_year "2025" Sample.ledger =
        (res_json (JSummary s), Sample.ledger)
      /\ Totals.effectiveIncome (Summary.totals s) == 150.
Proof.
  split; [reflexivity|].
  destruct (proj1 yearly_effective_income_is_max_of_sums Sample.ledger "2025"
              eq_refl) as (s & Hs & Hb & He).
  exists s. split; [exact Hs|].
  rewrite He, Hb. vm_compute. reflexivity.
Defined.

(** The rate is the handler's own expression: the quotient first, then the
    product, behind the test [totalEffectiveIncome > 0]. *)
Lemma summarize_rate (year : string) (months : list MonthlyDataFull.t) :
  let s := Yearly.summarize year months in
  let t := Summary.totals s in
  Totals.savings t = Totals.effectiveIncome t - Totals.actualExpenses t
  /\ (0 < Totals.effectiveIncome t ->
      Summary.savingsRate s =
      Totals.savings t / Totals.effectiveIncome t * 100)
  /\ (Totals.effectiveIncome t <= 0 -> Summary.savingsRate s = 0).
Proof.
  cbv zeta. unfold Yearly.summarize. cbn [Summary.totals Summary.savingsRate
    Totals.savings Totals.effectiveIncome Totals.actualExpenses].
  set (acc := fold_left Yearly.step months Yearly.init).
  set (E := JS.Math_max (Yearly.totalExpectedIncome acc)
                        (Yearly.totalActualIncome acc)).
  split; [reflexivity|]. split; intro H.
  - assert (G : JS.gt E 0 = true) by now apply gt_iff.
    now rewrite G.
  - assert (G : JS.gt E 0 = false) by now apply gt_false_iff.
    now rewrite G.
Qed.

(** C4, as amended. For every store and well-formed year: totalSavings is
    totalEffectiveIncome minus totalActualExpenses; when
    totalEffectiveIncome is positive, savingsRate is
    (totalSavings / totalEffectiveIncome) x 100, the quotient taken first
    and then the product, each as the handler's numbers compute it; and
    savingsRate is exactly 0 when totalEffectiveIncome is 0 or negative,
    whatever the expenses. *)
Theorem yearly_savings_rate (db : Store) (year : string) :
  JS.test JS.year_re year = true ->
  exists s,
    Yearly.get_year year db = (res_json (JSummary s), db)
    /\ Totals.savings (Summary.totals s) =
       Totals.effectiveIncome (Summary.totals s)
       - Totals.actualExpenses (Summary.totals s)
    /\ (0 < Totals.effectiveIncome (Summary.totals s) ->
        Summary.savingsRate s =
        Totals.savings (Summary.totals s)
        / Totals.effectiveIncome (Summary.totals s) * 100)
    /\ (Totals.effectiveIncome (Summary.totals s) <= 0 ->
        Summary.savingsRate s = 0).
Proof.
  intro Hy. eexists. split; [now apply get_year_ok|]. apply summarize_rate.
Qed.

Lemma yearly_savings_rate_witness :
  JS.test JS.year_re "2025" = true
  /\ exists s,
      Yearly.get_year "2025" Sample.ledger =
        (res_json (JSummary s), Sample.ledger)
      /\ Totals.effectiveIncome (Summary.totals s) == 150
      /\ Totals.savings (Summary.totals s) == -1435
      /\ Summary.savingsRate s =
         Totals.savings (Summary.totals s)
         / Totals.effectiveIncome (Summary.totals s) * 100.
Proof.
  split; [reflexivity|].
  destruct (yearly_savings_rate Sample.ledger "2025" eq_refl)
    as (s & Hs & _ & Hrate & _).
  exists s. split; [exact Hs|].
  rewrite get_year_ok in Hs by reflexivity. injection Hs as Hs.
  assert (He : Totals.effectiveIncome (Summary.totals s) == 150)
    by (rewrite <- Hs; vm_compute; reflexivity).
  split; [exact He|]. split.
  - rewrite <- Hs. vm_compute. reflexivity.
  - apply Hrate. rewrite He. reflexivity.
Defined.

(** C4, the claim as stated fails where income rows hold negative amounts:
    total effective income is then negative, not 0, and the rate is 0 rather
    than 100 x savings / income, in whichever order that is computed. *)
Lemma savings_rate_negative_income_counterexample :
  exists s,
    Yearly.get_year "2025" Sample.refund = (res_json (JSummary s), Sample.refund)
    /\ ~ Totals.effectiveIncome (Summary.totals s) == 0
    /\ ~ Summary.savingsRate s ==
         100 * Totals.savings (Summary.totals s)
         / Totals.effectiveIncome (Summary.totals s)
    /\ ~ Summary.savingsRate s ==
         Totals.savings (Summary.totals s)
         / Totals.effectiveIncome (Summary.totals s) * 100.
Proof.
  eexists. split; [now apply get_year_ok|].
  repeat split; vm_compute; discriminate.
Qed.

Lemma fold_plus_nonneg (l : list Q) (a : Q) :
  0 <= a -> (forall x, In x l -> 0 <= x) -> 0 <= fold_left Qplus l a.
Proof.
  revert a. induction l as [|x l IH]; intros a Ha Hl; simpl; [exact Ha|].
  apply IH.
  - assert (0 <= x) by (apply Hl; now left). lra.
  - intros y Hy. apply Hl. now right.
Qed.

Lemma reduce_sum_nonneg (A : Type) (f : A -> Q) (l : list A) :
  (forall x, In x l -> 0 <= f x) -> 0 <= Yearly.reduce_sum f l.
Proof.
  unfold Yearly.reduce_sum. intro Hl.
  assert (H : forall a, 0 <= a -> 0 <= fold_left (fun sum x => sum + f x) l a).
  { induction l as [|x l IH]; intros a Ha; simpl; [exact Ha|].
    apply IH.
    - intros y Hy. apply Hl. now right.
    - assert (0 <= f x) by (apply Hl; now left). lra. }
  apply H. lra.
Qed.

(** Where no income row holds a negative amount, total effective income is not
    negative, and the rate is the handler's quotient whenever that income is
    not 0. *)
Lemma savings_rate_nonnegative_income (db : Store) (year : string) :
  JS.test JS.year_re year = true ->
  (forall i, In i (incomeSources db) ->
             0 <= IncomeSource.expected i /\ 0 <= IncomeSource.actual i) ->
  exists s,
    Yearly.get_year year db = (res_json (JSummary s), db)
    /\ 0 <= Totals.effectiveIncome (Summary.totals s)
    /\ (~ Totals.effectiveIncome (Summary.totals s) == 0 ->
        Summary.savingsRate s =
        Totals.savings (Summary.totals s)
        / Totals.effectiveIncome (Summary.totals s) * 100).
Proof.
  intros Hy Hpos. eexists. split; [now apply get_year_ok|].
  set (months := Prisma.monthlyData_findMany_startsWith_asc year db).
  assert (H0 : 0 <= Totals.effectiveIncome
                      (Summary.totals (Yearly.summarize year months))).
  { rewrite summarize_effective.
    destruct (summarize_totals year months) as (H1 & _). cbv zeta in H1.
    assert (He : 0 <= Totals.expectedIncome
                        (Summary.totals (Yearly.summarize year months))).
    { rewrite H1, summarize_breakdown. apply fold_plus_nonneg; [lra|].
      intros x Hx. rewrite map_map in Hx. apply in_map_iff in Hx.
      destruct Hx as (m & <- & Hm). simpl. apply reduce_sum_nonneg.
      intros i Hi. unfold months, Prisma.monthlyData_findMany_startsWith_asc in Hm.
      apply in_map_iff in Hm. destruct Hm as (r & <- & _).
      simpl in Hi. apply filter_In in Hi. now apply Hpos. }
    unfold JS.Math_max. destruct (Qle_bool _ _) eqn:E; [|exact He].
    apply Qle_bool_iff in E. lra. }
  split; [exact H0|]. intro Hne.
  destruct (summarize_rate year months) as (_ & Hr & _). apply Hr. lra.
Qed.

Lemma filter_none (A : Type) (p : A -> bool) (l : list A) :
  (forall x, In x l -> p x = false) -> filter p l = [].
Proof.
  induction l as [|x l IH]; intro H; simpl; [reflexivity|].
  rewrite (H x) by now left. apply IH. intros y Hy. apply H. now right.
Qed.

(** C9. For every well-formed year without a month in the store, the summary
    has monthCount 0, every total 0, savingsRate 0, every average 0 (the
    totals are divided by 1), empty breakdowns and four null highlights. *)
Theorem yearly_empty_year (db : Store) (year : string) :
  JS.test JS.year_re year = true ->
  (forall m, In m (monthlyData db) ->
             String.prefix year (MonthlyData.month m) = false) ->
  Yearly.get_year year db =
  (res_json
     (JSummary
        {| Summary.year := year;
           Summary.monthCount := 0;
           Summary.totals :=
             {| Totals.expectedIncome := 0; Totals.actualIncome := 0;
                Totals.effectiveIncome := 0; Totals.budgeted := 0;
                Totals.actualExpenses := 0; Totals.savings := 0 |};
           Summary.averages :=
             {| Averages.monthlyIncome := 0; Averages.monthlyExpenses := 0;
                Averages.monthlySavings := 0 |};
           Summary.savingsRate := 0;
           Summary.monthlyBreakdown := [];
           Summary.categoryBreakdown := [];
           Summary.highlights :=
             {| Highlights.bestMonth := None; Highlights.worstMonth := None;
                Highlights.highestSpendingMonth := None;
                Highlights.topSpendingCategory := None |} |}),
   db).
Proof.
  intros Hy Hnone. rewrite get_year_ok by exact Hy.
  unfold Prisma.monthlyData_findMany_startsWith_asc.
  rewrite filter_none by exact Hnone. reflexivity.
Qed.

Lemma yearly_empty_year_witness :
  JS.test JS.year_re "2024" = true
  /\ status (fst (Yearly.get_year "2024" Sample.ledger)) = 200%Z.
Proof.
  split; [reflexivity|].
  rewrite (yearly_empty_year Sample.ledger "2024" eq_refl).
  - reflexivity.
  - intros m [<-|[<-|[]]]; reflexivity.
Defined.

Lemma sorted_map (A B : Type) (g : A -> B) (R : B -> B -> Prop) (l : list A) :
  StronglySorted (fun a b => R (g a) (g b)) l -> StronglySorted R (map g l).
Proof.
  induction 1 as [|x l Hs IH Hall]; simpl; constructor; [exact IH|].
  rewrite Forall_forall in *. intros y Hy. apply in_map_iff in Hy.
  destruct Hy as (z & <- & Hz). now apply Hall.
Qed.

(** The months of a year come in ascending order of their keys. *)
Lemma findMany_ascending (year : string) (db : Store) :
  ascending_months
    (map MonthlyDataFull.month
         (Prisma.monthlyData_findMany_startsWith_asc year db)).
Proof.
  unfold Prisma.monthlyData_findMany_startsWith_asc, ascending_months.
  rewrite map_map. cbn [Prisma.include_all MonthlyDataFull.month].
  apply sorted_map. apply stable_sort_sorted.
  - intros a b c. apply leb_trans.
  - intros a b. apply ltb_leb.
  - intros a b. apply ltb_false_leb.
Qed.

(** C3, as amended. For every store and well-formed year, with the monthly
    breakdown in ascending month order: the best month is the first month of
    greatest savings, the worst month is the last month of least savings, the
    highest-spending month is the first month of greatest actualExpenses, and
    the top spending category is the first entry of the category breakdown,
    which is in descending order of actual spend. *)
Theorem yearly_highlights (db : Store) (year : string) :
  JS.test JS.year_re year = true ->
  exists s,
    Yearly.get_year year db = (res_json (JSummary s), db)
    /\ ascending_months (map Item.month (Summary.monthlyBreakdown s))
    /\ first_max_of Item.savings (Summary.monthlyBreakdown s)
                    (Highlights.bestMonth (Summary.highlights s))
    /\ last_min_of Item.savings (Summary.monthlyBreakdown s)
                   (Highlights.worstMonth (Summary.highlights s))
    /\ first_max_of Item.actualExpenses (Summary.monthlyBreakdown s)
                    (Highlights.highestSpendingMonth (Summary.highlights s))
    /\ descending Category.actual (Summary.categoryBreakdown s)
    /\ Highlights.topSpendingCategory (Summary.highlights s) =
       hd_error (Summary.categoryBreakdown s).
Proof.
  intro Hy. eexists. split; [now apply get_year_ok|].
  set (months := Prisma.monthlyData_findMany_startsWith_asc year db).
  rewrite summarize_breakdown.
  assert (Hb : Yearly.monthlyBreakdown (fold_left Yearly.step months Yearly.init)
               = map Yearly.item_of months).
  { now destruct (loop_invariant months Yearly.init) as (_ & _ & _ & _ & ->). }
  unfold Yearly.summarize.
  cbn [Summary.highlights Summary.categoryBreakdown Highlights.bestMonth
       Highlights.worstMonth Highlights.highestSpendingMonth
       Highlights.topSpendingCategory].
  rewrite Hb.
  split.
  { rewrite map_map. cbn [Yearly.item_of Item.month].
    apply findMany_ascending. }
  split; [apply sort_first_is_first_max|].
  split; [apply sort_last_is_last_min|].
  split; [apply sort_first_is_first_max|].
  split; [apply sort_is_descending|reflexivity].
Qed.

Lemma yearly_highlights_witness :
  JS.test JS.year_re "2025" = true
  /\ exists s,
      Yearly.get_year "2025" Sample.tied = (res_json (JSummary s), Sample.tied)
      /\ option_map Item.month (Highlights.bestMonth (Summary.highlights s))
         = Some "2025-01"
      /\ option_map Item.month (Highlights.worstMonth (Summary.highlights s))
         = Some "2025-02".
Proof.
  split; [reflexivity|].
  destruct (yearly_highlights Sample.tied "2025" eq_refl) as (s & Hs & _).
  exists s. split; [exact Hs|].
  rewrite get_year_ok in Hs by reflexivity.
  injection Hs as <-. split; reflexivity.
Defined.

(** C3, the claim as stated fails on a tie for the least savings: with two
    months of equal savings the worst month is the second one, not the first
    occurrence. *)
Lemma worst_month_tie_counterexample :
  exists s,
    Yearly.get_year "2025" Sample.tied = (res_json (JSummary s), Sample.tied)
    /\ ~ first_min_of Item.savings (Summary.monthlyBreakdown s)
                      (Highlights.worstMonth (Summary.highlights s)).
Proof.
  eexists. split; [now apply get_year_ok|].
  vm_compute. intros (l1 & l2 & Hl & H1 & _).
  destruct l1 as [|a [|b l1]].
  - discriminate Hl.
  - injection Hl as <- _. specialize (H1 _ (or_introl eq_refl)).
    vm_compute in H1. discriminate H1.
  - injection Hl as _ _ Hl. destruct l1; discriminate Hl.
Qed.

(** ** Month keys *)

Lemma is_digit_spec (c : ascii) :
  JS.is_digit c = true <->
  In c ["0"; "1"; "2"; "3"; "4"; "5"; "6"; "7"; "8"; "9"]%char.
Proof.
  split.
  - destruct c as [[] [] [] [] [] [] [] []]; vm_compute; intro H;
      try discriminate H; tauto.
  - intro H. repeat (destruct H as [<-|H]; [reflexivity|]). destruct H.
Qed.

(** The month expression accepts exactly four digits, a hyphen and two
    digits. *)
Lemma month_re_spec (s : string) :
  JS.test JS.month_re s = true <->
  exists y1 y2 y3 y4 m1 m2,
    s = String y1 (String y2 (String y3 (String y4
          (String "-" (String m1 (String m2 EmptyString))))))
    /\ forallb JS.is_digit [y1; y2; y3; y4; m1; m2] = true.
Proof.
  split.
  - destruct s as [|y1 [|y2 [|y3 [|y4 [|h [|m1 [|m2 [|x s]]]]]]]];
      simpl; rewrite ?andb_false_r; try discriminate.
    intro H. repeat (apply andb_prop in H; destruct H as [? H]).
    match goal with E : Ascii.eqb h _ = true |- _ => apply Ascii.eqb_eq in E; subst h end.
    exists y1, y2, y3, y4, m1, m2. split; [reflexivity|].
    simpl. repeat (apply andb_true_intro; split; try assumption); try reflexivity.
  - intros (y1 & y2 & y3 & y4 & m1 & m2 & -> & H). simpl in *.
    repeat (apply andb_prop in H; destruct H as [? H]).
    repeat (apply andb_true_intro; split; try assumption); try reflexivity.
Qed.

(** C6. For every string the month expression does not match, the
    get-or-create operation answers 400 with the validation error and leaves
    the store as it was: no month row and no child row is created. *)
Theorem get_month_rejects_malformed_key (db : Store) (key : string) :
  JS.test JS.month_re key = false ->
  Monthly.get_month key db =
  (res_status_json 400 (JError "Invalid month format. Use YYYY-MM"), db).
Proof. intro H. unfold Monthly.get_month. now rewrite H. Qed.

Lemma get_month_rejects_malformed_key_witness :
  JS.test JS.month_re "2025-1" = false
  /\ Monthly.get_month "2025-1" Sample.ledger =
     (res_status_json 400 (JError "Invalid month format. Use YYYY-MM"),
      Sample.ledger).
Proof.
  split; [reflexivity|].
  exact (get_month_rejects_malformed_key Sample.ledger "2025-1" eq_refl).
Defined.

(** ** Creating a month *)

Lemma find_none_iff (A : Type) (p : A -> bool) (l : list A) :
  find p l = None <-> forall x, In x l -> p x = false.
Proof.
  split.
  - intros H x Hx. now apply (find_none p l H).
  - induction l as [|x l IH]; intro H; simpl; [reflexivity|].
    rewrite (H x) by now left. apply IH. intros y Hy. apply H. now right.
Qed.

Lemma existsb_false_iff (A : Type) (p : A -> bool) (l : list A) :
  existsb p l = false <-> forall x, In x l -> p x = false.
Proof.
  induction l as [|x l IH]; simpl.
  - split; [intros _ y []|reflexivity].
  - rewrite orb_false_iff, IH. split.
    + intros [Hx Hl] y [<-|Hy]; auto.
    + intro H. split; [apply H; now left|]. intros y Hy. apply H. now right.
Qed.

Lemma NoDup_map_eq (A B : Type) (g : A -> B) (l : list A) (a b : A) :
  NoDup (map g l) -> In a l -> In b l -> g a = g b -> a = b.
Proof.
  induction l as [|x l IH]; simpl; intros Hnd Ha Hb Hg; [destruct Ha|].
  inversion Hnd as [|? ? Hnin Hnd']; subst.
  destruct Ha as [<-|Ha], Hb as [<-|Hb]; auto.
  - exfalso. apply Hnin. rewrite Hg. now apply in_map.
  - exfalso. apply Hnin. rewrite <- Hg. now apply in_map.
Qed.

Lemma absent_findUnique (db : Store) (key : string) :
  (forall m, In m (monthlyData db) -> MonthlyData.month m <> key) ->
  Prisma.monthlyData_findUnique key db = None.
Proof.
  intro H. apply find_none_iff. intros m Hm. apply String.eqb_neq. now apply H.
Qed.

(** The rows a create adds keep the data they were given. *)
Lemma new_categories_shape (next mid : Z) (cats : list CategoryData.t) :
  map shape (Prisma.new_categories next mid cats) =
  map (fun c => (CategoryData.name c, CategoryData.budgeted c,
                 CategoryData.actual c, CategoryData.isPaid c,
                 CategoryData.showPaidStatus c)) cats.
Proof.
  revert next. induction cats as [|c cats IH]; intro next; simpl;
    [reflexivity|]. now rewrite IH.
Qed.

Lemma new_categories_owner (next mid : Z) (cats : list CategoryData.t) :
  forall e, In e (Prisma.new_categories next mid cats) ->
            ExpenseCategory.monthlyDataId e = mid.
Proof.
  revert next. induction cats as [|c cats IH]; intros next e; simpl;
    [intros []|]. intros [<-|H]; [reflexivity|]. now apply (IH (next + 1)%Z).
Qed.

Lemma filter_all (A : Type) (p : A -> bool) (l : list A) :
  (forall x, In x l -> p x = true) -> filter p l = l.
Proof.
  induction l as [|x l IH]; intro H; simpl; [reflexivity|].
  rewrite (H x) by now left. f_equal. apply IH. intros y Hy. apply H. now right.
Qed.

(** On a store that satisfies its constraints, reading an absent well-formed
    key creates the month: the create is not rejected, and the new month owns
    exactly the rows made for it. *)
Lemma get_month_creates (db : Store) (key : string) :
  JS.test JS.month_re key = true ->
  ledger_ok db ->
  (forall m, In m (monthlyData db) -> MonthlyData.month m <> key) ->
  let cats :=
    Monthly.categoriesToClone (Prisma.monthlyData_findFirst_lt_desc key db) in
  let mid := monthlyData_seq db in
  let rows := Prisma.new_categories (expenseCategory_seq db) mid cats in
  exists db',
    Monthly.get_month key db =
    (res_json (JMonth {| MonthlyDataFull.id := mid;
                         MonthlyDataFull.month := key;
                         MonthlyDataFull.incomeSources := [];
                         MonthlyDataFull.expenseCategories := rows |}),
     db')
    /\ monthlyData db' =
       monthlyData db ++ [{| MonthlyData.id := mid; MonthlyData.month := key |}]
    /\ incomeSources db' = incomeSources db
    /\ expenseCategories db' = expenseCategories db ++ rows
    /\ users db' = users db.
Proof.
  intros Hk Hok Habs cats mid rows.
  unfold Monthly.get_month. rewrite Hk. cbn [negb].
  unfold try_catch, bind, query, ret, Prisma.monthlyData_findUnique_include.
  rewrite (absent_findUnique db key Habs). cbn [option_map].
  unfold Prisma.monthlyData_create.
  assert (Hex : existsb (fun m => String.eqb (MonthlyData.month m) key)
                        (monthlyData db) = false).
  { apply existsb_false_iff. intros m Hm. apply String.eqb_neq. now apply Habs. }
  rewrite Hex. fold cats. fold mid. fold rows.
  exists {| users := users db;
            monthlyData :=
              monthlyData db
              ++ [{| MonthlyData.id := mid; MonthlyData.month := key |}];
            incomeSources := incomeSources db;
            expenseCategories := expenseCategories db ++ rows;
            monthlyData_seq := (mid + 1)%Z;
            expenseCategory_seq :=
              (expenseCategory_seq db + Z.of_nat (List.length cats))%Z |}.
  split; [|repeat split].
  f_equal. f_equal. f_equal. unfold Prisma.include_all.
  cbn [MonthlyData.id MonthlyData.month]. f_equal.
  - unfold Prisma.incomeSources_of. cbn [incomeSources].
    apply filter_none. intros i Hi.
    destruct (income_fk Hok i Hi) as (m & Hm & <-).
    apply Z.eqb_neq. pose proof (month_id_used Hok m Hm). unfold mid. lia.
  - unfold Prisma.expenseCategories_of. cbn [expenseCategories].
    rewrite filter_app.
    rewrite (filter_none _ _ (expenseCategories db)).
    + simpl. apply filter_all. intros e He. apply Z.eqb_eq.
      now apply (new_categories_owner (expenseCategory_seq db) mid cats).
    + intros e He. destruct (expense_fk Hok e He) as (m & Hm & <-).
      apply Z.eqb_neq. pose proof (month_id_used Hok m Hm). unfold mid. lia.
Qed.

(** Reading a month that exists returns it and writes nothing. *)
Lemma get_month_existing (db : Store) (key : string) (m : MonthlyDataFull.t) :
  JS.test JS.month_re key = true ->
  Prisma.monthlyData_findUnique_include key db = Some m ->
  Monthly.get_month key db = (res_json (JMonth m), db).
Proof.
  intros Hk Hf. unfold Monthly.get_month. rewrite Hk. cbn [negb].
  unfold try_catch, bind, query, ret. now rewrite Hf.
Qed.

(** The query for the previous month finds the nearest earlier month. *)
Lemma findFirst_nearest (db : Store) (key : string) (P : MonthlyData.t) :
  NoDup (map MonthlyData.month (monthlyData db)) ->
  nearest_earlier db key P ->
  Prisma.monthlyData_findFirst_lt_desc key db =
  Some (P, Prisma.expenseCategories_of db (MonthlyData.id P)).
Proof.
  intros Hnd (HP & Hlt & Hmax). unfold Prisma.monthlyData_findFirst_lt_desc.
  set (F := filter (fun m => String.ltb (MonthlyData.month m) key)
                   (monthlyData db)).
  set (after := fun a b => String.ltb (MonthlyData.month a) (MonthlyData.month b)).
  assert (HPF : In P F) by (apply filter_In; auto).
  assert (HPS : In P (JS.stable_sort after F)) by now apply stable_sort_In.
  assert (Hs : StronglySorted
                 (fun a b => String.leb (MonthlyData.month b)
                                        (MonthlyData.month a) = true)
                 (JS.stable_sort after F)).
  { apply stable_sort_sorted.
    - intros a b c H1 H2. eapply leb_trans; eauto.
    - intros a b. apply ltb_leb.
    - intros a b. apply ltb_false_leb. }
  destruct (JS.stable_sort after F) as [|h T] eqn:E; [destruct HPS|].
  assert (Hh : In h F).
  { apply (stable_sort_In _ after h F). rewrite E. now left. }
  apply filter_In in Hh. destruct Hh as (Hh & Hhlt).
  assert (H1 : String.leb (MonthlyData.month h) (MonthlyData.month P) = true)
    by now apply Hmax.
  assert (H2 : String.leb (MonthlyData.month P) (MonthlyData.month h) = true).
  { destruct HPS as [<-|HPT]; [apply leb_refl|].
    inversion Hs as [|? ? _ Hall]; subst.
    rewrite Forall_forall in Hall. now apply Hall. }
  assert (h = P).
  { apply (NoDup_map_eq _ _ MonthlyData.month (monthlyData db)); auto.
    now apply String.leb_antisym. }
  subst h. reflexivity.
Qed.

Lemma findFirst_no_earlier (db : Store) (key : string) :
  no_earlier db key -> Prisma.monthlyData_findFirst_lt_desc key db = None.
Proof.
  intro H. unfold Prisma.monthlyData_findFirst_lt_desc.
  now rewrite filter_none by exact H.
Qed.

Lemma NoDup_snoc (A : Type) (l : list A) (a : A) :
  NoDup l -> ~ In a l -> NoDup (l ++ [a]).
Proof.
  induction 1 as [|x l Hx Hnd IH]; simpl; intro Ha.
  - constructor; [intros []|constructor].
  - constructor.
    + intro Hin. apply in_app_or in Hin. destruct Hin as [Hin|[<-|[]]]; tauto.
    + apply IH. tauto.
Qed.

(** Creating a month keeps the constraints of the ledger tables. *)
Lemma create_keeps_ledger_ok (db db' : Store) (key : string)
      (rows : list ExpenseCategory.t) :
  ledger_ok db ->
  (forall m, In m (monthlyData db) -> MonthlyData.month m <> key) ->
  (forall e, In e rows -> ExpenseCategory.monthlyDataId e = monthlyData_seq db) ->
  monthlyData db' =
    monthlyData db
    ++ [{| MonthlyData.id := monthlyData_seq db; MonthlyData.month := key |}] ->
  incomeSources db' = incomeSources db ->
  expenseCategories db' = expenseCategories db ++ rows ->
  monthlyData_seq db' = (monthlyData_seq db + 1)%Z ->
  ledger_ok db'.
Proof.
  intros Hok Habs Hrows Hm Hi He Hseq. constructor.
  - rewrite Hm, map_app. simpl. apply NoDup_snoc; [apply (unique_month Hok)|].
    intro Hin. apply in_map_iff in Hin. destruct Hin as (m & Hk & Hin).
    now apply (Habs m Hin).
  - intros m Hin. rewrite Hm in Hin. rewrite Hseq.
    apply in_app_or in Hin. destruct Hin as [Hin|[<-|[]]].
    + pose proof (month_id_used Hok m Hin). lia.
    + simpl. lia.
  - intros i Hin. rewrite Hi in Hin.
    destruct (income_fk Hok i Hin) as (m & Hmin & Hid).
    exists m. split; [|exact Hid]. rewrite Hm. apply in_or_app. now left.
  - intros e Hin. rewrite He in Hin. apply in_app_or in Hin.
    destruct Hin as [Hin|Hin].
    + destruct (expense_fk Hok e Hin) as (m & Hmin & Hid).
      exists m. split; [|exact Hid]. rewrite Hm. apply in_or_app. now left.
    + eexists. split; [rewrite Hm; apply in_or_app; right; now left|].
      simpl. symmetry. now apply Hrows.
Qed.

Lemma find_snoc_absent (A : Type) (p : A -> bool) (l : list A) (a : A) :
  (forall x, In x l -> p x = false) -> p a = true -> find p (l ++ [a]) = Some a.
Proof.
  induction l as [|x l IH]; simpl; intros Hl Ha.
  - now rewrite Ha.
  - rewrite (Hl x) by now left. apply IH; auto.
Qed.

(** C2, as amended. On a store that satisfies its constraints, for every
    first read of an absent well-formed month key M: when P is the month with
    the greatest key strictly less than M and P has at least one expense
    category, the month created for M has P's categories in name, budgeted
    and showPaidStatus, each with actual 0 and isPaid false, and no income
    source; the month is stored and the constraints still hold. *)
Theorem get_month_clones_nearest (db : Store) (M : string) (P : MonthlyData.t) :
  JS.test JS.month_re M = true ->
  ledger_ok db ->
  (forall m, In m (monthlyData db) -> MonthlyData.month m <> M) ->
  nearest_earlier db M P ->
  Prisma.expenseCategories_of db (MonthlyData.id P) <> [] ->
  exists created db',
    Monthly.get_month M db = (res_json (JMonth created), db')
    /\ MonthlyDataFull.month created = M
    /\ MonthlyDataFull.incomeSources created = []
    /\ map shape (MonthlyDataFull.expenseCategories created) =
       map (fun e => (ExpenseCategory.name e, ExpenseCategory.budgeted e, 0,
                      false, ExpenseCategory.showPaidStatus e))
           (Prisma.expenseCategories_of db (MonthlyData.id P))
    /\ Prisma.monthlyData_findUnique_include M db' = Some created
    /\ ledger_ok db'.
Proof.
  intros Hk Hok Habs Hnear Hcats.
  destruct (get_month_creates db M Hk Hok Habs)
    as (db' & Hget & Hm & Hi & He & _).
  cbv zeta in Hget, He.
  rewrite (findFirst_nearest db M P (unique_month Hok) Hnear) in Hget, He.
  set (cats := Monthly.categoriesToClone
                 (Some (P, Prisma.expenseCategories_of db (MonthlyData.id P))))
    in *.
  set (rows := Prisma.new_categories (expenseCategory_seq db)
                                     (monthlyData_seq db) cats) in *.
  assert (Hseq : monthlyData_seq db' = (monthlyData_seq db + 1)%Z).
  { unfold Monthly.get_month in Hget. rewrite Hk in Hget. cbn [negb] in Hget.
    unfold try_catch, bind, query, ret,
      Prisma.monthlyData_findUnique_include in Hget.
    rewrite (absent_findUnique db M Habs) in Hget. cbn [option_map] in Hget.
    unfold Prisma.monthlyData_create in Hget.
    destruct (existsb _ (monthlyData db)); inversion Hget; reflexivity. }
  eexists. exists db'. split; [exact Hget|].
  split; [reflexivity|]. split; [reflexivity|]. split.
  { cbn [MonthlyDataFull.expenseCategories]. unfold rows.
    rewrite new_categories_shape. unfold cats, Monthly.categoriesToClone.
    destruct (Prisma.expenseCategories_of db (MonthlyData.id P)) as [|c l];
      [congruence|].
    now rewrite map_map. }
  assert (Hok' : ledger_ok db').
  { apply (create_keeps_ledger_ok db db' M rows); auto.
    apply new_categories_owner. }
  split; [|exact Hok'].
  unfold Prisma.monthlyData_findUnique_include, Prisma.monthlyData_findUnique.
  rewrite Hm.
  rewrite (find_snoc_absent _ _ _
             {| MonthlyData.id := monthlyData_seq db; MonthlyData.month := M |}).
  - cbn [option_map]. f_equal. unfold Prisma.include_all.
    cbn [MonthlyData.id MonthlyData.month]. f_equal.
    + unfold Prisma.incomeSources_of. rewrite Hi. apply filter_none.
      intros i Hin. destruct (income_fk Hok i Hin) as (m & Hmin & <-).
      apply Z.eqb_neq. pose proof (month_id_used Hok m Hmin). lia.
    + unfold Prisma.expenseCategories_of. rewrite He, filter_app.
      rewrite (filter_none _ _ (expenseCategories db)).
      * simpl. apply filter_all. intros e Hin. apply Z.eqb_eq.
        now apply (new_categories_owner (expenseCategory_seq db)
                                        (monthlyData_seq db) cats).
      * intros e Hin. destruct (expense_fk Hok e Hin) as (m & Hmin & <-).
        apply Z.eqb_neq. pose proof (month_id_used Hok m Hmin). lia.
  - intros m Hin. apply String.eqb_neq. now apply Habs.
  - apply String.eqb_refl.
Qed.

Lemma january_ok : ledger_ok Sample.january.
Proof.
  constructor; simpl.
  - repeat constructor. intros [].
  - intros m [<-|[]]. reflexivity.
  - intros i [<-|[]]. eexists. split; [now left|reflexivity].
  - intros e [<-|[<-|[]]]; eexists; (split; [now left|reflexivity]).
Qed.

Lemma january_nearest :
  nearest_earlier Sample.january "2025-02" (Sample.month 1 "2025-01").
Proof.
  split; [now left|]. split; [reflexivity|].
  intros m [<-|[]] _. reflexivity.
Qed.

Lemma get_month_clones_nearest_witness :
  exists created db',
    Monthly.get_month "2025-02" Sample.january = (res_json (JMonth created), db')
    /\ map shape (MonthlyDataFull.expenseCategories created) =
       [("Rent", 1200, 0, false, true); ("Groceries", 400, 0, false, false)].
Proof.
  destruct (get_month_clones_nearest Sample.january "2025-02"
              (Sample.month 1 "2025-01") eq_refl january_ok)
    as (created & db' & Hget & _ & _ & Hshape & _).
  - intros m [<-|[]]. discriminate.
  - exact january_nearest.
  - discriminate.
  - exists created, db'. split; [exact Hget|]. exact Hshape.
Defined.

(** C2, the claim as stated fails when the earlier month is not the nearest
    one: with January (Rent, Groceries) and February (Food) in the store,
    the first read of March clones February, not January. *)
Lemma clone_from_any_earlier_month_counterexample :
  In (Sample.month 1 "2025-01") (monthlyData Sample.ledger)
  /\ String.ltb "2025-01" "2025-03" = true
  /\ Prisma.expenseCategories_of Sample.ledger 1 <> []
  /\ Prisma.monthlyData_findUnique "2025-03" Sample.ledger = None
  /\ exists created db',
      Monthly.get_month "2025-03" Sample.ledger = (res_json (JMonth created), db')
      /\ map shape (MonthlyDataFull.expenseCategories created) <>
         map (fun e => (ExpenseCategory.name e, ExpenseCategory.budgeted e, 0,
                        false, ExpenseCategory.showPaidStatus e))
             (Prisma.expenseCategories_of Sample.ledger 1).
Proof.
  split; [now left|]. split; [reflexivity|].
  split; [discriminate|]. split; [reflexivity|].
  eexists. eexists. split; [reflexivity|]. discriminate.
Qed.

Lemma children_of_created (db : Store) (key : string) :
  ledger_ok db ->
  Prisma.include_all (created_store db key)
    {| MonthlyData.id := monthlyData_seq db; MonthlyData.month := key |}
  = created_month db key.
Proof.
  intro Hok. unfold Prisma.include_all, created_month.
  cbn [MonthlyData.id MonthlyData.month]. f_equal.
  - unfold Prisma.incomeSources_of. cbn [created_store incomeSources].
    apply filter_none. intros i Hi.
    destruct (income_fk Hok i Hi) as (m & Hm & <-).
    apply Z.eqb_neq. pose proof (month_id_used Hok m Hm). lia.
  - unfold Prisma.expenseCategories_of. cbn [created_store expenseCategories].
    rewrite filter_app, (filter_none _ _ (expenseCategories db)).
    + simpl. apply filter_all. intros e He. apply Z.eqb_eq.
      eapply new_categories_owner; eauto.
    + intros e He. destruct (expense_fk Hok e He) as (m & Hm & <-).
      apply Z.eqb_neq. pose proof (month_id_used Hok m Hm). lia.
Qed.

Lemma get_month_absent (db : Store) (key : string) :
  JS.test JS.month_re key = true ->
  ledger_ok db ->
  (forall m, In m (monthlyData db) -> MonthlyData.month m <> key) ->
  Monthly.get_month key db =
  (res_json (JMonth (created_month db key)), created_store db key).
Proof.
  intros Hk Hok Habs. unfold Monthly.get_month. rewrite Hk. cbn [negb].
  unfold try_catch, bind, query, ret, Prisma.monthlyData_findUnique_include.
  rewrite (absent_findUnique db key Habs). cbn [option_map].
  unfold Prisma.monthlyData_create.
  assert (Hex : existsb (fun m => String.eqb (MonthlyData.month m) key)
                        (monthlyData db) = false).
  { apply existsb_false_iff. intros m Hm. apply String.eqb_neq. now apply Habs. }
  rewrite Hex. fold (created_store db key).
  now rewrite (children_of_created db key Hok).
Qed.

Lemma created_store_ok (db : Store) (key : string) :
  ledger_ok db ->
  (forall m, In m (monthlyData db) -> MonthlyData.month m <> key) ->
  ledger_ok (created_store db key).
Proof.
  intros Hok Habs.
  eapply (create_keeps_ledger_ok db (created_store db key) key); eauto;
    try reflexivity.
  apply new_categories_owner.
Qed.

Lemma created_is_stored (db : Store) (key : string) :
  ledger_ok db ->
  (forall m, In m (monthlyData db) -> MonthlyData.month m <> key) ->
  Prisma.monthlyData_findUnique_include key (created_store db key)
  = Some (created_month db key).
Proof.
  intros Hok Habs.
  unfold Prisma.monthlyData_findUnique_include, Prisma.monthlyData_findUnique.
  cbn [created_store monthlyData].
  rewrite (find_snoc_absent _ _ _
             {| MonthlyData.id := monthlyData_seq db; MonthlyData.month := key |}).
  - cbn [option_map]. f_equal. now apply children_of_created.
  - intros m Hin. apply String.eqb_neq. now apply Habs.
  - apply String.eqb_refl.
Qed.

(** C5. On a store that satisfies its constraints, for every first read of
    an absent well-formed month key: when no month has a strictly smaller
    key, or the nearest earlier month has no expense category, the created
    month has exactly the five default categories Rent, Groceries,
    Car Insurance, Clothes, Other, in this order, each with budgeted 0,
    actual 0 and isPaid false, and showPaidStatus true exactly for Rent and
    Car Insurance, and it has no income source; the month and its five
    categories are stored, nothing else is written, a lookup of the key
    finds the month, and the constraints still hold. *)
Theorem get_month_default_categories (db : Store) (M : string) :
  JS.test JS.month_re M = true ->
  ledger_ok db ->
  (forall m, In m (monthlyData db) -> MonthlyData.month m <> M) ->
  (no_earlier db M
   \/ exists P, nearest_earlier db M P
                /\ Prisma.expenseCategories_of db (MonthlyData.id P) = []) ->
  exists created db',
    Monthly.get_month M db = (res_json (JMonth created), db')
    /\ MonthlyDataFull.month created = M
    /\ map shape (MonthlyDataFull.expenseCategories created) =
       [ ("Rent", 0, 0, false, true);
         ("Groceries", 0, 0, false, false);
         ("Car Insurance", 0, 0, false, true);
         ("Clothes", 0, 0, false, false);
         ("Other", 0, 0, false, false) ]
    /\ MonthlyDataFull.incomeSources created = []
    /\ Prisma.monthlyData_findUnique_include M db' = Some created
    /\ monthlyData db' =
       monthlyData db
       ++ [{| MonthlyData.id := MonthlyDataFull.id created;
              MonthlyData.month := M |}]
    /\ expenseCategories db' =
       expenseCategories db ++ MonthlyDataFull.expenseCategories created
    /\ incomeSources db' = incomeSources db
    /\ users db' = users db
    /\ ledger_ok db'.
Proof.
  intros Hk Hok Habs Hprev.
  assert (Hcats : Monthly.categoriesToClone
                    (Prisma.monthlyData_findFirst_lt_desc M db) =
                  map Monthly.default_category Monthly.DEFAULT_CATEGORIES).
  { destruct Hprev as [Hnone|(P & Hnear & Hempty)].
    - now rewrite (findFirst_no_earlier db M Hnone).
    - rewrite (findFirst_nearest db M P (unique_month Hok) Hnear), Hempty.
      reflexivity. }
  exists (created_month db M), (created_store db M).
  split; [now apply get_month_absent|]. split; [reflexivity|].
  split.
  { cbn [created_month MonthlyDataFull.expenseCategories].
    rewrite Hcats, new_categories_shape. reflexivity. }
  split; [reflexivity|]. split; [now apply created_is_stored|].
  split; [reflexivity|]. split; [reflexivity|]. split; [reflexivity|].
  split; [reflexivity|]. now apply created_store_ok.
Qed.

Lemma empty_ok : ledger_ok Sample.empty.
Proof. constructor; simpl; try (intros ? []). constructor. Qed.

Lemma get_month_default_categories_witness :
  exists created db',
    Monthly.get_month "2025-01" Sample.empty = (res_json (JMonth created), db')
    /\ map ExpenseCategory.name (MonthlyDataFull.expenseCategories created) =
       ["Rent"; "Groceries"; "Car Insurance"; "Clothes"; "Other"]
    /\ Prisma.monthlyData_findUnique_include "2025-01" db' = Some created
    /\ List.length (expenseCategories db') = 5%nat.
Proof.
  destruct (get_month_default_categories Sample.empty "2025-01" eq_refl empty_ok)
    as (created & db' & Hget & _ & Hshape & _ & Hstored & _ & Hrows & _).
  - intros m [].
  - left. intros m [].
  - exists created, db'. split; [exact Hget|]. split; [|split].
    + change ExpenseCategory.name
        with (fun e => fst (fst (fst (fst (shape e))))).
      rewrite <- (map_map shape (fun t => fst (fst (fst (fst t))))), Hshape.
      reflexivity.
    + exact Hstored.
    + rewrite Hrows. cbn [Sample.empty expenseCategories app].
      now rewrite <- (length_map shape), Hshape.
Defined.

(** ** Adding an expense category *)

Lemma findUnique_key (db : Store) (key : string) (m : MonthlyData.t) :
  Prisma.monthlyData_findUnique key db = Some m ->
  In m (monthlyData db) /\ MonthlyData.month m = key.
Proof.
  intro H. apply find_some in H. destruct H as (Hin & Hk).
  apply String.eqb_eq in Hk. auto.
Qed.

Lemma present_findUnique (db : Store) (key : string) (m : MonthlyData.t) :
  In m (monthlyData db) -> MonthlyData.month m = key ->
  exists found, Prisma.monthlyData_findUnique key db = Some found.
Proof.
  intros Hin Hkey.
  destruct (Prisma.monthlyData_findUnique key db) as [found|] eqn:Hf;
    [now exists found|].
  unfold Prisma.monthlyData_findUnique in Hf.
  pose proof (find_none _ _ Hf m Hin) as Hn. cbv beta in Hn.
  rewrite Hkey, String.eqb_refl in Hn. discriminate.
Qed.

(** The row an expense create stores, when its budget fits the column. *)
Lemma post_expense_present (db : Store) (key : string)
      (body : Monthly.ExpenseBody) (m : MonthlyData.t) (b : Q) :
  Prisma.monthlyData_findUnique key db = Some m ->
  Schema.DECIMAL_10_2 (Monthly.budgeted_or_default (Monthly.body_budgeted body))
  = Some b ->
  Monthly.post_expense key body db =
  (res_json
     (JExpense
        {| ExpenseCategory.id := expenseCategory_seq db;
           ExpenseCategory.name :=
             Monthly.name_or_default (Monthly.body_name body);
           ExpenseCategory.budgeted := b;
           ExpenseCategory.actual := 0;
           ExpenseCategory.isPaid := false;
           ExpenseCategory.showPaidStatus := false;
           ExpenseCategory.monthlyDataId := MonthlyData.id m |}),
   {| users := users db;
      monthlyData := monthlyData db;
      incomeSources := incomeSources db;
      expenseCategories :=
        expenseCategories db
        ++ [{| ExpenseCategory.id := expenseCategory_seq db;
               ExpenseCategory.name :=
                 Monthly.name_or_default (Monthly.body_name body);
               ExpenseCategory.budgeted := b;
               ExpenseCategory.actual := 0;
               ExpenseCategory.isPaid := false;
               ExpenseCategory.showPaidStatus := false;
               ExpenseCategory.monthlyDataId := MonthlyData.id m |}];
      monthlyData_seq := monthlyData_seq db;
      expenseCategory_seq := (expenseCategory_seq db + 1)%Z |}).
Proof.
  intros Hf Hb. destruct (findUnique_key db key m Hf) as (Hin & _).
  assert (Hfk : existsb (fun r => Z.eqb (MonthlyData.id r) (MonthlyData.id m))
                        (monthlyData db) = true).
  { apply existsb_exists. exists m. split; [exact Hin|apply Z.eqb_refl]. }
  unfold Monthly.post_expense, try_catch, bind, query, ret.
  rewrite Hf. unfold Prisma.expenseCategory_create.
  cbn [CategoryData.budgeted CategoryData.actual CategoryData.name
       CategoryData.isPaid CategoryData.showPaidStatus].
  rewrite Hb, DECIMAL_10_2_zero, Hfk. reflexivity.
Qed.

(** An expense create whose budget does not fit the column. *)
Lemma post_expense_overflow (db : Store) (key : string)
      (body : Monthly.ExpenseBody) (m : MonthlyData.t) :
  Prisma.monthlyData_findUnique key db = Some m ->
  Schema.DECIMAL_10_2 (Monthly.budgeted_or_default (Monthly.body_budgeted body))
  = None ->
  Monthly.post_expense key body db =
  (res_status_json 500 (JError "Failed to add expense"), db).
Proof.
  intros Hf Hb.
  unfold Monthly.post_expense, try_catch, bind, query, ret.
  rewrite Hf. unfold Prisma.expenseCategory_create.
  cbn [CategoryData.budgeted CategoryData.actual].
  now rewrite Hb.
Qed.

Lemma budgeted_or_default_eq (q : Q) :
  Monthly.budgeted_or_default (Some q) == q.
Proof.
  unfold Monthly.budgeted_or_default, JS.or_number.
  destruct (Qeq_bool q 0) eqn:E; [|reflexivity].
  apply Qeq_bool_iff in E. now rewrite E.
Qed.

(** C10. For every request body, creating an expense category on an
    existing month either stores one new row, answered 200, or - when the
    body's budgeted does not fit the DECIMAL(10,2) column - stores nothing
    and is answered 500.  The created row has actual 0, isPaid false and
    showPaidStatus false whatever the body holds; its name is the body's
    name, or "New Category" when that is absent or empty; its budgeted is what
    the column makes of the body's budgeted (the number rounded to the
    nearest cent; a number of whole cents below 10^8 as it is), or 0 when
    that is absent; no other field of the body has any effect. *)
Theorem post_expense_fixed_fields (db : Store) (M : string)
        (body : Monthly.ExpenseBody) (m : MonthlyData.t) :
  In m (monthlyData db) ->
  MonthlyData.month m = M ->
  (forall b,
      Schema.DECIMAL_10_2
        (Monthly.budgeted_or_default (Monthly.body_budgeted body)) = Some b ->
      exists e owner db',
        Monthly.post_expense M body db = (res_json (JExpense e), db')
        /\ expenseCategories db' = expenseCategories db ++ [e]
        /\ monthlyData db' = monthlyData db
        /\ incomeSources db' = incomeSources db
        /\ In owner (monthlyData db) /\ MonthlyData.month owner = M
        /\ ExpenseCategory.monthlyDataId e = MonthlyData.id owner
        /\ ExpenseCategory.actual e = 0
        /\ ExpenseCategory.isPaid e = false
        /\ ExpenseCategory.showPaidStatus e = false
        /\ (Monthly.body_name body = None \/ Monthly.body_name body = Some "" ->
            ExpenseCategory.name e = "New Category")
        /\ (forall n, Monthly.body_name body = Some n -> n <> "" ->
                      ExpenseCategory.name e = n)
        /\ ExpenseCategory.budgeted e = b
        /\ (Monthly.body_budgeted body = None -> b = 0)
        /\ (forall q, Monthly.body_budgeted body = Some q ->
                      Qabs (b - q) <= 1 # 200))
  /\ (Schema.DECIMAL_10_2
        (Monthly.budgeted_or_default (Monthly.body_budgeted body)) = None ->
      exists db',
        Monthly.post_expense M body db =
          (res_status_json 500 (JError "Failed to add expense"), db')
        /\ same_rows db' db)
  /\ (Monthly.body_budgeted body = None ->
      Schema.DECIMAL_10_2
        (Monthly.budgeted_or_default (Monthly.body_budgeted body)) = Some 0)
  /\ (forall c, Monthly.body_budgeted body = Some (c # 100) ->
                (Z.abs c < 10000000000)%Z ->
                Schema.DECIMAL_10_2
                  (Monthly.budgeted_or_default (Monthly.body_budgeted body))
                = Some (Qred (c # 100)))
  /\ (forall body',
        Monthly.body_name body' = Monthly.body_name body ->
        Monthly.body_budgeted body' = Monthly.body_budgeted body ->
        Monthly.post_expense M body' db = Monthly.post_expense M body db).
Proof.
  intros Hin Hkey.
  destruct (present_findUnique db M m Hin Hkey) as (found & Hf).
  destruct (findUnique_key db M found Hf) as (Hfin & Hfkey).
  split; [|split; [|split; [|split]]].
  - intros b Hb. rewrite (post_expense_present db M body found b Hf Hb).
    eexists. exists found. eexists. split; [reflexivity|].
    cbn [expenseCategories monthlyData incomeSources
         ExpenseCategory.monthlyDataId ExpenseCategory.actual
         ExpenseCategory.isPaid ExpenseCategory.showPaidStatus
         ExpenseCategory.name ExpenseCategory.budgeted].
    repeat match goal with |- _ /\ _ => split end; auto.
    + intros [H|H]; rewrite H; reflexivity.
    + intros n H Hn. rewrite H. destruct n; [congruence|reflexivity].
    + intro H. rewrite H in Hb. cbn in Hb. now injection Hb as <-.
    + intros q H. rewrite H in Hb.
      destruct (DECIMAL_10_2_spec _ _ Hb) as (_ & _ & Hnear).
      assert (Heq : Qabs (b - q)
                    == Qabs (b - Monthly.budgeted_or_default (Some q))).
      { apply Qabs_wd. apply Qplus_comp; [reflexivity|].
        apply Qopp_comp. symmetry. apply budgeted_or_default_eq. }
      now rewrite Heq.
  - intro Hb. exists db.
    split; [now apply (post_expense_overflow db M body found)|].
    repeat split.
  - intro H. now rewrite H.
  - intros c H Hc. rewrite H. unfold Monthly.budgeted_or_default, JS.or_number.
    destruct (Qeq_bool (c # 100) 0) eqn:E.
    + apply Qeq_bool_iff in E. unfold Qeq in E. cbn [Qnum Qden] in E.
      assert (c = 0%Z) by lia. subst c. reflexivity.
    + now apply DECIMAL_10_2_exact.
  - intros body' Hn Hb. unfold Monthly.post_expense, try_catch, bind, query, ret.
    now rewrite Hn, Hb.
Qed.

Lemma post_expense_fixed_fields_witness :
  Schema.DECIMAL_10_2 30 = Some 30
  /\ exists e db',
      Monthly.post_expense "2025-01"
        {| Monthly.body_name := Some "Gym";
           Monthly.body_budgeted := Some 30;
           Monthly.body_actual := Some 25;
           Monthly.body_isPaid := Some true;
           Monthly.body_showPaidStatus := Some true |}
        Sample.january = (res_json (JExpense e), db')
      /\ shape e = ("Gym", 30, 0, false, false).
Proof.
  split; [reflexivity|].
  destruct (proj1 (post_expense_fixed_fields Sample.january "2025-01"
                     {| Monthly.body_name := Some "Gym";
                        Monthly.body_budgeted := Some 30;
                        Monthly.body_actual := Some 25;
                        Monthly.body_isPaid := Some true;
                        Monthly.body_showPaidStatus := Some true |}
                     (Sample.month 1 "2025-01") (or_introl eq_refl) eq_refl)
              30 eq_refl)
    as (e & owner & db' & Hpost & _).
  exists e, db'. split; [exact Hpost|].
  injection Hpost as <- _. reflexivity.
Defined.

(** A budget of 10.005 is stored as 10.01, and one of 100000000 is refused:
    the answer is 500 and no row is written. *)
Lemma post_expense_column_examples :
  (exists e db',
      Monthly.post_expense "2025-01"
        {| Monthly.body_name := Some "Gym";
           Monthly.body_budgeted := Some (10005 # 1000);
           Monthly.body_actual := None;
           Monthly.body_isPaid := None;
           Monthly.body_showPaidStatus := None |}
        Sample.january = (res_json (JExpense e), db')
      /\ ExpenseCategory.budgeted e == 1001 # 100)
  /\ Monthly.post_expense "2025-01"
       {| Monthly.body_name := Some "Gym";
          Monthly.body_budgeted := Some 100000000;
          Monthly.body_actual := None;
          Monthly.body_isPaid := None;
          Monthly.body_showPaidStatus := None |}
       Sample.january
     = (res_status_json 500 (JError "Failed to add expense"), Sample.january).
Proof.
  split; [|reflexivity].
  eexists. eexists. split; [reflexivity|]. reflexivity.
Qed.

(** Adding a category keeps the constraints of the ledger tables. *)
Lemma post_expense_keeps_ledger_ok (db : Store) (M : string)
      (body : Monthly.ExpenseBody) :
  ledger_ok db -> ledger_ok (snd (Monthly.post_expense M body db)).
Proof.
  intro Hok.
  destruct (Prisma.monthlyData_findUnique M db) as [found|] eqn:Hf.
  2:{ unfold Monthly.post_expense, try_catch, bind, query, ret.
      rewrite Hf. exact Hok. }
  destruct (findUnique_key db M found Hf) as (Hfin & _).
  destruct (Schema.DECIMAL_10_2
              (Monthly.budgeted_or_default (Monthly.body_budgeted body)))
    as [b|] eqn:Hb.
  - rewrite (post_expense_present db M body found b Hf Hb). cbn [snd].
    constructor; cbn.
    + apply (unique_month Hok).
    + apply (month_id_used Hok).
    + apply (income_fk Hok).
    + intros e He. apply in_app_or in He. destruct He as [He|[<-|[]]].
      * now apply (expense_fk Hok).
      * exists found. auto.
  - now rewrite (post_expense_overflow db M body found Hf Hb).
Qed.

(** ** Authentication *)

Lemma find_by_key (A B : Type) (g : A -> B) (eqb : B -> B -> bool)
      (l : list A) (a : A) :
  (forall x y, eqb x y = true <-> x = y) ->
  NoDup (map g l) -> In a l -> find (fun x => eqb (g x) (g a)) l = Some a.
Proof.
  intros Heqb Hnd Hin.
  destruct (find (fun x => eqb (g x) (g a)) l) as [b|] eqn:E.
  - apply find_some in E. destruct E as (Hb & Hg). apply Heqb in Hg.
    f_equal. now apply (NoDup_map_eq A B g l).
  - pose proof (find_none _ _ E a Hin) as Hn. cbv beta in Hn.
    assert (eqb (g a) (g a) = true) by now apply Heqb. congruence.
Qed.



(** A login request without a username or without a password is answered
    400 before the store is looked at: the answer is the same whichever
    users exist. *)
Lemma login_incomplete_is_400 (bcrypt_compare : string -> string -> bool)
      (w : Auth.World) (lb : Auth.LoginBody) :
  JS.truthy (Auth.login_username lb) = false
  \/ JS.truthy (Auth.login_password lb) = false ->
  Auth.login bcrypt_compare lb w =
  (res_status_json 400 (JError "Username and password required"), w).
Proof.
  intro H. unfold Auth.login, try_catch, ret.
  destruct H as [-> | ->]; cbn [negb orb]; [reflexivity|].
  now rewrite orb_true_r.
Qed.


(** C8, as amended. On a credential table that satisfies its constraints,
    when a logged-in user who proves the current password asks for a new
    username that belongs to another user, the answer is 400 with the error
    "Username already taken", and neither the store nor the session
    changes. *)
Theorem change_credentials_username_taken
        (bcrypt_compare : string -> string -> bool)
        (bcrypt_hash : string -> Z -> string)
        (w : Auth.World) (body : Auth.CredentialsBody) (u other : User.t) :
  users_ok (Auth.db w) ->
  Auth.logged_in (Auth.session w) = Some (User.id u) ->
  In u (users (Auth.db w)) ->
  JS.truthy (Auth.currentPassword body) = true ->
  bcrypt_compare (JS.String_ (Auth.currentPassword body)) (User.password u)
  = true ->
  JS.truthy (Auth.newUsername body) = true ->
  In other (users (Auth.db w)) ->
  User.username other = JS.String_ (Auth.newUsername body) ->
  User.id other <> User.id u ->
  Auth.change_credentials bcrypt_compare bcrypt_hash body w =
  (res_status_json 400 (JError "Username already taken"), w).
Proof.
  intros Hok Hlog Hu Hcur Hcmp Hnew Hother Hname Hid.
  unfold Auth.change_credentials, try_catch, bind, ret, Auth.on_db, query.
  rewrite Hlog, Hcur, Hnew. cbn [negb andb].
  assert (Hfu : Auth.user_findUnique_id (User.id u) (Auth.db w) = Some u).
  { apply (find_by_key _ _ User.id Z.eqb); auto using Z.eqb_eq.
    apply (unique_user_id Hok). }
  rewrite Hfu, Hcmp. cbn [negb].
  assert (Hfo : Auth.user_findUnique_username
                  (JS.String_ (Auth.newUsername body)) (Auth.db w) = Some other).
  { rewrite <- Hname.
    apply (find_by_key _ _ User.username String.eqb); auto using String.eqb_eq.
    apply (unique_username Hok). }
  cbn [Auth.db Auth.session]. rewrite Hfo.
  assert (Hne : Z.eqb (User.id other) (User.id u) = false) by now apply Z.eqb_neq.
  rewrite Hne. cbn [negb]. destruct w; reflexivity.
Qed.

Lemma accounts_ok : users_ok Sample.accounts.
Proof.
  constructor; simpl; repeat constructor; simpl; intuition discriminate.
Qed.

Lemma change_credentials_username_taken_witness :
  status (fst (Auth.change_credentials Sample.compare Sample.hash
                 {| Auth.currentPassword := Some "wonderland";
                    Auth.newUsername := Some "bob";
                    Auth.newPassword := None |}
                 {| Auth.db := Sample.accounts;
                    Auth.session := Sample.alice_session |})) = 400%Z.
Proof.
  rewrite (change_credentials_username_taken Sample.compare Sample.hash
             {| Auth.db := Sample.accounts;
                Auth.session := Sample.alice_session |}
             {| Auth.currentPassword := Some "wonderland";
                Auth.newUsername := Some "bob";
                Auth.newPassword := None |}
             (Sample.user 1 "alice" "wonderland")
             (Sample.user 2 "bob" "builder")
             accounts_ok eq_refl (or_introl eq_refl) eq_refl eq_refl eq_refl
             (or_intror (or_introl eq_refl)) eq_refl).
  - reflexivity.
  - discriminate.
Defined.

(** C8, the claim as stated fails: a new username that belongs to another
    user is answered with 400, not with 500. *)
Lemma duplicate_username_is_400_counterexample :
  users_ok Sample.accounts
  /\ Auth.change_credentials Sample.compare Sample.hash
       {| Auth.currentPassword := Some "wonderland";
          Auth.newUsername := Some "bob";
          Auth.newPassword := None |}
       {| Auth.db := Sample.accounts; Auth.session := Sample.alice_session |}
     = (res_status_json 400 (JError "Username already taken"),
        {| Auth.db := Sample.accounts; Auth.session := Sample.alice_session |})
  /\ status (fst (Auth.change_credentials Sample.compare Sample.hash
                    {| Auth.currentPassword := Some "wonderland";
                       Auth.newUsername := Some "bob";
                       Auth.newPassword := None |}
                    {| Auth.db := Sample.accounts;
                       Auth.session := Sample.alice_session |})) <> 500%Z.
Proof.
  split; [exact accounts_ok|]. split; [reflexivity|]. discriminate.
Qed.

(** The tail of a credential change goes through when the row exists and the
    new username, if any, is held by no other row. *)
Lemma commit_resolves (w : Auth.World) (u : User.t) (data : Auth.UpdateData) :
  Auth.user_findUnique_id (User.id u) (Auth.db w) = Some u ->
  (forall n v, Auth.new_username data = Some n -> In v (users (Auth.db w)) ->
               User.username v = n -> User.id v = User.id u) ->
  exists r w', Auth.commit u data w = (Resolved r, w') /\ status r = 200%Z.
Proof.
  intros Hf Hfree.
  unfold Auth.commit, bind, ret, Auth.on_db, Auth.user_update. rewrite Hf.
  assert (Ht : match Auth.new_username data with
               | Some n =>
                   existsb (fun v => String.eqb (User.username v) n
                                     && negb (Z.eqb (User.id v) (User.id u)))
                           (users (Auth.db w))
               | None => false
               end = false).
  { destruct (Auth.new_username data) as [n|] eqn:En; [|reflexivity].
    apply existsb_false_iff. intros v Hv.
    destruct (String.eqb (User.username v) n) eqn:E; [|reflexivity].
    apply String.eqb_eq in E. rewrite (Hfree n v eq_refl Hv E), Z.eqb_refl.
    reflexivity. }
  rewrite Ht.
  destruct (JS.truthy (Auth.new_username data)); cbn; eauto.
Qed.

(** On a credential table that satisfies its constraints, a credential change
    is never answered with 500: the update it issues cannot violate the
    unique index on [username]. *)
Lemma change_credentials_not_500
      (bcrypt_compare : string -> string -> bool)
      (bcrypt_hash : string -> Z -> string)
      (w : Auth.World) (body : Auth.CredentialsBody) :
  users_ok (Auth.db w) ->
  status (fst (Auth.change_credentials bcrypt_compare bcrypt_hash body w))
  <> 500%Z.
Proof.
  intro Hok.
  unfold Auth.change_credentials, try_catch, bind, ret, Auth.on_db, query.
  destruct (Auth.logged_in (Auth.session w)) as [uid|]; [|cbn; discriminate].
  destruct (JS.truthy (Auth.currentPassword body)); cbn [negb];
    [|cbn; discriminate].
  destruct (negb (JS.truthy (Auth.newUsername body))
            && negb (JS.value_truthy (Auth.newPassword body))); [cbn; discriminate|].
  destruct (Auth.user_findUnique_id uid (Auth.db w)) as [u|] eqn:Hu;
    [|cbn; discriminate].
  destruct (bcrypt_compare _ _); cbn [negb]; [|cbn; discriminate].
  assert (Hin : In u (users (Auth.db w)) /\ User.id u = uid).
  { apply find_some in Hu. destruct Hu as (H1 & H2).
    apply Z.eqb_eq in H2. auto. }
  destruct Hin as (Hin & Hid).
  assert (Hfu : forall w', Auth.db w' = Auth.db w ->
                  Auth.user_findUnique_id (User.id u) (Auth.db w') = Some u).
  { intros w' ->. now rewrite Hid. }
  assert (Hstep : forall name : option string,
             (forall n v, name = Some n -> In v (users (Auth.db w)) ->
                          User.username v = n -> User.id v = User.id u) ->
             forall w', Auth.db w' = Auth.db w ->
             status (fst (let (o, s') :=
                            Auth.with_password bcrypt_hash u body name w' in
                          match o with
                          | Resolved a => (a, s')
                          | Rejected _ =>
                              (res_status_json 500
                                 (JError "Internal server error"), s')
                          end)) <> 500%Z).
  { intros name Hfree w' Hw'. unfold Auth.with_password.
    destruct (JS.value_truthy (Auth.newPassword body)).
    - destruct (JS.lt _ 6); [cbn; discriminate|].
      destruct (commit_resolves w' u
                  {| Auth.new_username := name;
                     Auth.new_password :=
                       Some (bcrypt_hash (JS.value_String (Auth.newPassword body))
                                         Auth.SALT_ROUNDS) |})
        as (r & w'' & -> & Hr); [now apply Hfu| |cbn; rewrite Hr; discriminate].
      rewrite Hw'. exact Hfree.
    - destruct (commit_resolves w' u
                  {| Auth.new_username := name; Auth.new_password := None |})
        as (r & w'' & -> & Hr); [now apply Hfu| |cbn; rewrite Hr; discriminate].
      rewrite Hw'. exact Hfree. }
  destruct (JS.truthy (Auth.newUsername body)).
  - cbn [Auth.db Auth.session].
    destruct (Auth.user_findUnique_username
                (JS.String_ (Auth.newUsername body)) (Auth.db w))
      as [e|] eqn:He.
    + destruct (Z.eqb (User.id e) (User.id u)) eqn:Eid; cbn [negb];
        [|cbn; discriminate].
      apply Hstep; [|reflexivity].
      intros n v [= <-] Hv Hn. apply find_some in He. destruct He as (He1 & He2).
      apply String.eqb_eq in He2. apply Z.eqb_eq in Eid. rewrite <- Eid.
      f_equal. apply (NoDup_map_eq _ _ User.username (users (Auth.db w)));
        [apply (unique_username Hok)|exact Hv|exact He1|congruence].
    + apply Hstep; [|reflexivity].
      intros n v [= <-] Hv Hn. exfalso.
      pose proof (find_none _ _ He v Hv) as Hnone. cbv beta in Hnone.
      rewrite Hn, String.eqb_refl in Hnone. discriminate.
  - apply Hstep; [|reflexivity]. intros n v [=].
Qed.

(** * Properties of the other routes *)

(** ** The list of months *)

Lemma stable_insert_perm (A : Type) (after : A -> A -> bool) (x : A)
      (l : list A) :
  Permutation (JS.stable_insert after x l) (x :: l).
Proof.
  induction l as [|y l IH]; simpl; [reflexivity|].
  destruct (after x y); [|reflexivity].
  rewrite IH. apply perm_swap.
Qed.

Lemma stable_sort_perm (A : Type) (after : A -> A -> bool) (l : list A) :
  Permutation (JS.stable_sort after l) l.
Proof.
  induction l as [|x l IH]; simpl; [reflexivity|].
  rewrite stable_insert_perm. now constructor.
Qed.

Lemma findMany_desc_descending (db : Store) :
  descending_months
    (map MonthlyData.month (Client.monthlyData_findMany_desc db)).
Proof.
  unfold Client.monthlyData_findMany_desc, descending_months.
  apply sorted_map. apply stable_sort_sorted.
  - intros a b c H1 H2. eapply leb_trans; eauto.
  - intros a b. apply ltb_leb.
  - intros a b. apply ltb_false_leb.
Qed.

(** X1. The list of months answers 200 with every stored month exactly once,
    in descending order of the keys, and writes nothing. *)
Theorem get_months_lists_all (db : Store) :
  exists months,
    Ledger.get_months db = (reply_json (PMonths months), db)
    /\ Permutation months (monthlyData db)
    /\ descending_months (map MonthlyData.month months).
Proof.
  exists (Client.monthlyData_findMany_desc db).
  split; [reflexivity|]. split.
  - apply stable_sort_perm.
  - apply findMany_desc_descending.
Qed.

(** ** Reading, creating and deleting a month *)

(** X2. On a store that satisfies its constraints, every read of a
    well-formed key answers 200 with the month of that key (never 500: the
    create cannot hit the unique index), a second read returns the same month
    without writing, and the constraints still hold. *)
Theorem get_month_read_twice (db : Store) (key : string) :
  JS.test JS.month_re key = true ->
  ledger_ok db ->
  exists m db',
    Monthly.get_month key db = (res_json (JMonth m), db')
    /\ MonthlyDataFull.month m = key
    /\ Monthly.get_month key db' = (res_json (JMonth m), db')
    /\ ledger_ok db'.
Proof.
  intros Hk Hok.
  destruct (Prisma.monthlyData_findUnique key db) as [row|] eqn:Hf.
  - exists (Prisma.include_all db row), db.
    assert (Hi : Prisma.monthlyData_findUnique_include key db =
                 Some (Prisma.include_all db row)).
    { unfold Prisma.monthlyData_findUnique_include. now rewrite Hf. }
    rewrite (get_month_existing db key _ Hk Hi).
    destruct (findUnique_key db key row Hf) as (_ & Hkey).
    split; [reflexivity|]. split; [exact Hkey|]. split; [reflexivity|exact Hok].
  - assert (Habs : forall m, In m (monthlyData db) -> MonthlyData.month m <> key).
    { intros m Hm. apply String.eqb_neq.
      exact (find_none _ _ Hf m Hm). }
    exists (created_month db key), (created_store db key).
    rewrite (get_month_absent db key Hk Hok Habs).
    split; [reflexivity|]. split; [reflexivity|]. split.
    + apply get_month_existing; [exact Hk|]. now apply created_is_stored.
    + now apply created_store_ok.
Qed.

Lemma get_month_read_twice_witness :
  exists m db',
    Monthly.get_month "2025-02" Sample.january = (res_json (JMonth m), db')
    /\ Monthly.get_month "2025-02" db' = (res_json (JMonth m), db').
Proof.
  destruct (get_month_read_twice Sample.january "2025-02" eq_refl january_ok)
    as (m & db' & H1 & _ & H2 & _).
  exists m, db'. split; assumption.
Defined.

Lemma filter_unique (A B : Type) (g : A -> B) (eqb : B -> B -> bool)
      (l : list A) (a : A) :
  (forall x y, eqb x y = true <-> x = y) ->
  NoDup (map g l) -> In a l -> filter (fun x => eqb (g x) (g a)) l = [a].
Proof.
  intros Heqb. induction l as [|x l IH]; simpl; intros Hnd Hin; [destruct Hin|].
  inversion Hnd as [|? ? Hnin Hnd']; subst.
  destruct Hin as [->|Hin].
  - assert (Hx : eqb (g a) (g a) = true) by now apply Heqb.
    rewrite Hx. f_equal. apply filter_none. intros y Hy.
    destruct (eqb (g y) (g a)) eqn:E; [|reflexivity].
    apply Heqb in E. exfalso. apply Hnin. rewrite <- E. now apply in_map.
  - destruct (eqb (g x) (g a)) eqn:E.
    + apply Heqb in E. exfalso. apply Hnin. rewrite E. now apply in_map.
    + now apply IH.
Qed.

Lemma NoDup_map_filter (A B : Type) (g : A -> B) (p : A -> bool) (l : list A) :
  NoDup (map g l) -> NoDup (map g (filter p l)).
Proof.
  induction l as [|x l IH]; simpl; intro Hnd; [constructor|].
  inversion Hnd as [|? ? Hnin Hnd']; subst.
  destruct (p x); simpl; [constructor|]; auto.
  intro Hin. apply Hnin. apply in_map_iff in Hin.
  destruct Hin as (y & Hy & Hin). apply filter_In in Hin.
  rewrite <- Hy. apply in_map. tauto.
Qed.

(** The store after the delete of the month [m] of key [key]. *)
Lemma delete_month_present (db : Store) (key : string) (m : MonthlyData.t) :
  NoDup (map MonthlyData.month (monthlyData db)) ->
  In m (monthlyData db) ->
  MonthlyData.month m = key ->
  Ledger.delete_month key db =
  (reply_json PSuccess,
   Client.with_ledger db
     (filter (fun r => negb (String.eqb (MonthlyData.month r) key))
             (monthlyData db))
     (filter (fun i => negb (Z.eqb (IncomeSource.monthlyDataId i)
                                   (MonthlyData.id m)))
             (incomeSources db))
     (filter (fun e => negb (Z.eqb (ExpenseCategory.monthlyDataId e)
                                   (MonthlyData.id m)))
             (expenseCategories db))).
Proof.
  intros Hnd Hin Hkey.
  assert (Hf : Prisma.monthlyData_findUnique key db = Some m).
  { unfold Prisma.monthlyData_findUnique. rewrite <- Hkey.
    apply (find_by_key _ _ MonthlyData.month String.eqb); auto.
    apply String.eqb_eq. }
  assert (Hg : filter (fun r => String.eqb (MonthlyData.month r) key)
                      (monthlyData db) = [m]).
  { rewrite <- Hkey.
    apply (filter_unique _ _ MonthlyData.month String.eqb); auto.
    apply String.eqb_eq. }
  unfold Ledger.delete_month, try_catch, bind, ret, Client.monthlyData_delete.
  rewrite Hf, Hg. cbn [existsb]. f_equal. f_equal.
  - apply filter_ext. intro i. rewrite orb_false_r.
    now rewrite (Z.eqb_sym (MonthlyData.id m)).
  - apply filter_ext. intro e. rewrite orb_false_r.
    now rewrite (Z.eqb_sym (MonthlyData.id m)).
Qed.

(** X3. On a store that satisfies its constraints, deleting a month that
    exists answers 200; the month row is gone, its income sources and
    expense categories are gone, every other row of the three tables stays in
    place, the key can no longer be found, and the constraints still hold. *)
Theorem delete_month_cascades (db : Store) (key : string) (m : MonthlyData.t) :
  ledger_ok db ->
  In m (monthlyData db) ->
  MonthlyData.month m = key ->
  exists db',
    Ledger.delete_month key db = (reply_json PSuccess, db')
    /\ (forall r, In r (monthlyData db') <-> In r (monthlyData db) /\ r <> m)
    /\ incomeSources db' =
       filter (fun i => negb (Z.eqb (IncomeSource.monthlyDataId i)
                                     (MonthlyData.id m)))
              (incomeSources db)
    /\ expenseCategories db' =
       filter (fun e => negb (Z.eqb (ExpenseCategory.monthlyDataId e)
                                     (MonthlyData.id m)))
              (expenseCategories db)
    /\ users db' = users db
    /\ Prisma.monthlyData_findUnique key db' = None
    /\ ledger_ok db'.
Proof.
  intros Hok Hin Hkey.
  pose proof (unique_month Hok) as Hnd.
  eexists. split; [now apply (delete_month_present db key m)|].
  cbn [Client.with_ledger monthlyData incomeSources expenseCategories users].
  assert (Hrows : forall r,
             In r (filter (fun r => negb (String.eqb (MonthlyData.month r) key))
                          (monthlyData db))
             <-> In r (monthlyData db) /\ r <> m).
  { intro r. rewrite filter_In, negb_true_iff, String.eqb_neq. split.
    - intros (Hr & Hne). split; [exact Hr|]. intros ->. now apply Hne.
    - intros (Hr & Hne). split; [exact Hr|]. intro Hk. apply Hne.
      apply (NoDup_map_eq _ _ MonthlyData.month (monthlyData db)); auto.
      congruence. }
  split; [exact Hrows|]. split; [reflexivity|]. split; [reflexivity|].
  split; [reflexivity|]. split.
  { apply find_none_iff. intros r Hr. cbn [monthlyData] in Hr.
    apply filter_In in Hr. destruct Hr as (_ & Hr).
    now apply negb_true_iff in Hr. }
  constructor; cbn [Client.with_ledger monthlyData incomeSources
                    expenseCategories monthlyData_seq].
  - now apply NoDup_map_filter.
  - intros r Hr. apply filter_In in Hr. now apply (month_id_used Hok).
  - intros i Hi. apply filter_In in Hi. destruct Hi as (Hi & Hne).
    destruct (income_fk Hok i Hi) as (r & Hr & Hid).
    exists r. split; [|exact Hid]. apply Hrows. split; [exact Hr|].
    intros ->. rewrite Hid, Z.eqb_refl in Hne. discriminate.
  - intros e He. apply filter_In in He. destruct He as (He & Hne).
    destruct (expense_fk Hok e He) as (r & Hr & Hid).
    exists r. split; [|exact Hid]. apply Hrows. split; [exact Hr|].
    intros ->. rewrite Hid, Z.eqb_refl in Hne. discriminate.
Qed.

Lemma delete_month_cascades_witness :
  exists db',
    Ledger.delete_month "2025-01" Sample.january = (reply_json PSuccess, db')
    /\ incomeSources db' = [] /\ expenseCategories db' = [].
Proof.
  destruct (delete_month_cascades Sample.january "2025-01"
              (Sample.month 1 "2025-01") january_ok (or_introl eq_refl) eq_refl)
    as (db' & Hdel & _ & Hi & He & _).
  exists db'. split; [exact Hdel|]. rewrite Hi, He. split; reflexivity.
Defined.

(** X4. Deleting a month whose key no row has answers 500 with
    "Failed to delete month" (there is no 404 on this route, and the key's
    format is not looked at) and leaves the store as it was. *)
Theorem delete_month_missing (db : Store) (key : string) :
  (forall m, In m (monthlyData db) -> MonthlyData.month m <> key) ->
  Ledger.delete_month key db = (reply_error 500 "Failed to delete month", db).
Proof.
  intro Habs.
  unfold Ledger.delete_month, try_catch, bind, ret, Client.monthlyData_delete.
  now rewrite (absent_findUnique db key Habs).
Qed.

Lemma delete_month_missing_witness :
  Ledger.delete_month "2024-12" Sample.january =
  (reply_error 500 "Failed to delete month", Sample.january).
Proof.
  apply (delete_month_missing Sample.january "2024-12").
  intros m [<-|[]]. discriminate.
Defined.

(** X5. On a store that satisfies its constraints, the first read of an
    absent well-formed key followed by the delete of that key gives back the
    rows the store had: creation and cascade undo each other, only the id
    sequences have moved on. *)
Theorem create_then_delete_restores (db : Store) (key : string) :
  JS.test JS.month_re key = true ->
  ledger_ok db ->
  (forall m, In m (monthlyData db) -> MonthlyData.month m <> key) ->
  exists db',
    Ledger.delete_month key (snd (Monthly.get_month key db)) =
      (reply_json PSuccess, db')
    /\ same_rows db' db.
Proof.
  intros Hk Hok Habs. rewrite (get_month_absent db key Hk Hok Habs).
  cbn [snd].
  set (new := {| MonthlyData.id := monthlyData_seq db;
                 MonthlyData.month := key |}).
  assert (Hok' : ledger_ok (created_store db key))
    by now apply created_store_ok.
  eexists. split.
  { apply (delete_month_present (created_store db key) key new).
    - apply (unique_month Hok').
    - cbn [created_store monthlyData]. apply in_or_app. right. now left.
    - reflexivity. }
  unfold same_rows.
  cbn [Client.with_ledger created_store users monthlyData incomeSources
       expenseCategories MonthlyData.id new].
  split; [reflexivity|]. split; [|split].
  - rewrite filter_app. cbn [filter MonthlyData.month].
    rewrite String.eqb_refl. cbn [negb]. rewrite app_nil_r.
    apply filter_all. intros m Hm. apply negb_true_iff, String.eqb_neq.
    now apply Habs.
  - apply filter_all. intros i Hi. apply negb_true_iff, Z.eqb_neq.
    destruct (income_fk Hok i Hi) as (m & Hm & <-).
    pose proof (month_id_used Hok m Hm). lia.
  - rewrite filter_app.
    rewrite (filter_none _ _ (Prisma.new_categories _ _ _)).
    + rewrite app_nil_r. apply filter_all. intros e He.
      apply negb_true_iff, Z.eqb_neq.
      destruct (expense_fk Hok e He) as (m & Hm & <-).
      pose proof (month_id_used Hok m Hm). lia.
    + intros e He. apply negb_false_iff, Z.eqb_eq.
      eapply new_categories_owner; eauto.
Qed.

Lemma create_then_delete_restores_witness :
  exists db',
    Ledger.delete_month "2025-02" (snd (Monthly.get_month "2025-02" Sample.january))
    = (reply_json PSuccess, db')
    /\ monthlyData db' = monthlyData Sample.january.
Proof.
  destruct (create_then_delete_restores Sample.january "2025-02" eq_refl
              january_ok) as (db' & Hdel & _ & Hm & _).
  - intros m [<-|[]]. discriminate.
  - exists db'. split; assumption.
Defined.

(** ** Income sources and expense categories *)

(** X6. Adding an income source or an expense category to a month that does
    not exist answers 404 with "Month not found" and writes nothing; the key's
    format plays no part. *)
Theorem post_to_missing_month (d : Db) (key : string)
        (income : Ledger.IncomeBody) (expense : Monthly.ExpenseBody) :
  (forall m, In m (monthlyData (tables d)) -> MonthlyData.month m <> key) ->
  Ledger.post_income key income d = (reply_error 404 "Month not found", d)
  /\ Monthly.post_expense key expense (tables d) =
     (res_status_json 404 (JError "Month not found"), tables d).
Proof.
  intro Habs. split.
  - unfold Ledger.post_income, try_catch, bind, query, ret.
    now rewrite (absent_findUnique (tables d) key Habs).
  - unfold Monthly.post_expense, try_catch, bind, query, ret.
    now rewrite (absent_findUnique (tables d) key Habs).
Qed.

Lemma post_to_missing_month_witness :
  code (fst (Ledger.post_income "2025-09"
               {| Ledger.body_name := Some "Bonus";
                  Ledger.body_expected := Some 10;
                  Ledger.body_actual := None |}
               {| tables := Sample.january; incomeSource_seq := 2 |})) = 404%Z.
Proof.
  destruct (post_to_missing_month
              {| tables := Sample.january; incomeSource_seq := 2 |} "2025-09"
              {| Ledger.body_name := Some "Bonus";
                 Ledger.body_expected := Some 10;
                 Ledger.body_actual := None |}
              {| Monthly.body_name := None;
                 Monthly.body_budgeted := None;
                 Monthly.body_actual := None;
                 Monthly.body_isPaid := None;
                 Monthly.body_showPaidStatus := None |}) as (H & _).
  - intros m [<-|[]]. discriminate.
  - rewrite H. reflexivity.
Defined.

Lemma decimal_or_zero_near (v : option Q) (q b : Q) :
  v = Some q ->
  Schema.DECIMAL_10_2 (Ledger.decimal_or_zero v) = Some b ->
  Qabs (b - q) <= 1 # 200.
Proof.
  intros -> Hb. destruct (DECIMAL_10_2_spec _ _ Hb) as (_ & _ & Hnear).
  assert (Heq : Qabs (b - q) == Qabs (b - Ledger.decimal_or_zero (Some q))).
  { apply Qabs_wd. apply Qplus_comp; [reflexivity|]. apply Qopp_comp.
    unfold Ledger.decimal_or_zero, JS.or_number.
    destruct (Qeq_bool q 0) eqn:E; [|reflexivity].
    apply Qeq_bool_iff in E. now rewrite E. }
  now rewrite Heq.
Qed.

(** X7. Adding an income source to a month that exists either appends one
    row owned by that month, with the next id of the sequence, and answers
    200, or - when expected or actual does not fit its DECIMAL(10,2) column -
    writes no row and answers 500.  The name of the new row is the body's
    name, or "New Income" when that is absent or empty; expected and actual
    are what the columns make of the body's numbers (rounded to the nearest
    cent), or 0 when absent; the other tables are untouched and the
    constraints still hold. *)
Theorem post_income_creates (d : Db) (key : string) (body : Ledger.IncomeBody)
        (m : MonthlyData.t) :
  ledger_ok (tables d) ->
  In m (monthlyData (tables d)) ->
  MonthlyData.month m = key ->
  (forall e a,
      Schema.DECIMAL_10_2 (Ledger.decimal_or_zero (Ledger.body_expected body))
      = Some e ->
      Schema.DECIMAL_10_2 (Ledger.decimal_or_zero (Ledger.body_actual body))
      = Some a ->
      exists i d',
        Ledger.post_income key body d = (reply_json (PIncome i), d')
        /\ incomeSources (tables d') = incomeSources (tables d) ++ [i]
        /\ monthlyData (tables d') = monthlyData (tables d)
        /\ expenseCategories (tables d') = expenseCategories (tables d)
        /\ IncomeSource.id i = incomeSource_seq d
        /\ incomeSource_seq d' = (incomeSource_seq d + 1)%Z
        /\ IncomeSource.monthlyDataId i = MonthlyData.id m
        /\ (Ledger.body_name body = None \/ Ledger.body_name body = Some "" ->
            IncomeSource.name i = "New Income")
        /\ (forall n, Ledger.body_name body = Some n -> n <> "" ->
                      IncomeSource.name i = n)
        /\ IncomeSource.expected i = e
        /\ IncomeSource.actual i = a
        /\ (Ledger.body_expected body = None -> e = 0)
        /\ (forall q, Ledger.body_expected body = Some q ->
                      Qabs (e - q) <= 1 # 200)
        /\ (Ledger.body_actual body = None -> a = 0)
        /\ (forall q, Ledger.body_actual body = Some q ->
                      Qabs (a - q) <= 1 # 200)
        /\ ledger_ok (tables d'))
  /\ (Schema.DECIMAL_10_2 (Ledger.decimal_or_zero (Ledger.body_expected body))
      = None
      \/ Schema.DECIMAL_10_2 (Ledger.decimal_or_zero (Ledger.body_actual body))
         = None ->
      exists d',
        Ledger.post_income key body d =
          (reply_error 500 "Failed to add income", d')
        /\ same_rows (tables d') (tables d)).
Proof.
  intros Hok Hin Hkey.
  assert (Hf : Prisma.monthlyData_findUnique key (tables d) = Some m).
  { unfold Prisma.monthlyData_findUnique. rewrite <- Hkey.
    apply (find_by_key _ _ MonthlyData.month String.eqb);
      [apply String.eqb_eq|apply (unique_month Hok)|exact Hin]. }
  assert (Hfk : existsb (fun r => Z.eqb (MonthlyData.id r) (MonthlyData.id m))
                        (monthlyData (tables d)) = true).
  { apply existsb_exists. exists m. split; [exact Hin|apply Z.eqb_refl]. }
  unfold Ledger.post_income, try_catch, bind, query, ret.
  rewrite Hf. unfold Client.incomeSource_create. split.
  - intros e a He Ha. rewrite He, Ha, Hfk.
    eexists. eexists. split; [reflexivity|].
    cbn [tables incomeSource_seq Client.with_ledger incomeSources monthlyData
         expenseCategories IncomeSource.id IncomeSource.monthlyDataId
         IncomeSource.name IncomeSource.expected IncomeSource.actual].
    repeat match goal with |- _ /\ _ => split end; try reflexivity.
    + intros [H|H]; rewrite H; reflexivity.
    + intros n H Hn. rewrite H. destruct n; [congruence|reflexivity].
    + intro H. rewrite H in He. cbn in He. now injection He as <-.
    + intros q H. now apply (decimal_or_zero_near _ q e H).
    + intro H. rewrite H in Ha. cbn in Ha. now injection Ha as <-.
    + intros q H. now apply (decimal_or_zero_near _ q a H).
    + constructor; cbn [Client.with_ledger monthlyData incomeSources
                        expenseCategories monthlyData_seq].
      * apply (unique_month Hok).
      * apply (month_id_used Hok).
      * intros i Hi. apply in_app_or in Hi. destruct Hi as [Hi|[<-|[]]].
        -- now apply (income_fk Hok).
        -- exists m. auto.
      * apply (expense_fk Hok).
  - intro Hover. exists d. split; [|repeat split].
    destruct Hover as [-> | Ha]; [reflexivity|].
    rewrite Ha.
    now destruct (Schema.DECIMAL_10_2
                    (Ledger.decimal_or_zero (Ledger.body_expected body))).
Qed.

Lemma post_income_creates_witness :
  Schema.DECIMAL_10_2 75 = Some 75
  /\ exists i d',
      Ledger.post_income "2025-01"
        {| Ledger.body_name := None; Ledger.body_expected := Some 75;
           Ledger.body_actual := None |}
        {| tables := Sample.january; incomeSource_seq := 2 |}
      = (reply_json (PIncome i), d')
      /\ IncomeSource.name i = "New Income" /\ IncomeSource.id i = 2%Z
      /\ IncomeSource.expected i = 75 /\ IncomeSource.actual i = 0.
Proof.
  split; [reflexivity|].
  destruct (proj1 (post_income_creates
                     {| tables := Sample.january; incomeSource_seq := 2 |}
                     "2025-01"
                     {| Ledger.body_name := None;
                        Ledger.body_expected := Some 75;
                        Ledger.body_actual := None |}
                     (Sample.month 1 "2025-01") january_ok
                     (or_introl eq_refl) eq_refl)
              75 0 eq_refl eq_refl)
    as (i & d' & Hpost & _ & _ & _ & Hid & _ & _ & Hname & _ & He & Ha & _).
  exists i, d'. split; [exact Hpost|]. split; [|auto].
  apply Hname. now left.
Defined.

Lemma find_append (A : Type) (p : A -> bool) (l1 l2 : list A) :
  find p (l1 ++ l2) =
  match find p l1 with Some x => Some x | None => find p l2 end.
Proof.
  induction l1 as [|x l1 IH]; simpl; [reflexivity|].
  destruct (p x); [reflexivity|exact IH].
Qed.

(** The new version of an updated row is found by its id, behind the rows
    that were not touched. *)
Lemma moved_row_found (A : Type) (p : A -> bool) (l : list A) (x : A) :
  p x = true -> find p (filter (fun r => negb (p r)) l ++ [x]) = Some x.
Proof.
  intro Hx. rewrite find_append.
  assert (H : find p (filter (fun r => negb (p r)) l) = None).
  { apply find_none_iff. intros y Hy. apply filter_In in Hy.
    destruct Hy as (_ & Hy). now apply negb_true_iff in Hy. }
  rewrite H. cbn [find]. now rewrite Hx.
Qed.

Lemma moved_row_others (A : Type) (p : A -> bool) (l : list A) (x : A) :
  p x = true ->
  filter (fun r => negb (p r)) (filter (fun r => negb (p r)) l ++ [x])
  = filter (fun r => negb (p r)) l.
Proof.
  intro Hx. rewrite filter_app. cbn [filter]. rewrite Hx. cbn [negb].
  rewrite app_nil_r. apply filter_all. intros y Hy.
  apply filter_In in Hy. tauto.
Qed.

Lemma or_keep_twice (A : Type) (o : option A) (x : A) :
  Client.or_keep o (Client.or_keep o x) = Client.or_keep o x.
Proof. destruct o; reflexivity. Qed.

Lemma apply_expense_twice (cols : Client.ExpenseColumns)
      (e : ExpenseCategory.t) :
  Client.apply_expense cols (Client.apply_expense cols e) =
  Client.apply_expense cols e.
Proof.
  unfold Client.apply_expense. cbn. now rewrite !or_keep_twice.
Qed.

Lemma apply_income_twice (cols : Client.IncomeColumns) (i : IncomeSource.t) :
  Client.apply_income cols (Client.apply_income cols i) =
  Client.apply_income cols i.
Proof.
  unfold Client.apply_income. cbn. now rewrite !or_keep_twice.
Qed.

(** What a column takes from an amount of the body, or from the one
    [Object.prototype] holds in its place. *)
Lemma written_read_amount (polluted : bool) (own : option Q) :
  Client.written (JS.read_amount polluted own) =
  match own with
  | Some q => option_map Some (Schema.DECIMAL_10_2 q)
  | None => if polluted then None else Some None
  end.
Proof. destruct own as [q|], polluted; reflexivity. Qed.

(** The update of an expense category whose id exists, once the columns
    have taken their values. *)
Lemma patch_expense_found (parseInt : string -> option Z) (polluted : bool)
      (db : Store) (id : string) (n : Z) (body : Monthly.ExpenseBody)
      (cols : Client.ExpenseColumns) (e : ExpenseCategory.t) :
  parseInt id = Some n ->
  Client.expense_columns (Ledger.expense_updateData polluted body) = Some cols ->
  find (fun r => Z.eqb (ExpenseCategory.id r) n) (expenseCategories db)
  = Some e ->
  Ledger.patch_expense parseInt polluted id body db =
  (reply_json (PJson (JExpense (Client.apply_expense cols e))),
   Client.with_ledger db (monthlyData db) (incomeSources db)
     (filter (fun r => negb (Z.eqb (ExpenseCategory.id r) n))
             (expenseCategories db)
      ++ [Client.apply_expense cols e])).
Proof.
  intros Hp Hc Hf.
  unfold Ledger.patch_expense, try_catch, bind, ret,
    Client.expenseCategory_update.
  now rewrite Hp, Hc, Hf.
Qed.

Lemma patch_income_found (parseInt : string -> option Z) (polluted : bool)
      (db : Store) (id : string) (n : Z) (body : Ledger.IncomeBody)
      (cols : Client.IncomeColumns) (i : IncomeSource.t) :
  parseInt id = Some n ->
  Client.income_columns (Ledger.income_updateData polluted body) = Some cols ->
  find (fun r => Z.eqb (IncomeSource.id r) n) (incomeSources db) = Some i ->
  Ledger.patch_income parseInt polluted id body db =
  (reply_json (PIncome (Client.apply_income cols i)),
   Client.with_ledger db (monthlyData db)
     (filter (fun r => negb (Z.eqb (IncomeSource.id r) n)) (incomeSources db)
      ++ [Client.apply_income cols i])
     (expenseCategories db)).
Proof.
  intros Hp Hc Hf.
  unfold Ledger.patch_income, try_catch, bind, ret,
    Client.incomeSource_update.
  now rewrite Hp, Hc, Hf.
Qed.

(** An update that is not carried out: the id is not a number, an amount
    is refused, or no row has the id. *)
Lemma patch_expense_refused (parseInt : string -> option Z) (polluted : bool)
      (db : Store) (id : string) (body : Monthly.ExpenseBody) :
  parseInt id = None
  \/ Client.expense_columns (Ledger.expense_updateData polluted body) = None
  \/ (exists n, parseInt id = Some n
                /\ find (fun r => Z.eqb (ExpenseCategory.id r) n)
                        (expenseCategories db) = None) ->
  Ledger.patch_expense parseInt polluted id body db =
  (reply_error 500 "Failed to update expense", db).
Proof.
  unfold Ledger.patch_expense, try_catch, bind, ret,
    Client.expenseCategory_update.
  intros [-> |[Hc|(n & -> & Hf)]]; [reflexivity| |].
  - rewrite Hc. now destruct (parseInt id).
  - rewrite Hf.
    now destruct (Client.expense_columns
                    (Ledger.expense_updateData polluted body)).
Qed.

Lemma patch_income_refused (parseInt : string -> option Z) (polluted : bool)
      (db : Store) (id : string) (body : Ledger.IncomeBody) :
  parseInt id = None
  \/ Client.income_columns (Ledger.income_updateData polluted body) = None
  \/ (exists n, parseInt id = Some n
                /\ find (fun r => Z.eqb (IncomeSource.id r) n)
                        (incomeSources db) = None) ->
  Ledger.patch_income parseInt polluted id body db =
  (reply_error 500 "Failed to update income", db).
Proof.
  unfold Ledger.patch_income, try_catch, bind, ret,
    Client.incomeSource_update.
  intros [-> |[Hc|(n & -> & Hf)]]; [reflexivity| |].
  - rewrite Hc. now destruct (parseInt id).
  - rewrite Hf.
    now destruct (Client.income_columns
                    (Ledger.income_updateData polluted body)).
Qed.

(** X8. A partial update of an expense category whose id exists, made while
    [Object.prototype] is as the runtime made it and with amounts that fit
    their columns, answers 200 with the updated row: each field the body
    supplies takes the body's value (an amount as its DECIMAL(10,2) column
    rounds it), each field it leaves out keeps the stored value, id and
    owning month never change; the table then holds the updated row and the
    other rows as they were, in whatever order; the other tables are
    untouched and the constraints still hold.  When an amount does not fit
    its column, or is left out after a yearly summary has written [budgeted]
    and [actual] to [Object.prototype], the answer is 500 and nothing is
    written. *)
Theorem patch_expense_partial (parseInt : string -> option Z)
        (polluted : bool) (db : Store)
        (id : string) (n : Z) (body : Monthly.ExpenseBody)
        (e : ExpenseCategory.t) :
  parseInt id = Some n ->
  NoDup (map ExpenseCategory.id (expenseCategories db)) ->
  In e (expenseCategories db) ->
  ExpenseCategory.id e = n ->
  (polluted = false ->
   (forall q, Monthly.body_budgeted body = Some q ->
              Schema.DECIMAL_10_2 q <> None) ->
   (forall q, Monthly.body_actual body = Some q ->
              Schema.DECIMAL_10_2 q <> None) ->
   exists e' db',
     Ledger.patch_expense parseInt polluted id body db =
       (reply_json (PJson (JExpense e')), db')
     /\ ExpenseCategory.id e' = n
     /\ ExpenseCategory.monthlyDataId e' = ExpenseCategory.monthlyDataId e
     /\ ExpenseCategory.name e' =
        match Monthly.body_name body with
        | Some v => v | None => ExpenseCategory.name e end
     /\ match Monthly.body_budgeted body with
        | Some q => Schema.DECIMAL_10_2 q = Some (ExpenseCategory.budgeted e')
        | None => ExpenseCategory.budgeted e' = ExpenseCategory.budgeted e
        end
     /\ match Monthly.body_actual body with
        | Some q => Schema.DECIMAL_10_2 q = Some (ExpenseCategory.actual e')
        | None => ExpenseCategory.actual e' = ExpenseCategory.actual e
        end
     /\ ExpenseCategory.isPaid e' =
        match Monthly.body_isPaid body with
        | Some v => v | None => ExpenseCategory.isPaid e end
     /\ ExpenseCategory.showPaidStatus e' =
        match Monthly.body_showPaidStatus body with
        | Some v => v | None => ExpenseCategory.showPaidStatus e end
     /\ Permutation
          (expenseCategories db')
          (e' :: filter (fun r => negb (Z.eqb (ExpenseCategory.id r) n))
                        (expenseCategories db))
     /\ monthlyData db' = monthlyData db
     /\ incomeSources db' = incomeSources db
     /\ users db' = users db
     /\ (ledger_ok db -> ledger_ok db'))
  /\ ((exists q, (Monthly.body_budgeted body = Some q
                  \/ Monthly.body_actual body = Some q)
                 /\ Schema.DECIMAL_10_2 q = None)
      \/ (polluted = true
          /\ (Monthly.body_budgeted body = None
              \/ Monthly.body_actual body = None)) ->
      Ledger.patch_expense parseInt polluted id body db =
      (reply_error 500 "Failed to update expense", db)).
Proof.
  intros Hp Hnd Hin Hid.
  assert (Hf : find (fun r => Z.eqb (ExpenseCategory.id r) n)
                    (expenseCategories db) = Some e).
  { rewrite <- Hid.
    apply (find_by_key _ _ ExpenseCategory.id Z.eqb); auto. apply Z.eqb_eq. }
  split.
  - intros -> Hb Ha.
    destruct (Client.expense_columns (Ledger.expense_updateData false body))
      as [cols|] eqn:Hc.
    2:{ exfalso. unfold Client.expense_columns, Ledger.expense_updateData in Hc.
        cbn [Client.exp_budgeted Client.exp_actual] in Hc.
        rewrite !written_read_amount in Hc.
        destruct (Monthly.body_budgeted body) as [qb|] eqn:Eb;
          destruct (Monthly.body_actual body) as [qa|] eqn:Ea;
          try (specialize (Hb qb eq_refl)); try (specialize (Ha qa eq_refl));
          repeat match goal with
                 | H : ?x <> None |- _ =>
                     destruct x; [clear H|now contradiction H]
                 end; discriminate Hc. }
    rewrite (patch_expense_found parseInt false db id n body cols e Hp Hc Hf).
    exists (Client.apply_expense cols e). eexists. split; [reflexivity|].
    unfold Client.expense_columns, Ledger.expense_updateData in Hc.
    cbn [Client.exp_budgeted Client.exp_actual Client.exp_name
         Client.exp_isPaid Client.exp_showPaidStatus] in Hc.
    rewrite !written_read_amount in Hc.
    cbn [Client.with_ledger expenseCategories monthlyData incomeSources users].
    assert (Hcols :
              Client.set_name cols = Monthly.body_name body
              /\ Client.set_isPaid cols = Monthly.body_isPaid body
              /\ Client.set_showPaidStatus cols = Monthly.body_showPaidStatus body
              /\ match Monthly.body_budgeted body with
                 | Some q => option_map Some (Schema.DECIMAL_10_2 q)
                             = Some (Client.set_budgeted cols)
                 | None => Client.set_budgeted cols = None
                 end
              /\ match Monthly.body_actual body with
                 | Some q => option_map Some (Schema.DECIMAL_10_2 q)
                             = Some (Client.set_actual cols)
                 | None => Client.set_actual cols = None
                 end).
    { destruct (Monthly.body_budgeted body) as [qb|];
        destruct (Monthly.body_actual body) as [qa|];
        repeat match type of Hc with
               | context [Schema.DECIMAL_10_2 ?q] =>
                   destruct (Schema.DECIMAL_10_2 q); cbn in Hc
               end;
        try discriminate Hc; injection Hc as <-; cbn; auto. }
    destruct Hcols as (Hn & Hpd & Hsh & Hbud & Hact).
    repeat match goal with |- _ /\ _ => split end;
      cbn [Client.apply_expense ExpenseCategory.id ExpenseCategory.name
           ExpenseCategory.monthlyDataId ExpenseCategory.isPaid
           ExpenseCategory.showPaidStatus ExpenseCategory.budgeted
           ExpenseCategory.actual];
      try reflexivity; try assumption.
    + rewrite Hn. now destruct (Monthly.body_name body).
    + destruct (Monthly.body_budgeted body) as [qb|].
      * destruct (Schema.DECIMAL_10_2 qb); [|discriminate Hbud].
        injection Hbud as <-. reflexivity.
      * now rewrite Hbud.
    + destruct (Monthly.body_actual body) as [qa|].
      * destruct (Schema.DECIMAL_10_2 qa); [|discriminate Hact].
        injection Hact as <-. reflexivity.
      * now rewrite Hact.
    + rewrite Hpd. now destruct (Monthly.body_isPaid body).
    + rewrite Hsh. now destruct (Monthly.body_showPaidStatus body).
    + apply Permutation_sym, Permutation_cons_append.
    + intro Hok. destruct (expense_fk Hok e Hin) as (m & Hm & Hmid).
      constructor;
        cbn [Client.with_ledger monthlyData incomeSources expenseCategories
             monthlyData_seq].
      * apply (unique_month Hok).
      * apply (month_id_used Hok).
      * apply (income_fk Hok).
      * intros x Hx. apply in_app_or in Hx. destruct Hx as [Hx|[<-|[]]].
        -- apply filter_In in Hx. now apply (expense_fk Hok).
        -- exists m. auto.
  - intro Hbad. apply patch_expense_refused. right. left.
    unfold Client.expense_columns, Ledger.expense_updateData.
    cbn [Client.exp_budgeted Client.exp_actual].
    rewrite !written_read_amount.
    destruct Hbad as [(q & [Hq|Hq] & Hover)|(-> & [Hq|Hq])]; rewrite Hq.
    + now rewrite Hover.
    + rewrite Hover.
      destruct (Monthly.body_budgeted body) as [qb|];
        [destruct (Schema.DECIMAL_10_2 qb)|destruct polluted]; reflexivity.
    + reflexivity.
    + destruct (Monthly.body_budgeted body) as [qb|];
        [destruct (Schema.DECIMAL_10_2 qb)|]; reflexivity.
Qed.

Lemma patch_expense_partial_witness :
  exists e' db',
    Ledger.patch_expense Sample2.parseInt false "2"
      {| Monthly.body_name := None; Monthly.body_budgeted := None;
         Monthly.body_actual := Some 395; Monthly.body_isPaid := Some true;
         Monthly.body_showPaidStatus := None |}
      Sample.january = (reply_json (PJson (JExpense e')), db')
    /\ ExpenseCategory.name e' = "Groceries"
    /\ ExpenseCategory.budgeted e' = 400
    /\ Schema.DECIMAL_10_2 395 = Some (ExpenseCategory.actual e')
    /\ ExpenseCategory.isPaid e' = true
    /\ ExpenseCategory.showPaidStatus e' = false.
Proof.
  destruct (proj1 (patch_expense_partial Sample2.parseInt false Sample.january
                     "2" 2
                     {| Monthly.body_name := None;
                        Monthly.body_budgeted := None;
                        Monthly.body_actual := Some 395;
                        Monthly.body_isPaid := Some true;
                        Monthly.body_showPaidStatus := None |}
                     (Sample.expense 2 "Groceries" 400 380 false false 1)
                     eq_refl
                     ltac:(simpl; repeat constructor; simpl;
                           intuition discriminate)
                     (or_intror (or_introl eq_refl)) eq_refl)
              eq_refl)
    as (e' & db' & Hpatch & _ & _ & Hn & Hb & Ha & Hp & Hs & _).
  - intros q [=].
  - intros q [= <-]. discriminate.
  - exists e', db'. split; [exact Hpatch|]. cbn in Hn, Hb, Ha, Hp, Hs. auto.
Defined.

(** X9. A partial update is idempotent: sending the same update of an
    expense category or of an income source a second time gives the same
    answer and leaves the store as the first one left it. *)
Theorem patch_twice (parseInt : string -> option Z) (polluted : bool)
        (db : Store) (id : string)
        (expense : Monthly.ExpenseBody) (income : Ledger.IncomeBody) :
  Ledger.patch_expense parseInt polluted id expense
    (snd (Ledger.patch_expense parseInt polluted id expense db))
  = Ledger.patch_expense parseInt polluted id expense db
  /\ Ledger.patch_income parseInt polluted id income
       (snd (Ledger.patch_income parseInt polluted id income db))
     = Ledger.patch_income parseInt polluted id income db.
Proof.
  split.
  - destruct (parseInt id) as [n|] eqn:Hp.
    2:{ now rewrite !patch_expense_refused by now left. }
    destruct (Client.expense_columns
                (Ledger.expense_updateData polluted expense))
      as [cols|] eqn:Hc.
    2:{ now rewrite !patch_expense_refused by (right; now left). }
    destruct (find (fun r => Z.eqb (ExpenseCategory.id r) n)
                   (expenseCategories db)) as [e|] eqn:Hf.
    2:{ assert (H : Ledger.patch_expense parseInt polluted id expense db =
                    (reply_error 500 "Failed to update expense", db))
          by (apply patch_expense_refused; right; right; now exists n).
        rewrite H. cbn [snd]. exact H. }
    rewrite (patch_expense_found parseInt polluted db id n expense cols e
               Hp Hc Hf).
    cbn [snd].
    assert (Hid : Z.eqb (ExpenseCategory.id (Client.apply_expense cols e)) n
                  = true).
    { apply find_some in Hf. exact (proj2 Hf). }
    rewrite (patch_expense_found parseInt polluted _ id n expense cols
               (Client.apply_expense cols e) Hp Hc).
    + rewrite apply_expense_twice. f_equal.
      cbn [Client.with_ledger expenseCategories monthlyData incomeSources
           users monthlyData_seq expenseCategory_seq].
      unfold Client.with_ledger. f_equal.
      now rewrite (moved_row_others _
                     (fun r => Z.eqb (ExpenseCategory.id r) n)).
    + cbn [Client.with_ledger expenseCategories].
      now apply (moved_row_found _ (fun r => Z.eqb (ExpenseCategory.id r) n)).
  - destruct (parseInt id) as [n|] eqn:Hp.
    2:{ now rewrite !patch_income_refused by now left. }
    destruct (Client.income_columns
                (Ledger.income_updateData polluted income))
      as [cols|] eqn:Hc.
    2:{ now rewrite !patch_income_refused by (right; now left). }
    destruct (find (fun r => Z.eqb (IncomeSource.id r) n)
                   (incomeSources db)) as [i|] eqn:Hf.
    2:{ assert (H : Ledger.patch_income parseInt polluted id income db =
                    (reply_error 500 "Failed to update income", db))
          by (apply patch_income_refused; right; right; now exists n).
        rewrite H. cbn [snd]. exact H. }
    rewrite (patch_income_found parseInt polluted db id n income cols i
               Hp Hc Hf).
    cbn [snd].
    assert (Hid : Z.eqb (IncomeSource.id (Client.apply_income cols i)) n
                  = true).
    { apply find_some in Hf. exact (proj2 Hf). }
    rewrite (patch_income_found parseInt polluted _ id n income cols
               (Client.apply_income cols i) Hp Hc).
    + rewrite apply_income_twice. f_equal.
      cbn [Client.with_ledger expenseCategories monthlyData incomeSources
           users monthlyData_seq expenseCategory_seq].
      unfold Client.with_ledger. f_equal.
      now rewrite (moved_row_others _ (fun r => Z.eqb (IncomeSource.id r) n)).
    + cbn [Client.with_ledger incomeSources].
      now apply (moved_row_found _ (fun r => Z.eqb (IncomeSource.id r) n)).
Qed.

(** X10. On the four routes that take a row id, an id that does not parse
    to a number, or that no row has, is answered 500 (there is no 404) and
    nothing is written. *)
Theorem unknown_id_is_500 (parseInt : string -> option Z) (polluted : bool)
        (db : Store)
        (id : string) (expense : Monthly.ExpenseBody)
        (income : Ledger.IncomeBody) :
  (parseInt id = None
   \/ exists n, parseInt id = Some n
        /\ (forall e, In e (expenseCategories db) -> ExpenseCategory.id e <> n)
        /\ (forall i, In i (incomeSources db) -> IncomeSource.id i <> n)) ->
  Ledger.patch_expense parseInt polluted id expense db =
    (reply_error 500 "Failed to update expense", db)
  /\ Ledger.delete_expense parseInt id db =
    (reply_error 500 "Failed to delete expense", db)
  /\ Ledger.patch_income parseInt polluted id income db =
    (reply_error 500 "Failed to update income", db)
  /\ Ledger.delete_income parseInt id db =
    (reply_error 500 "Failed to delete income", db).
Proof.
  intros [Hnan|(n & Hn & He & Hi)].
  - rewrite patch_expense_refused, patch_income_refused by now left.
    unfold Ledger.delete_expense, Ledger.delete_income, try_catch, bind, ret,
      Client.expenseCategory_delete, Client.incomeSource_delete.
    rewrite Hnan. repeat split.
  - assert (H1 : find (fun e => Z.eqb (ExpenseCategory.id e) n)
                      (expenseCategories db) = None).
    { apply find_none_iff. intros e Hin. apply Z.eqb_neq. now apply He. }
    assert (H2 : find (fun i => Z.eqb (IncomeSource.id i) n)
                      (incomeSources db) = None).
    { apply find_none_iff. intros i Hin. apply Z.eqb_neq. now apply Hi. }
    rewrite patch_expense_refused by (right; right; now exists n).
    rewrite patch_income_refused by (right; right; now exists n).
    unfold Ledger.delete_expense, Ledger.delete_income, try_catch, bind, ret,
      Client.expenseCategory_delete, Client.incomeSource_delete.
    rewrite Hn, H1, H2. repeat split.
Qed.

Lemma unknown_id_is_500_witness :
  Ledger.delete_expense Sample2.parseInt "abc" Sample.january =
    (reply_error 500 "Failed to delete expense", Sample.january)
  /\ Ledger.delete_expense Sample2.parseInt "7" Sample.january =
    (reply_error 500 "Failed to delete expense", Sample.january).
Proof.
  split.
  - apply (unknown_id_is_500 Sample2.parseInt false Sample.january "abc"
             {| Monthly.body_name := None; Monthly.body_budgeted := None;
                Monthly.body_actual := None; Monthly.body_isPaid := None;
                Monthly.body_showPaidStatus := None |}
             {| Ledger.body_name := None; Ledger.body_expected := None;
                Ledger.body_actual := None |}).
    now left.
  - apply (unknown_id_is_500 Sample2.parseInt false Sample.january "7"
             {| Monthly.body_name := None; Monthly.body_budgeted := None;
                Monthly.body_actual := None; Monthly.body_isPaid := None;
                Monthly.body_showPaidStatus := None |}
             {| Ledger.body_name := None; Ledger.body_expected := None;
                Ledger.body_actual := None |}).
    right. exists 7%Z. split; [reflexivity|]. split.
    + intros e [<-|[<-|[]]]; discriminate.
    + intros i [<-|[]]; discriminate.
Defined.

(** X11. Deleting an expense category, or an income source, whose id exists
    answers 200 and takes away the rows with that id and nothing else; the
    months and the other table are untouched and the constraints still
    hold. *)
Theorem delete_row_removes_it (parseInt : string -> option Z) (db : Store)
        (id : string) (n : Z) :
  parseInt id = Some n ->
  ((exists e, In e (expenseCategories db) /\ ExpenseCategory.id e = n) ->
   exists db',
     Ledger.delete_expense parseInt id db = (reply_json PSuccess, db')
     /\ expenseCategories db' =
        filter (fun r => negb (Z.eqb (ExpenseCategory.id r) n))
               (expenseCategories db)
     /\ incomeSources db' = incomeSources db
     /\ monthlyData db' = monthlyData db
     /\ (ledger_ok db -> ledger_ok db'))
  /\ ((exists i, In i (incomeSources db) /\ IncomeSource.id i = n) ->
      exists db',
        Ledger.delete_income parseInt id db = (reply_json PSuccess, db')
        /\ incomeSources db' =
           filter (fun r => negb (Z.eqb (IncomeSource.id r) n))
                  (incomeSources db)
        /\ expenseCategories db' = expenseCategories db
        /\ monthlyData db' = monthlyData db
        /\ (ledger_ok db -> ledger_ok db')).
Proof.
  intro Hp. split.
  - intros (e & Hin & Hid).
    destruct (find (fun r => Z.eqb (ExpenseCategory.id r) n)
                   (expenseCategories db)) as [e0|] eqn:Hf.
    2:{ pose proof (find_none _ _ Hf e Hin) as Hn. cbv beta in Hn.
        rewrite Hid, Z.eqb_refl in Hn. discriminate. }
    unfold Ledger.delete_expense, try_catch, bind, ret,
      Client.expenseCategory_delete.
    rewrite Hp, Hf. eexists. split; [reflexivity|].
    cbn [Client.with_ledger expenseCategories incomeSources monthlyData].
    repeat split; cbn [Client.with_ledger monthlyData incomeSources
                       expenseCategories monthlyData_seq];
      try apply (unique_month H); try apply (month_id_used H);
      try apply (income_fk H).
    intros x Hx. apply filter_In in Hx. now apply (expense_fk H).
  - intros (i & Hin & Hid).
    destruct (find (fun r => Z.eqb (IncomeSource.id r) n)
                   (incomeSources db)) as [i0|] eqn:Hf.
    2:{ pose proof (find_none _ _ Hf i Hin) as Hn. cbv beta in Hn.
        rewrite Hid, Z.eqb_refl in Hn. discriminate. }
    unfold Ledger.delete_income, try_catch, bind, ret,
      Client.incomeSource_delete.
    rewrite Hp, Hf. eexists. split; [reflexivity|].
    cbn [Client.with_ledger expenseCategories incomeSources monthlyData].
    repeat split; cbn [Client.with_ledger monthlyData incomeSources
                       expenseCategories monthlyData_seq];
      try apply (unique_month H); try apply (month_id_used H);
      try apply (expense_fk H).
    intros x Hx. apply filter_In in Hx. now apply (income_fk H).
Qed.

Lemma delete_row_removes_it_witness :
  exists db',
    Ledger.delete_expense Sample2.parseInt "1" Sample.january =
      (reply_json PSuccess, db')
    /\ map ExpenseCategory.name (expenseCategories db') = ["Groceries"].
Proof.
  destruct (proj1 (delete_row_removes_it Sample2.parseInt Sample.january "1" 1
                     eq_refl)) as (db' & Hdel & He & _).
  - exists (Sample.expense 1 "Rent" 1200 1200 true true 1).
    split; [now left|reflexivity].
  - exists db'. split; [exact Hdel|]. rewrite He. reflexivity.
Defined.

(** X12. On a store whose expense ids come from the sequence, adding an
    expense category whose budget fits the column to an existing month, and
    then deleting the row by the id it was given, gives back the rows the
    store had. *)
Theorem post_then_delete_expense (parseInt : string -> option Z) (db : Store)
        (key id : string) (body : Monthly.ExpenseBody) (m : MonthlyData.t)
        (b : Q) :
  expense_ids_ok db ->
  In m (monthlyData db) ->
  MonthlyData.month m = key ->
  Schema.DECIMAL_10_2 (Monthly.budgeted_or_default (Monthly.body_budgeted body))
  = Some b ->
  parseInt id = Some (expenseCategory_seq db) ->
  exists e db1 db2,
    Monthly.post_expense key body db = (res_json (JExpense e), db1)
    /\ ExpenseCategory.id e = expenseCategory_seq db
    /\ Ledger.delete_expense parseInt id db1 = (reply_json PSuccess, db2)
    /\ same_rows db2 db.
Proof.
  intros Hids Hin Hkey Hb Hp.
  destruct (present_findUnique db key m Hin Hkey) as (found & Hf).
  rewrite (post_expense_present db key body found b Hf Hb).
  eexists. eexists. eexists. split; [reflexivity|]. split; [reflexivity|].
  unfold Ledger.delete_expense, try_catch, bind, ret,
    Client.expenseCategory_delete.
  rewrite Hp. cbn [expenseCategories].
  assert (Hold : forall r, In r (expenseCategories db) ->
                   Z.eqb (ExpenseCategory.id r) (expenseCategory_seq db) = false).
  { intros r Hr. apply Z.eqb_neq. pose proof (Hids r Hr). lia. }
  rewrite find_append.
  rewrite (proj2 (find_none_iff _ _ (expenseCategories db)) Hold).
  cbn [find ExpenseCategory.id]. rewrite Z.eqb_refl.
  split; [reflexivity|].
  unfold same_rows.
  cbn [Client.with_ledger users monthlyData incomeSources expenseCategories].
  repeat split.
  rewrite filter_app. cbn [filter ExpenseCategory.id].
  rewrite Z.eqb_refl. cbn [negb]. rewrite app_nil_r.
  apply filter_all. intros r Hr. now rewrite (Hold r Hr).
Qed.

Lemma post_then_delete_expense_witness :
  exists e db1 db2,
    Monthly.post_expense "2025-01"
      {| Monthly.body_name := Some "Gym"; Monthly.body_budgeted := Some 30;
         Monthly.body_actual := None; Monthly.body_isPaid := None;
         Monthly.body_showPaidStatus := None |}
      Sample.january = (res_json (JExpense e), db1)
    /\ Ledger.delete_expense Sample2.parseInt "3" db1 = (reply_json PSuccess, db2)
    /\ expenseCategories db2 = expenseCategories Sample.january.
Proof.
  destruct (post_then_delete_expense Sample2.parseInt Sample.january
              "2025-01" "3"
              {| Monthly.body_name := Some "Gym"; Monthly.body_budgeted := Some 30;
                 Monthly.body_actual := None; Monthly.body_isPaid := None;
                 Monthly.body_showPaidStatus := None |}
              (Sample.month 1 "2025-01") 30)
    as (e & db1 & db2 & Hpost & _ & Hdel & _ & _ & _ & Hrows);
    try reflexivity.
  - intros r [<-|[<-|[]]]; reflexivity.
  - now left.
  - exists e, db1, db2. auto.
Defined.

(** X13. After an expense category whose budget fits the column was added
    to an existing month, a read of that month (well-formed key, unique month
    keys) shows the month's earlier categories and the new one, in whatever
    order, and the month's income sources as they were. *)
Theorem post_expense_then_read (db : Store) (key : string)
        (body : Monthly.ExpenseBody) (m : MonthlyData.t) (b : Q) :
  JS.test JS.month_re key = true ->
  NoDup (map MonthlyData.month (monthlyData db)) ->
  In m (monthlyData db) ->
  MonthlyData.month m = key ->
  Schema.DECIMAL_10_2 (Monthly.budgeted_or_default (Monthly.body_budgeted body))
  = Some b ->
  exists e db1 full,
    Monthly.post_expense key body db = (res_json (JExpense e), db1)
    /\ Monthly.get_month key db1 = (res_json (JMonth full), db1)
    /\ MonthlyDataFull.id full = MonthlyData.id m
    /\ Permutation
         (MonthlyDataFull.expenseCategories full)
         (e :: Prisma.expenseCategories_of db (MonthlyData.id m))
    /\ MonthlyDataFull.incomeSources full =
       Prisma.incomeSources_of db (MonthlyData.id m).
Proof.
  intros Hk Hnd Hin Hkey Hb.
  assert (Hf : Prisma.monthlyData_findUnique key db = Some m).
  { unfold Prisma.monthlyData_findUnique. rewrite <- Hkey.
    apply (find_by_key _ _ MonthlyData.month String.eqb);
      [apply String.eqb_eq|exact Hnd|exact Hin]. }
  rewrite (post_expense_present db key body m b Hf Hb).
  eexists. eexists. eexists. split; [reflexivity|]. split.
  - apply get_month_existing; [exact Hk|].
    unfold Prisma.monthlyData_findUnique_include, Prisma.monthlyData_findUnique.
    cbn [monthlyData]. unfold Prisma.monthlyData_findUnique in Hf.
    rewrite Hf. reflexivity.
  - cbn [Prisma.include_all MonthlyDataFull.id MonthlyDataFull.expenseCategories
         MonthlyDataFull.incomeSources].
    split; [reflexivity|]. split; [|reflexivity].
    unfold Prisma.expenseCategories_of. cbn [expenseCategories].
    rewrite filter_app. cbn [filter ExpenseCategory.monthlyDataId].
    rewrite Z.eqb_refl. apply Permutation_sym, Permutation_cons_append.
Qed.

Lemma post_expense_then_read_witness :
  exists e db1 full,
    Monthly.post_expense "2025-01"
      {| Monthly.body_name := Some "Gym"; Monthly.body_budgeted := Some 30;
         Monthly.body_actual := None; Monthly.body_isPaid := None;
         Monthly.body_showPaidStatus := None |}
      Sample.january = (res_json (JExpense e), db1)
    /\ Monthly.get_month "2025-01" db1 = (res_json (JMonth full), db1)
    /\ In e (MonthlyDataFull.expenseCategories full)
    /\ ExpenseCategory.name e = "Gym"
    /\ List.length (MonthlyDataFull.expenseCategories full) = 3%nat.
Proof.
  destruct (post_expense_then_read Sample.january "2025-01"
              {| Monthly.body_name := Some "Gym"; Monthly.body_budgeted := Some 30;
                 Monthly.body_actual := None; Monthly.body_isPaid := None;
                 Monthly.body_showPaidStatus := None |}
              (Sample.month 1 "2025-01") 30 eq_refl (unique_month january_ok)
              (or_introl eq_refl) eq_refl eq_refl)
    as (e & db1 & full & Hpost & Hget & _ & He & _).
  exists e, db1, full. split; [exact Hpost|]. split; [exact Hget|].
  split; [|split].
  - apply (Permutation_in _ (Permutation_sym He)). now left.
  - injection Hpost as <- _. reflexivity.
  - rewrite (Permutation_length He). reflexivity.
Defined.

(** ** The list of years *)

Lemma Set_add_spec (acc : list string) (x y : string) :
  In y (Years.Set_add acc x) <-> In y acc \/ y = x.
Proof.
  unfold Years.Set_add. destruct (existsb (String.eqb x) acc) eqn:E.
  - apply existsb_exists in E. destruct E as (z & Hz & Hxz).
    apply String.eqb_eq in Hxz. subst z. split; [tauto|].
    intros [H| ->]; assumption.
  - rewrite in_app_iff. simpl. intuition congruence.
Qed.

Lemma Set_add_NoDup (acc : list string) (x : string) :
  NoDup acc -> NoDup (Years.Set_add acc x).
Proof.
  intro Hnd. unfold Years.Set_add.
  destruct (existsb (String.eqb x) acc) eqn:E; [exact Hnd|].
  apply NoDup_snoc; [exact Hnd|]. intro Hin.
  pose proof (proj1 (existsb_false_iff _ _ _) E x Hin) as Hx.
  rewrite String.eqb_refl in Hx. discriminate.
Qed.

Lemma Set_fold_spec (l acc : list string) :
  (forall y, In y (fold_left Years.Set_add l acc) <-> In y acc \/ In y l)
  /\ (NoDup acc -> NoDup (fold_left Years.Set_add l acc)).
Proof.
  revert acc. induction l as [|x l IH]; intro acc; simpl.
  - split; [intro y; tauto|auto].
  - destruct (IH (Years.Set_add acc x)) as (Hin & Hnd). split.
    + intro y. rewrite Hin, Set_add_spec. intuition.
    + intro H. apply Hnd. now apply Set_add_NoDup.
Qed.

Lemma sorted_remove (A : Type) (R : A -> A -> Prop) (a l : list A) (x : A) :
  StronglySorted R (a ++ x :: l) -> StronglySorted R (a ++ l).
Proof.
  induction a as [|y a IH]; simpl; intro H.
  - now inversion H.
  - inversion H as [|? ? Hs Hall]; subst. constructor; [now apply IH|].
    rewrite Forall_forall in *. intros z Hz. apply Hall.
    apply in_app_or in Hz. apply in_or_app. destruct Hz; [now left|].
    right. now right.
Qed.

Lemma Set_fold_sorted (R : string -> string -> Prop) (l acc : list string) :
  StronglySorted R (acc ++ l) ->
  StronglySorted R (fold_left Years.Set_add l acc).
Proof.
  revert acc. induction l as [|x l IH]; intro acc; simpl; intro H.
  - now rewrite app_nil_r in H.
  - apply IH. unfold Years.Set_add.
    destruct (existsb (String.eqb x) acc).
    + now apply sorted_remove in H.
    + now rewrite <- app_assoc.
Qed.

(** Cutting two strings after the same number of characters keeps their
    order. *)
Lemma substring_leb (n : nat) (s t : string) :
  String.leb s t = true ->
  String.leb (String.substring 0 n s) (String.substring 0 n t) = true.
Proof.
  unfold String.leb. revert s t.
  induction n as [|n IH]; intros s t H.
  - destruct s, t; reflexivity.
  - destruct s as [|c s], t as [|d t]; simpl in *; try reflexivity;
      try discriminate.
    destruct (Ascii.compare c d); try reflexivity; try discriminate.
    now apply IH.
Qed.

Lemma years_membership (db : Store) (y : string) :
  In y (Years.Set_of (map Years.year_of (Client.monthlyData_findMany_desc db)))
  <-> exists m, In m (monthlyData db)
                /\ String.substring 0 4 (MonthlyData.month m) = y.
Proof.
  destruct (Set_fold_spec
              (map Years.year_of (Client.monthlyData_findMany_desc db)) [])
    as (Hin & _).
  unfold Years.Set_of. rewrite Hin, in_map_iff. split.
  - intros [[]|(m & Hy & Hm)]. exists m. split; [|exact Hy].
    unfold Client.monthlyData_findMany_desc in Hm.
    now apply stable_sort_In in Hm.
  - intros (m & Hm & Hy). right. exists m. split; [exact Hy|].
    unfold Client.monthlyData_findMany_desc. now apply stable_sort_In.
Qed.

(** X14. The list of years answers 200 and writes nothing; it holds no year
    twice, it holds exactly the first four characters of the stored month
    keys, and it is in descending order. *)
Theorem get_years_lists_years (db : Store) :
  exists years,
    Years.get_years db = (reply_json (PYears years), db)
    /\ NoDup years
    /\ (forall y, In y years <->
                  exists m, In m (monthlyData db)
                            /\ String.substring 0 4 (MonthlyData.month m) = y)
    /\ descending_months years.
Proof.
  eexists. split; [reflexivity|].
  set (months := Client.monthlyData_findMany_desc db).
  destruct (Set_fold_spec (map Years.year_of months) []) as (_ & Hnd).
  split; [apply Hnd; constructor|]. split.
  - intro y. apply years_membership.
  - unfold Years.Set_of, descending_months. apply Set_fold_sorted. simpl.
    rewrite <- (map_map MonthlyData.month (String.substring 0 4)).
    apply sorted_map.
    pose proof (findMany_desc_descending db) as Hs. unfold descending_months in Hs.
    fold months in Hs.
    induction Hs as [|a l Hs IH Hall]; constructor; [exact IH|].
    rewrite Forall_forall in *. intros b Hb. apply substring_leb.
    now apply Hall.
Qed.

Lemma year_re_spec (s : string) :
  JS.test JS.year_re s = true <->
  exists y1 y2 y3 y4,
    s = String y1 (String y2 (String y3 (String y4 EmptyString)))
    /\ forallb JS.is_digit [y1; y2; y3; y4] = true.
Proof.
  split.
  - destruct s as [|y1 [|y2 [|y3 [|y4 [|x s]]]]];
      simpl; rewrite ?andb_false_r; try discriminate.
    intro H. exists y1, y2, y3, y4. split; [reflexivity|exact H].
  - intros (y1 & y2 & y3 & y4 & -> & H). exact H.
Qed.

Lemma year_prefix (year key : string) :
  JS.test JS.year_re year = true ->
  String.prefix year key = true <-> String.substring 0 4 key = year.
Proof.
  intro H. apply year_re_spec in H.
  destruct H as (y1 & y2 & y3 & y4 & -> & _).
  apply String.prefix_correct.
Qed.

(** X15. A well-formed year is in the list of years exactly when its summary
    counts at least one month. *)
Theorem listed_year_has_months (db : Store) (year : string) :
  JS.test JS.year_re year = true ->
  exists years s,
    Years.get_years db = (reply_json (PYears years), db)
    /\ Yearly.get_year year db = (res_json (JSummary s), db)
    /\ (In year years <-> (0 < Summary.monthCount s)%nat).
Proof.
  intro Hy.
  eexists. eexists. split; [reflexivity|].
  split; [now apply get_year_ok|].
  rewrite years_membership. unfold Yearly.summarize. cbn [Summary.monthCount].
  unfold Prisma.monthlyData_findMany_startsWith_asc.
  rewrite length_map, (Permutation_length (stable_sort_perm _ _ _)).
  split.
  - intros (m & Hm & Hsub).
    assert (Hf : In m (filter (fun m => String.prefix year (MonthlyData.month m))
                              (monthlyData db))).
    { apply filter_In. split; [exact Hm|]. now apply year_prefix. }
    destruct (filter _ (monthlyData db)); [destruct Hf|simpl; lia].
  - intro Hlen.
    destruct (filter (fun m => String.prefix year (MonthlyData.month m))
                     (monthlyData db)) as [|m l] eqn:E; [simpl in Hlen; lia|].
    assert (Hf : In m (filter (fun m => String.prefix year (MonthlyData.month m))
                              (monthlyData db))) by (rewrite E; now left).
    apply filter_In in Hf. destruct Hf as (Hm & Hp).
    exists m. split; [exact Hm|]. now apply year_prefix.
Qed.

Lemma listed_year_has_months_witness :
  exists years s,
    Years.get_years Sample.ledger = (reply_json (PYears years), Sample.ledger)
    /\ Yearly.get_year "2025" Sample.ledger =
       (res_json (JSummary s), Sample.ledger)
    /\ years = ["2025"] /\ Summary.monthCount s = 2%nat.
Proof.
  destruct (listed_year_has_months Sample.ledger "2025" eq_refl)
    as (years & s & Hy & Hs & _).
  exists years, s. split; [exact Hy|]. split; [exact Hs|].
  injection Hy as <-. rewrite get_year_ok in Hs by reflexivity.
  injection Hs as <-. split; reflexivity.
Defined.

(** ** More on the yearly summary *)

(** X16. The yearly summary never writes to the store; it answers 200 when
    the year is exactly four digits and 400 with "Invalid year format. Use
    YYYY" for every other string. *)
Theorem get_year_reads_only (db : Store) (year : string) :
  snd (Yearly.get_year year db) = db
  /\ ((exists y1 y2 y3 y4,
         year = String y1 (String y2 (String y3 (String y4 EmptyString)))
         /\ forallb JS.is_digit [y1; y2; y3; y4] = true) ->
      status (fst (Yearly.get_year year db)) = 200%Z)
  /\ (~ (exists y1 y2 y3 y4,
           year = String y1 (String y2 (String y3 (String y4 EmptyString)))
           /\ forallb JS.is_digit [y1; y2; y3; y4] = true) ->
      fst (Yearly.get_year year db) =
      res_status_json 400 (JError "Invalid year format. Use YYYY")).
Proof.
  destruct (JS.test JS.year_re year) eqn:E.
  - rewrite (get_year_ok year db E). split; [reflexivity|].
    split; [reflexivity|]. intro H. exfalso. apply H. now apply year_re_spec.
  - unfold Yearly.get_year. rewrite E. cbn [negb snd fst].
    split; [reflexivity|]. split; [|reflexivity].
    intro H. apply year_re_spec in H. congruence.
Qed.

Lemma get_year_reads_only_witness :
  status (fst (Yearly.get_year "2025" Sample.ledger)) = 200%Z
  /\ status (fst (Yearly.get_year "25" Sample.ledger)) = 400%Z.
Proof.
  destruct (get_year_reads_only Sample.ledger "2025") as (_ & H200 & _).
  destruct (get_year_reads_only Sample.ledger "25") as (_ & _ & H400).
  split.
  - apply H200. exists "2"%char, "0"%char, "2"%char, "5"%char.
    split; reflexivity.
  - rewrite H400; [reflexivity|].
    intros (y1 & y2 & y3 & y4 & H & _). discriminate H.
Defined.

(** Dividing by 1 changes nothing. *)
Lemma div_one (x : Q) : x / 1 == x.
Proof. unfold Qdiv. change (/ 1) with 1. apply Qmult_1_r. Qed.

(** X17. In the summary of a well-formed year, the month count is the
    number of entries of the monthly breakdown, and each average is its total
    divided by that count - by 1 when the year has no month; for a year of
    one month the averages are the totals. *)
Theorem yearly_averages (db : Store) (year : string) :
  JS.test JS.year_re year = true ->
  exists s,
    Yearly.get_year year db = (res_json (JSummary s), db)
    /\ Summary.monthCount s =
       List.length (Summary.monthlyBreakdown s)
    /\ (let n := inject_Z (Z.of_nat (Nat.max 1 (Summary.monthCount s))) in
        Averages.monthlyIncome (Summary.averages s) =
          Totals.effectiveIncome (Summary.totals s) / n
        /\ Averages.monthlyExpenses (Summary.averages s) =
          Totals.actualExpenses (Summary.totals s) / n
        /\ Averages.monthlySavings (Summary.averages s) =
          Totals.savings (Summary.totals s) / n)
    /\ (Summary.monthCount s = 1%nat ->
        Averages.monthlyIncome (Summary.averages s) ==
          Totals.effectiveIncome (Summary.totals s)
        /\ Averages.monthlyExpenses (Summary.averages s) ==
          Totals.actualExpenses (Summary.totals s)
        /\ Averages.monthlySavings (Summary.averages s) ==
          Totals.savings (Summary.totals s)).
Proof.
  intro Hy. eexists. split; [now apply get_year_ok|].
  set (months := Prisma.monthlyData_findMany_startsWith_asc year db).
  split; [|split].
  - rewrite summarize_breakdown, length_map. reflexivity.
  - unfold Yearly.summarize.
    cbn [Summary.monthCount Summary.averages Summary.totals
         Averages.monthlyIncome Averages.monthlyExpenses
         Averages.monthlySavings Totals.effectiveIncome Totals.actualExpenses
         Totals.savings].
    destruct (List.length months) as [|k]; cbv zeta; repeat split.
  - unfold Yearly.summarize.
    cbn [Summary.monthCount Summary.averages Summary.totals
         Averages.monthlyIncome Averages.monthlyExpenses
         Averages.monthlySavings Totals.effectiveIncome Totals.actualExpenses
         Totals.savings].
    intros ->. cbv zeta. change (inject_Z (Z.of_nat 1)) with 1.
    repeat split; apply div_one.
Qed.

Lemma yearly_averages_witness :
  exists s,
    Yearly.get_year "2025" Sample.january
    = (res_json (JSummary s), Sample.january)
    /\ Summary.monthCount s = 1%nat
    /\ Averages.monthlyExpenses (Summary.averages s) == 1580.
Proof.
  destruct (yearly_averages Sample.january "2025" eq_refl)
    as (s & Hs & _ & _ & Hone).
  exists s. split; [exact Hs|].
  rewrite get_year_ok in Hs by reflexivity. injection Hs as Hs.
  assert (Hc : Summary.monthCount s = 1%nat) by (now rewrite <- Hs).
  split; [exact Hc|].
  destruct (Hone Hc) as (_ & He & _). rewrite He, <- Hs.
  vm_compute. reflexivity.
Defined.

(** Adding up greater amounts, one after the other, gives a greater sum. *)
Lemma fold_plus_le (A : Type) (f g : A -> Q) (l : list A) (a b : Q) :
  a <= b -> (forall x, In x l -> f x <= g x) ->
  fold_left Qplus (map f l) a <= fold_left Qplus (map g l) b.
Proof.
  revert a b. induction l as [|x l IH]; intros a b Hab H; simpl; [exact Hab|].
  apply IH.
  - apply Qplus_le_compat; [exact Hab|]. apply H. now left.
  - intros y Hy. apply H. now right.
Qed.

Lemma Math_max_ge (a b : Q) : a <= JS.Math_max a b /\ b <= JS.Math_max a b.
Proof.
  unfold JS.Math_max. destruct (Qle_bool a b) eqn:E.
  - apply Qle_bool_iff in E. split; [exact E|apply Qle_refl].
  - split; [apply Qle_refl|]. apply Qlt_le_weak, Qnot_le_lt.
    intro H. apply Qle_bool_iff in H. congruence.
Qed.

(** X18. In the summary of a well-formed year, total effective income never
    exceeds the sum of the months' effective incomes, and neither does total
    expected income nor total actual income. *)
Theorem yearly_effective_income_bounded_by_months (db : Store) (year : string) :
  JS.test JS.year_re year = true ->
  exists s,
    Yearly.get_year year db = (res_json (JSummary s), db)
    /\ Totals.expectedIncome (Summary.totals s) <=
       sum (map Item.effectiveIncome (Summary.monthlyBreakdown s))
    /\ Totals.actualIncome (Summary.totals s) <=
       sum (map Item.effectiveIncome (Summary.monthlyBreakdown s))
    /\ Totals.effectiveIncome (Summary.totals s) <=
       sum (map Item.effectiveIncome (Summary.monthlyBreakdown s)).
Proof.
  intro Hy. eexists. split; [now apply get_year_ok|].
  set (months := Prisma.monthlyData_findMany_startsWith_asc year db).
  destruct (summarize_totals year months) as (H1 & H2 & _).
  cbv zeta in H1, H2.
  pose proof (summarize_effective year months) as He. cbv zeta in He.
  set (s := Yearly.summarize year months) in *.
  assert (Hitems : forall x, In x (Summary.monthlyBreakdown s) ->
             Item.expectedIncome x <= Item.effectiveIncome x
             /\ Item.actualIncome x <= Item.effectiveIncome x).
  { intros x Hx. unfold s in Hx. rewrite summarize_breakdown in Hx.
    apply in_map_iff in Hx. destruct Hx as (m & <- & _).
    unfold Yearly.item_of. cbn. apply Math_max_ge. }
  assert (Hexp : Totals.expectedIncome (Summary.totals s) <=
                 sum (map Item.effectiveIncome (Summary.monthlyBreakdown s))).
  { rewrite H1. unfold sum. apply fold_plus_le; [apply Qle_refl|].
    intros x Hx. now apply Hitems. }
  assert (Hact : Totals.actualIncome (Summary.totals s) <=
                 sum (map Item.effectiveIncome (Summary.monthlyBreakdown s))).
  { rewrite H2. unfold sum. apply fold_plus_le; [apply Qle_refl|].
    intros x Hx. now apply Hitems. }
  split; [exact Hexp|]. split; [exact Hact|].
  rewrite He. unfold JS.Math_max.
  now destruct (Qle_bool _ _).
Qed.

Lemma yearly_effective_income_bounded_by_months_witness :
  exists s,
    Yearly.get_year "2025" Sample.ledger = (res_json (JSummary s), Sample.ledger)
    /\ Totals.effectiveIncome (Summary.totals s) == 150
    /\ sum (map Item.effectiveIncome (Summary.monthlyBreakdown s)) == 200
    /\ Totals.effectiveIncome (Summary.totals s) <=
       sum (map Item.effectiveIncome (Summary.monthlyBreakdown s)).
Proof.
  destruct (yearly_effective_income_bounded_by_months Sample.ledger "2025"
              eq_refl) as (s & Hs & _ & _ & Hle).
  exists s. split; [exact Hs|].
  rewrite get_year_ok in Hs by reflexivity. injection Hs as Hs.
  split; [rewrite <- Hs; vm_compute; reflexivity|].
  split; [rewrite <- Hs; vm_compute; reflexivity|exact Hle].
Defined.

(** ** The category breakdown *)

Lemma fold_plus_shift (l : list Q) (a : Q) :
  fold_left Qplus l a == a + sum l.
Proof.
  unfold sum. revert a. induction l as [|x l IH]; intro a; simpl.
  - lra.
  - rewrite (IH (a + x)), (IH (0 + x)). lra.
Qed.

Lemma sum_cons (x : Q) (l : list Q) : sum (x :: l) == x + sum l.
Proof. unfold sum at 1. simpl. rewrite fold_plus_shift. lra. Qed.

Lemma sum_nil : sum [] = 0.
Proof. reflexivity. Qed.

Section ObjFacts.
Variable V : Type.

Lemma own_set (o : JS.Obj V) (k k' : string) (v : V) :
  JS.own (JS.set o k v) k' = if String.eqb k k' then Some v else JS.own o k'.
Proof.
  unfold JS.own. induction o as [|[k0 v0] o IH]; simpl.
  - destruct (String.eqb k k'); reflexivity.
  - destruct (String.eqb k0 k) eqn:E0; simpl.
    + apply String.eqb_eq in E0. subst k0.
      destruct (String.eqb k k'); reflexivity.
    + destruct (String.eqb k0 k') eqn:E1; [|exact IH].
      apply String.eqb_eq in E1. subst k0.
      rewrite String.eqb_sym in E0. now rewrite E0.
Qed.

Lemma own_update (o : JS.Obj V) (k k' : string) (f : V -> V) :
  JS.own (JS.update o k f) k' =
  if String.eqb k k' then option_map f (JS.own o k) else JS.own o k'.
Proof.
  unfold JS.own. induction o as [|[k0 v0] o IH]; simpl.
  - destruct (String.eqb k k'); reflexivity.
  - destruct (String.eqb k0 k) eqn:E0; simpl.
    + apply String.eqb_eq in E0. subst k0.
      destruct (String.eqb k k'); reflexivity.
    + destruct (String.eqb k0 k') eqn:E1.
      * apply String.eqb_eq in E1. subst k0.
        rewrite String.eqb_sym in E0. now rewrite E0.
      * exact IH.
Qed.

Lemma keys_update (o : JS.Obj V) (k : string) (f : V -> V) :
  map fst (JS.update o k f) = map fst o.
Proof.
  induction o as [|[k0 v0] o IH]; simpl; [reflexivity|].
  destruct (String.eqb k0 k); simpl; [reflexivity|now rewrite IH].
Qed.

Lemma keys_set_In (o : JS.Obj V) (k x : string) (v : V) :
  In x (map fst (JS.set o k v)) <-> In x (map fst o) \/ x = k.
Proof.
  induction o as [|[k0 v0] o IH]; simpl.
  - intuition.
  - destruct (String.eqb k0 k) eqn:E0; simpl.
    + apply String.eqb_eq in E0. subst k0. intuition.
    + rewrite IH. intuition.
Qed.

Lemma keys_set_NoDup (o : JS.Obj V) (k : string) (v : V) :
  NoDup (map fst o) -> NoDup (map fst (JS.set o k v)).
Proof.
  induction o as [|[k0 v0] o IH]; simpl; intro H.
  - constructor; [intros []|constructor].
  - inversion H as [|? ? Hnin Hnd]; subst.
    destruct (String.eqb k0 k) eqn:E0; simpl.
    + constructor; assumption.
    + constructor; [|now apply IH].
      rewrite keys_set_In. intros [Hin|Hk]; [contradiction|].
      subst. rewrite String.eqb_refl in E0. discriminate.
Qed.

Lemma own_some_iff (o : JS.Obj V) (k : string) :
  JS.own o k <> None <-> In k (map fst o).
Proof.
  unfold JS.own. induction o as [|[k0 v0] o IH]; simpl.
  - split; [congruence|tauto].
  - destruct (String.eqb k0 k) eqn:E0.
    + apply String.eqb_eq in E0. split; [auto|discriminate].
    + rewrite IH. apply String.eqb_neq in E0. intuition.
Qed.

Lemma own_of_entry (o : JS.Obj V) (k : string) (v : V) :
  NoDup (map fst o) -> In (k, v) o -> JS.own o k = Some v.
Proof.
  unfold JS.own. induction o as [|[k0 v0] o IH]; simpl; intros Hnd Hin;
    [destruct Hin|].
  inversion Hnd as [|? ? Hnin Hnd']; subst.
  destruct Hin as [Heq|Hin].
  - injection Heq as -> ->. now rewrite String.eqb_refl.
  - destruct (String.eqb k0 k) eqn:E0; [|now apply IH].
    apply String.eqb_eq in E0. subst k0. exfalso. apply Hnin.
    change k with (fst (k, v)). now apply in_map.
Qed.

Lemma filter_split_perm (A : Type) (p : A -> bool) (l : list A) :
  Permutation (filter p l ++ filter (fun x => negb (p x)) l) l.
Proof.
  induction l as [|x l IH]; simpl; [constructor|].
  destruct (p x); simpl.
  - now constructor.
  - apply Permutation_sym, Permutation_cons_app. now apply Permutation_sym.
Qed.

Lemma Object_entries_perm (o : JS.Obj V) : Permutation (JS.Object_entries o) o.
Proof.
  unfold JS.Object_entries.
  rewrite (stable_sort_perm _ _ (filter (@JS.is_index V) o)).
  apply filter_split_perm.
Qed.
End ObjFacts.

Lemma own_aggregate (o : JS.Obj (Q * Q)) (e : ExpenseCategory.t) (k : string) :
  JS.own (Yearly.aggregate o e) k =
  if String.eqb (ExpenseCategory.name e) k
  then match JS.own o (ExpenseCategory.name e) with
       | Some v => Some (fst v + ExpenseCategory.budgeted e,
                         snd v + ExpenseCategory.actual e)
       | None =>
           if JS.inherited (ExpenseCategory.name e) then None
           else Some (0 + ExpenseCategory.budgeted e,
                      0 + ExpenseCategory.actual e)
       end
  else JS.own o k.
Proof.
  unfold Yearly.aggregate. cbv zeta. rewrite !own_update, String.eqb_refl.
  unfold JS.has_truthy.
  destruct (JS.own o (ExpenseCategory.name e)) as [v|] eqn:Ho; cbn [negb].
  - rewrite Ho. destruct (String.eqb (ExpenseCategory.name e) k); reflexivity.
  - destruct (JS.inherited (ExpenseCategory.name e)); cbn [negb].
    + rewrite Ho. destruct (String.eqb (ExpenseCategory.name e) k); reflexivity.
    + rewrite !own_set, String.eqb_refl.
      destruct (String.eqb (ExpenseCategory.name e) k); reflexivity.
Qed.

Lemma keys_aggregate_NoDup (o : JS.Obj (Q * Q)) (e : ExpenseCategory.t) :
  NoDup (map fst o) -> NoDup (map fst (Yearly.aggregate o e)).
Proof.
  intro H. unfold Yearly.aggregate. cbv zeta. rewrite !keys_update.
  destruct (negb (JS.has_truthy o (ExpenseCategory.name e))); [|exact H].
  now apply keys_set_NoDup.
Qed.

(** What the category totals hold after a run of expense rows. *)
Lemma fold_aggregate (rows : list ExpenseCategory.t) (o : JS.Obj (Q * Q)) :
  (forall k, JS.own o k <> None -> JS.inherited k = false) ->
  NoDup (map fst o) ->
  (forall k, JS.own (fold_left Yearly.aggregate rows o) k <> None ->
             JS.inherited k = false)
  /\ NoDup (map fst (fold_left Yearly.aggregate rows o))
  /\ (forall k, JS.own (fold_left Yearly.aggregate rows o) k <> None <->
                JS.own o k <> None
                \/ (JS.inherited k = false
                    /\ exists e, In e rows /\ ExpenseCategory.name e = k))
  /\ (forall k, JS.inherited k = false ->
        fst (entry_of (fold_left Yearly.aggregate rows o) k) ==
          fst (entry_of o k)
          + sum (map ExpenseCategory.budgeted (rows_named k rows))
        /\ snd (entry_of (fold_left Yearly.aggregate rows o) k) ==
          snd (entry_of o k)
          + sum (map ExpenseCategory.actual (rows_named k rows))).
Proof.
  revert o. induction rows as [|e rows IH]; intros o Hinh Hnd.
  - simpl. split; [exact Hinh|]. split; [exact Hnd|]. split.
    + intro k. split; [auto|]. intros [H|(_ & x & [] & _)]. exact H.
    + intros k _. rewrite sum_nil. split; lra.
  - cbn [fold_left].
    assert (Hinh' : forall k, JS.own (Yearly.aggregate o e) k <> None ->
                              JS.inherited k = false).
    { intros k. rewrite own_aggregate.
      destruct (String.eqb (ExpenseCategory.name e) k) eqn:E; [|apply Hinh].
      apply String.eqb_eq in E. subst k.
      destruct (JS.own o (ExpenseCategory.name e)) eqn:Ho.
      - intros _. apply Hinh. congruence.
      - destruct (JS.inherited (ExpenseCategory.name e)); congruence. }
    destruct (IH (Yearly.aggregate o e) Hinh' (keys_aggregate_NoDup o e Hnd))
      as (H1 & H2 & H3 & H4).
    split; [exact H1|]. split; [exact H2|]. split.
    + intro k. rewrite H3, own_aggregate.
      destruct (String.eqb (ExpenseCategory.name e) k) eqn:E.
      * apply String.eqb_eq in E. subst k.
        destruct (JS.own o (ExpenseCategory.name e)) eqn:Ho.
        -- split; intros _; left; discriminate.
        -- destruct (JS.inherited (ExpenseCategory.name e)) eqn:Ei.
           ++ split.
              ** intros [H|(H & _)]; congruence.
              ** intros [H|(H & _)]; congruence.
           ++ split; intros _.
              ** right. split; [reflexivity|]. exists e. split; [now left|auto].
              ** left. discriminate.
      * apply String.eqb_neq in E. split.
        -- intros [H|(H & x & Hx & Hn)]; [now left|].
           right. split; [exact H|]. exists x. split; [now right|exact Hn].
        -- intros [H|(H & x & [<-|Hx] & Hn)]; [now left|contradiction|].
           right. split; [exact H|]. exists x. auto.
    + intros k Hk. destruct (H4 k Hk) as (Hb & Ha). rewrite Hb, Ha.
      unfold rows_named. cbn [filter]. unfold entry_of at 1 3.
      rewrite own_aggregate.
      destruct (String.eqb (ExpenseCategory.name e) k) eqn:E.
      * apply String.eqb_eq in E. subst k. cbn [map]. rewrite !sum_cons.
        unfold entry_of.
        destruct (JS.own o (ExpenseCategory.name e)) as [v|] eqn:Ho.
        -- cbn [fst snd]. split; lra.
        -- rewrite Hk. cbn [fst snd]. split; lra.
      * fold (entry_of o k). split; lra.
Qed.

Lemma loop_categories (months : list MonthlyDataFull.t) (acc : Yearly.Acc) :
  Yearly.categoryTotals (fold_left Yearly.step months acc) =
  fold_left Yearly.aggregate
            (flat_map MonthlyDataFull.expenseCategories months)
            (Yearly.categoryTotals acc).
Proof.
  revert acc. induction months as [|m months IH]; intro acc; simpl;
    [reflexivity|].
  rewrite IH, fold_left_app. reflexivity.
Qed.

(** The breakdown is the category totals in some order. *)
Lemma breakdown_entries (year : string) (months : list MonthlyDataFull.t) :
  Permutation
    (Summary.categoryBreakdown (Yearly.summarize year months))
    (map Yearly.category_of
         (fold_left Yearly.aggregate
                    (flat_map MonthlyDataFull.expenseCategories months) [])).
Proof.
  unfold Yearly.summarize. cbn [Summary.categoryBreakdown].
  unfold JS.Array_sort. rewrite stable_sort_perm.
  apply Permutation_map. rewrite loop_categories. apply Object_entries_perm.
Qed.

Lemma category_name (kv : string * (Q * Q)) :
  Category.name (Yearly.category_of kv) = fst kv.
Proof. destruct kv. reflexivity. Qed.

(** X19. In the summary of a well-formed year, the category breakdown holds
    one entry per name: no name twice, and exactly the names of the year's
    expense rows that are not names of members of [Object.prototype] (rows
    called "constructor", "toString" and the like are left out); every
    entry's variance is its budgeted minus its actual. *)
Theorem category_breakdown_names (db : Store) (year : string) :
  JS.test JS.year_re year = true ->
  exists s,
    Yearly.get_year year db = (res_json (JSummary s), db)
    /\ NoDup (map Category.name (Summary.categoryBreakdown s))
    /\ (forall k,
          In k (map Category.name (Summary.categoryBreakdown s)) <->
          JS.inherited k = false
          /\ exists e,
               In e (flat_map MonthlyDataFull.expenseCategories
                       (Prisma.monthlyData_findMany_startsWith_asc year db))
               /\ ExpenseCategory.name e = k)
    /\ (forall c, In c (Summary.categoryBreakdown s) ->
                  Category.variance c = Category.budgeted c - Category.actual c).
Proof.
  intro Hy. eexists. split; [now apply get_year_ok|].
  set (months := Prisma.monthlyData_findMany_startsWith_asc year db).
  set (rows := flat_map MonthlyDataFull.expenseCategories months).
  pose proof (breakdown_entries year months) as Hperm. fold rows in Hperm.
  destruct (fold_aggregate rows []) as (_ & Hnd & Hdom & _);
    [intros k H; now contradiction H|constructor|].
  set (ct := fold_left Yearly.aggregate rows []) in *.
  assert (Hnames : Permutation
                     (map Category.name
                          (Summary.categoryBreakdown
                             (Yearly.summarize year months)))
                     (map fst ct)).
  { rewrite (Permutation_map Category.name Hperm), map_map.
    erewrite map_ext; [reflexivity|]. apply category_name. }
  split; [|split].
  - apply (Permutation_NoDup (Permutation_sym Hnames)). exact Hnd.
  - intro k. split.
    + intro Hin. apply (Permutation_in k Hnames) in Hin.
      apply own_some_iff in Hin. apply Hdom in Hin.
      destruct Hin as [H|H]; [now contradiction H|exact H].
    + intro H. apply (Permutation_in k (Permutation_sym Hnames)).
      apply own_some_iff. apply Hdom. now right.
  - intros c Hc. apply (Permutation_in c Hperm) in Hc.
    apply in_map_iff in Hc. destruct Hc as ([k v] & <- & _). reflexivity.
Qed.

Lemma category_breakdown_names_witness :
  exists s,
    Yearly.get_year "2025" Sample.ledger = (res_json (JSummary s), Sample.ledger)
    /\ map Category.name (Summary.categoryBreakdown s) =
       ["Rent"; "Groceries"; "Food"].
Proof.
  destruct (category_breakdown_names Sample.ledger "2025" eq_refl)
    as (s & Hs & _).
  exists s. split; [exact Hs|].
  rewrite get_year_ok in Hs by reflexivity. injection Hs as <-. reflexivity.
Defined.

(** X20. In the summary of a well-formed year, every entry of the category
    breakdown holds the sums, over all the year's expense rows of its name,
    of their budgeted and of their actual amounts. *)
Theorem category_breakdown_sums (db : Store) (year : string) :
  JS.test JS.year_re year = true ->
  exists s,
    Yearly.get_year year db = (res_json (JSummary s), db)
    /\ forall c, In c (Summary.categoryBreakdown s) ->
         Category.budgeted c ==
           sum (map ExpenseCategory.budgeted
                  (rows_named (Category.name c)
                     (flat_map MonthlyDataFull.expenseCategories
                        (Prisma.monthlyData_findMany_startsWith_asc year db))))
         /\ Category.actual c ==
           sum (map ExpenseCategory.actual
                  (rows_named (Category.name c)
                     (flat_map MonthlyDataFull.expenseCategories
                        (Prisma.monthlyData_findMany_startsWith_asc year db)))).
Proof.
  intro Hy. eexists. split; [now apply get_year_ok|].
  set (months := Prisma.monthlyData_findMany_startsWith_asc year db).
  set (rows := flat_map MonthlyDataFull.expenseCategories months).
  pose proof (breakdown_entries year months) as Hperm. fold rows in Hperm.
  destruct (fold_aggregate rows []) as (Hinh & Hnd & _ & Hsum);
    [intros k H; now contradiction H|constructor|].
  set (ct := fold_left Yearly.aggregate rows []) in *.
  intros c Hc. apply (Permutation_in c Hperm) in Hc.
  apply in_map_iff in Hc. destruct Hc as ([k v] & <- & Hkv).
  pose proof (own_of_entry _ ct k v Hnd Hkv) as Hown.
  assert (Hk : JS.inherited k = false) by (apply Hinh; congruence).
  destruct (Hsum k Hk) as (Hb & Ha).
  unfold entry_of in Hb, Ha. rewrite Hown in Hb, Ha.
  cbn [JS.own find] in Hb, Ha. cbn [fst snd] in Hb, Ha.
  cbn [Yearly.category_of Category.name Category.budgeted Category.actual].
  split; [rewrite Hb|rewrite Ha]; lra.
Qed.

Lemma category_breakdown_sums_witness :
  exists s,
    Yearly.get_year "2025" Sample.ledger = (res_json (JSummary s), Sample.ledger)
    /\ map Category.actual (Summary.categoryBreakdown s) = [1200; 380; 5].
Proof.
  destruct (category_breakdown_sums Sample.ledger "2025" eq_refl)
    as (s & Hs & _).
  exists s. split; [exact Hs|].
  rewrite get_year_ok in Hs by reflexivity. injection Hs as <-.
  vm_compute. reflexivity.
Defined.

(** ** Logging in and out *)

Lemma world_eta (w : Auth.World) :
  {| Auth.db := Auth.db w; Auth.session := Auth.session w |} = w.
Proof. now destruct w. Qed.

(** The three ways a login can end. *)
Lemma login_cases (bcrypt_compare : string -> string -> bool)
      (body : Auth.LoginBody) (w : Auth.World) :
  (Auth.login bcrypt_compare body w =
     (res_status_json 400 (JError "Username and password required"), w)
   /\ (JS.truthy (Auth.login_username body) = false
       \/ JS.truthy (Auth.login_password body) = false))
  \/ (Auth.login bcrypt_compare body w =
        (res_status_json 401 (JError "Invalid credentials"), w)
      /\ forall u,
           Auth.user_findUnique_username
             (JS.String_ (Auth.login_username body)) (Auth.db w) = Some u ->
           bcrypt_compare (JS.String_ (Auth.login_password body))
                          (User.password u) = false)
  \/ (exists u,
        In u (users (Auth.db w))
        /\ User.username u = JS.String_ (Auth.login_username body)
        /\ bcrypt_compare (JS.String_ (Auth.login_password body))
                          (User.password u) = true
        /\ Auth.login bcrypt_compare body w =
           (res_json (JSuccess (User.username u)),
            {| Auth.db := Auth.db w;
               Auth.session := {| Auth.userId := Some (User.id u);
                                  Auth.username := Some (User.username u) |} |})).
Proof.
  unfold Auth.login, try_catch, bind, ret, Auth.on_db, query, Auth.set_session.
  destruct (JS.truthy (Auth.login_username body)); cbn [negb orb];
    [|left; auto].
  destruct (JS.truthy (Auth.login_password body)); cbn [negb orb];
    [|left; auto].
  destruct (Auth.user_findUnique_username _ (Auth.db w)) as [u|] eqn:Hf.
  - destruct (bcrypt_compare _ (User.password u)) eqn:Hc; cbn [negb].
    + right. right. exists u. apply find_some in Hf. destruct Hf as (Hin & Hn).
      apply String.eqb_eq in Hn. auto.
    + right. left. rewrite world_eta. split; [reflexivity|].
      intros u' [= <-]. exact Hc.
  - right. left. rewrite world_eta. split; [reflexivity|]. discriminate.
Qed.

(** X21. A login answers 200 only when the store holds a user of the given
    name whose password hash the comparison accepts, and then the session
    holds that user's id and name; in every other case the session is left as
    it was; the store is never written. *)
Theorem login_sound (bcrypt_compare : string -> string -> bool)
        (body : Auth.LoginBody) (w : Auth.World) :
  Auth.db (snd (Auth.login bcrypt_compare body w)) = Auth.db w
  /\ (status (fst (Auth.login bcrypt_compare body w)) = 200%Z ->
      exists u,
        In u (users (Auth.db w))
        /\ User.username u = JS.String_ (Auth.login_username body)
        /\ bcrypt_compare (JS.String_ (Auth.login_password body))
                          (User.password u) = true
        /\ Auth.session (snd (Auth.login bcrypt_compare body w)) =
           {| Auth.userId := Some (User.id u);
              Auth.username := Some (User.username u) |})
  /\ (status (fst (Auth.login bcrypt_compare body w)) <> 200%Z ->
      snd (Auth.login bcrypt_compare body w) = w).
Proof.
  destruct (login_cases bcrypt_compare body w)
    as [(-> & _)|[(-> & _)|(u & Hin & Hn & Hc & ->)]]; cbn [fst snd status
      res_status_json res_json Auth.db Auth.session].
  - split; [reflexivity|]. split; [discriminate|reflexivity].
  - split; [reflexivity|]. split; [discriminate|reflexivity].
  - split; [reflexivity|]. split; [|intro H; now contradiction H].
    intros _. exists u. auto.
Qed.

Lemma login_sound_witness :
  exists u,
    In u (users Sample.accounts)
    /\ User.username u = "alice"
    /\ Auth.session
         (snd (Auth.login Sample.compare
                 {| Auth.login_username := Some "alice";
                    Auth.login_password := Some "wonderland" |}
                 {| Auth.db := Sample.accounts;
                    Auth.session := Sample.anonymous |})) =
       {| Auth.userId := Some (User.id u);
          Auth.username := Some (User.username u) |}.
Proof.
  destruct (login_sound Sample.compare
              {| Auth.login_username := Some "alice";
                 Auth.login_password := Some "wonderland" |}
              {| Auth.db := Sample.accounts; Auth.session := Sample.anonymous |})
    as (_ & H200 & _).
  destruct (H200 eq_refl) as (u & Hin & Hn & _ & Hs).
  exists u. auto.
Defined.

(** X22. On a credential table with unique user names, a complete login
    request that names an existing user and carries a password the
    comparison accepts answers 200 with the user's name and stores the
    user's id and name in the session; with a non-zero id, the session then
    passes the login gate and [/me] reports the user as authenticated. *)
Theorem login_opens_session (bcrypt_compare : string -> string -> bool)
        (body : Auth.LoginBody) (w : Auth.World) (u : User.t) :
  NoDup (map User.username (users (Auth.db w))) ->
  In u (users (Auth.db w)) ->
  JS.truthy (Auth.login_username body) = true ->
  JS.truthy (Auth.login_password body) = true ->
  JS.String_ (Auth.login_username body) = User.username u ->
  bcrypt_compare (JS.String_ (Auth.login_password body)) (User.password u)
  = true ->
  Auth.login bcrypt_compare body w =
    (res_json (JSuccess (User.username u)),
     {| Auth.db := Auth.db w;
        Auth.session := {| Auth.userId := Some (User.id u);
                           Auth.username := Some (User.username u) |} |})
  /\ (User.id u <> 0%Z ->
      Session.requireAuth
        (Auth.session (snd (Auth.login bcrypt_compare body w))) = None
      /\ Session.me (Auth.session (snd (Auth.login bcrypt_compare body w))) =
         reply_json (PMe true (Some (User.username u)))).
Proof.
  intros Hnd Hin Hu Hp Hname Hc.
  assert (Hf : Auth.user_findUnique_username
                 (JS.String_ (Auth.login_username body)) (Auth.db w) = Some u).
  { rewrite Hname.
    apply (find_by_key _ _ User.username String.eqb);
      [apply String.eqb_eq|exact Hnd|exact Hin]. }
  assert (Hlogin : Auth.login bcrypt_compare body w =
    (res_json (JSuccess (User.username u)),
     {| Auth.db := Auth.db w;
        Auth.session := {| Auth.userId := Some (User.id u);
                           Auth.username := Some (User.username u) |} |})).
  { unfold Auth.login, try_catch, bind, ret, Auth.on_db, query,
      Auth.set_session.
    rewrite Hu, Hp. cbn [negb orb]. rewrite Hf, Hc. reflexivity. }
  split; [exact Hlogin|]. intro Hid. rewrite Hlogin.
  cbn [snd Auth.session]. unfold Session.requireAuth, Session.me, Auth.logged_in.
  cbn [Auth.userId Auth.username].
  apply Z.eqb_neq in Hid. rewrite Hid. split; reflexivity.
Qed.

Lemma login_opens_session_witness :
  Session.me
    (Auth.session
       (snd (Auth.login Sample.compare
               {| Auth.login_username := Some "bob";
                  Auth.login_password := Some "builder" |}
               {| Auth.db := Sample.accounts;
                  Auth.session := Sample.anonymous |})))
  = reply_json (PMe true (Some "bob")).
Proof.
  destruct (login_opens_session Sample.compare
              {| Auth.login_username := Some "bob";
                 Auth.login_password := Some "builder" |}
              {| Auth.db := Sample.accounts; Auth.session := Sample.anonymous |}
              (Sample.user 2 "bob" "builder")
              (unique_username accounts_ok) (or_intror (or_introl eq_refl))
              eq_refl eq_refl eq_refl eq_refl) as (_ & H).
  destruct H as (_ & Hme); [discriminate|exact Hme].
Defined.

(** ** Changing credentials *)

(** The update of a credential change goes through, or is rejected and
    leaves the world as it was. *)
Lemma commit_cases (w : Auth.World) (u : User.t) (data : Auth.UpdateData) :
  Auth.user_findUnique_id (User.id u) (Auth.db w) = Some u ->
  (exists e, Auth.commit u data w = (Rejected e, w))
  \/ (Auth.commit u data w =
        (Resolved (res_json (JSuccess (User.username
                                          (Auth.apply_update data u)))),
         {| Auth.db := updated_users (Auth.db w) u data;
            Auth.session :=
              if JS.truthy (Auth.new_username data)
              then {| Auth.userId := Auth.userId (Auth.session w);
                      Auth.username :=
                        Some (User.username (Auth.apply_update data u)) |}
              else Auth.session w |})
      /\ forall n v, Auth.new_username data = Some n ->
                     In v (users (Auth.db w)) -> User.username v = n ->
                     User.id v = User.id u).
Proof.
  intro Hf.
  unfold Auth.commit, bind, ret, Auth.on_db, Auth.user_update, Auth.set_session.
  rewrite Hf.
  match goal with
  | |- context [if ?t then _ else _] => destruct t eqn:Ht
  end.
  { left. eexists. now rewrite world_eta. }
  right. fold (updated_users (Auth.db w) u data). split.
  - destruct (JS.truthy (Auth.new_username data)); reflexivity.
  - intros n v Hn Hv Hname. rewrite Hn in Ht.
    pose proof (proj1 (existsb_false_iff _ _ _) Ht v Hv) as Hx.
    cbv beta in Hx. rewrite Hname, String.eqb_refl in Hx. cbn [andb] in Hx.
    apply negb_false_iff, Z.eqb_eq in Hx. exact Hx.
Qed.

Lemma found_by_id (uid : Z) (db : Store) (u : User.t) :
  Auth.user_findUnique_id uid db = Some u ->
  In u (users db) /\ User.id u = uid
  /\ Auth.user_findUnique_id (User.id u) db = Some u.
Proof.
  intro H. pose proof (find_some _ _ H) as (Hin & Hid). cbv beta in Hid.
  apply Z.eqb_eq in Hid. subst uid. auto.
Qed.

(** The ways a credential change can end: an early answer that writes
    nothing, a rejected update that writes nothing, or the committed
    update. *)
Lemma change_credentials_cases
      (bcrypt_compare : string -> string -> bool)
      (bcrypt_hash : string -> Z -> string)
      (body : Auth.CredentialsBody) (w : Auth.World) :
  (snd (Auth.change_credentials bcrypt_compare bcrypt_hash body w) = w
   /\ status (fst (Auth.change_credentials bcrypt_compare bcrypt_hash body w))
      <> 200%Z)
  \/ (exists u,
        Auth.logged_in (Auth.session w) = Some (User.id u)
        /\ Auth.user_findUnique_id (User.id u) (Auth.db w) = Some u
        /\ JS.truthy (Auth.currentPassword body) = true
        /\ bcrypt_compare (JS.String_ (Auth.currentPassword body))
                          (User.password u) = true
        /\ (JS.value_truthy (Auth.newPassword body) = true ->
            JS.lt (JS.value_length (Auth.newPassword body)) 6 = false)
        /\ (forall n v,
              Auth.new_username (credentials_update bcrypt_hash body) = Some n ->
              In v (users (Auth.db w)) -> User.username v = n ->
              User.id v = User.id u)
        /\ Auth.change_credentials bcrypt_compare bcrypt_hash body w =
           (res_json
              (JSuccess
                 (User.username
                    (Auth.apply_update (credentials_update bcrypt_hash body) u))),
            {| Auth.db :=
                 updated_users (Auth.db w) u
                               (credentials_update bcrypt_hash body);
               Auth.session :=
                 if JS.truthy (Auth.newUsername body)
                 then {| Auth.userId := Auth.userId (Auth.session w);
                         Auth.username :=
                           Some (User.username
                                   (Auth.apply_update
                                      (credentials_update bcrypt_hash body) u)) |}
                 else Auth.session w |})).
Proof.
  unfold Auth.change_credentials, try_catch, bind, ret, Auth.on_db, query.
  destruct (Auth.logged_in (Auth.session w)) as [uid|] eqn:Hlog;
    [|left; split; [reflexivity|discriminate]].
  destruct (JS.truthy (Auth.currentPassword body)) eqn:Hcur; cbn [negb];
    [|left; split; [reflexivity|discriminate]].
  destruct (negb (JS.truthy (Auth.newUsername body))
            && negb (JS.value_truthy (Auth.newPassword body))) eqn:Hany;
    [left; split; [reflexivity|discriminate]|].
  destruct (Auth.user_findUnique_id uid (Auth.db w)) as [u|] eqn:Hu;
    [|left; rewrite world_eta; split; [reflexivity|discriminate]].
  destruct (found_by_id uid (Auth.db w) u Hu) as (Hin & Hid & Hfu).
  subst uid.
  destruct (bcrypt_compare _ (User.password u)) eqn:Hcmp; cbn [negb];
    [|left; rewrite world_eta; split; [reflexivity|discriminate]].
  cbn [Auth.db Auth.session]. rewrite world_eta.
  (* the part from [if (newPassword)] on, for either way to the username *)
  assert (Htail : forall name : option string,
    name = Auth.new_username (credentials_update bcrypt_hash body) ->
    let out := Auth.with_password bcrypt_hash u body name w in
    let res := match fst out with
               | Resolved a => (a, snd out)
               | Rejected _ =>
                   (res_status_json 500 (JError "Internal server error"),
                    snd out)
               end in
    (snd res = w /\ status (fst res) <> 200%Z)
    \/ ((JS.value_truthy (Auth.newPassword body) = true ->
         JS.lt (JS.value_length (Auth.newPassword body)) 6 = false)
        /\ (forall n v,
              Auth.new_username (credentials_update bcrypt_hash body) = Some n ->
              In v (users (Auth.db w)) -> User.username v = n ->
              User.id v = User.id u)
        /\ res =
           (res_json
              (JSuccess
                 (User.username
                    (Auth.apply_update (credentials_update bcrypt_hash body) u))),
            {| Auth.db :=
                 updated_users (Auth.db w) u
                               (credentials_update bcrypt_hash body);
               Auth.session :=
                 if JS.truthy (Auth.newUsername body)
                 then {| Auth.userId := Auth.userId (Auth.session w);
                         Auth.username :=
                           Some (User.username
                                   (Auth.apply_update
                                      (credentials_update bcrypt_hash body) u)) |}
                 else Auth.session w |}))).
  { intros name Hname. cbv zeta. unfold Auth.with_password.
    assert (Htr : JS.truthy name = JS.truthy (Auth.newUsername body)).
    { rewrite Hname. unfold credentials_update. cbn.
      destruct (JS.truthy (Auth.newUsername body)) eqn:E; [|reflexivity].
      destruct (Auth.newUsername body) as [[|c n]|]; try discriminate E.
      reflexivity. }
    destruct (JS.value_truthy (Auth.newPassword body)) eqn:Hnp.
    - destruct (JS.lt (JS.value_length (Auth.newPassword body)) 6)
        eqn:Hlen.
      + left. cbn. split; [reflexivity|discriminate].
      + assert (Hdata : {| Auth.new_username := name;
                           Auth.new_password :=
                             Some (bcrypt_hash
                                     (JS.value_String (Auth.newPassword body))
                                     Auth.SALT_ROUNDS) |}
                        = credentials_update bcrypt_hash body).
        { unfold credentials_update. rewrite Hnp, Hname. reflexivity. }
        rewrite Hdata.
        destruct (commit_cases w u (credentials_update bcrypt_hash body) Hfu)
          as [(e & ->)|(-> & Hfree)].
        * left. cbn. split; [reflexivity|discriminate].
        * right. cbn [fst snd]. split; [auto|]. split; [exact Hfree|].
          rewrite <- Htr, Hname. reflexivity.
    - assert (Hdata : {| Auth.new_username := name;
                         Auth.new_password := None |}
                      = credentials_update bcrypt_hash body).
      { unfold credentials_update. rewrite Hnp, Hname. reflexivity. }
      rewrite Hdata.
      destruct (commit_cases w u (credentials_update bcrypt_hash body) Hfu)
        as [(e & ->)|(-> & Hfree)].
      + left. cbn. split; [reflexivity|discriminate].
      + right. cbn [fst snd]. split; [discriminate|]. split; [exact Hfree|].
        rewrite <- Htr, Hname. reflexivity. }
  assert (Hwrap : forall (out : outcome Response * Auth.World),
             (let (o, s') := out in
              match o with
              | Resolved a => (a, s')
              | Rejected _ =>
                  (res_status_json 500 (JError "Internal server error"), s')
              end)
             = match fst out with
               | Resolved a => (a, snd out)
               | Rejected _ =>
                   (res_status_json 500 (JError "Internal server error"),
                    snd out)
               end).
  { intros [o s']. reflexivity. }
  assert (Hfinish : forall name : option string,
    name = Auth.new_username (credentials_update bcrypt_hash body) ->
    forall res,
      res = (let (o, s') := Auth.with_password bcrypt_hash u body name w in
             match o with
             | Resolved a => (a, s')
             | Rejected _ =>
                 (res_status_json 500 (JError "Internal server error"), s')
             end) ->
      (snd res = w /\ status (fst res) <> 200%Z)
      \/ (exists u0,
            Some (User.id u) = Some (User.id u0)
            /\ Auth.user_findUnique_id (User.id u0) (Auth.db w) = Some u0
            /\ true = true
            /\ bcrypt_compare (JS.String_ (Auth.currentPassword body))
                              (User.password u0) = true
            /\ (JS.value_truthy (Auth.newPassword body) = true ->
                JS.lt (JS.value_length (Auth.newPassword body)) 6 = false)
            /\ (forall n v,
                  Auth.new_username (credentials_update bcrypt_hash body)
                  = Some n ->
                  In v (users (Auth.db w)) -> User.username v = n ->
                  User.id v = User.id u0)
            /\ res =
               (res_json
                  (JSuccess
                     (User.username
                        (Auth.apply_update
                           (credentials_update bcrypt_hash body) u0))),
                {| Auth.db :=
                     updated_users (Auth.db w) u0
                                   (credentials_update bcrypt_hash body);
                   Auth.session :=
                     if JS.truthy (Auth.newUsername body)
                     then {| Auth.userId := Auth.userId (Auth.session w);
                             Auth.username :=
                               Some (User.username
                                       (Auth.apply_update
                                          (credentials_update bcrypt_hash body)
                                          u0)) |}
                     else Auth.session w |}))).
  { intros name Hname res ->. rewrite Hwrap.
    destruct (Htail name Hname) as [H|(Hlen & Hfree & Hres)]; [now left|].
    right. exists u. repeat split; auto. }
  destruct (JS.truthy (Auth.newUsername body)) eqn:Hnu.
  - destruct (Auth.user_findUnique_username
                (JS.String_ (Auth.newUsername body)) (Auth.db w))
      as [e|] eqn:He.
    + destruct (Z.eqb (User.id e) (User.id u)) eqn:Eid; cbn [negb];
        rewrite ?world_eta.
      * eapply Hfinish; [|reflexivity].
        unfold credentials_update. cbn. now rewrite Hnu.
      * left. split; [reflexivity|discriminate].
    + rewrite ?world_eta. eapply Hfinish; [|reflexivity].
      unfold credentials_update. cbn. now rewrite Hnu.
  - eapply Hfinish; [|reflexivity].
    unfold credentials_update. cbn. now rewrite Hnu.
Qed.

(** X23. A credential change is all or nothing, and needs the current
    password: unless it answers 200 it leaves store and session exactly as
    they were (a new username is not kept when the new password is refused);
    and it answers 200 only for a logged-in user whose current password the
    comparison accepts, and then the user's row, and no other, takes the new
    name and the hash of [String(newPassword)] (the table holds the new
    version of that row and the other rows, in whatever order).  A new
    password that is a string has then at least 6 UTF-16 code units; one
    that is not a string (a JSON number, say) is measured only if it has a
    [length]. *)
Theorem change_credentials_atomic
        (bcrypt_compare : string -> string -> bool)
        (bcrypt_hash : string -> Z -> string)
        (body : Auth.CredentialsBody) (w : Auth.World) :
  (status (fst (Auth.change_credentials bcrypt_compare bcrypt_hash body w))
   <> 200%Z ->
   snd (Auth.change_credentials bcrypt_compare bcrypt_hash body w) = w)
  /\ (status (fst (Auth.change_credentials bcrypt_compare bcrypt_hash body w))
      = 200%Z ->
      exists u,
        Auth.logged_in (Auth.session w) = Some (User.id u)
        /\ In u (users (Auth.db w))
        /\ JS.truthy (Auth.currentPassword body) = true
        /\ bcrypt_compare (JS.String_ (Auth.currentPassword body))
                          (User.password u) = true
        /\ Permutation
             (users (Auth.db (snd (Auth.change_credentials
                                     bcrypt_compare bcrypt_hash body w))))
             (Auth.apply_update (credentials_update bcrypt_hash body) u
              :: filter (fun v => negb (Z.eqb (User.id v) (User.id u)))
                        (users (Auth.db w)))
        /\ (forall p, Auth.newPassword body = Some (JS.VString p) ->
                      p <> "" -> (6 <= JS.length p)%nat)
        /\ (forall k text,
              Auth.newPassword body = Some (JS.VOther (Some k) text) ->
              (6 <= k)%nat)).
Proof.
  destruct (change_credentials_cases bcrypt_compare bcrypt_hash body w)
    as [(Hw & Hs)|(u & Hlog & Hfu & Hcur & Hcmp & Hlen & _ & Heq)].
  - split; [intros _; exact Hw|]. intro H. contradiction.
  - split.
    + rewrite Heq. cbn. intro H. now contradiction H.
    + intros _. exists u. destruct (found_by_id _ _ _ Hfu) as (Hin & _).
      repeat match goal with |- _ /\ _ => split end; auto.
      * rewrite Heq. cbn [snd Auth.db updated_users users].
        apply Permutation_sym, Permutation_cons_append.
      * intros p Hp Hne. rewrite Hp in Hlen. cbn in Hlen.
        apply Nat.ltb_ge. apply Hlen. destruct p; [congruence|reflexivity].
      * intros k text Hp. rewrite Hp in Hlen. cbn in Hlen.
        apply Nat.ltb_ge. now apply Hlen.
Qed.

Lemma change_credentials_atomic_witness :
  snd (Auth.change_credentials Sample.compare Sample.hash
         {| Auth.currentPassword := Some "wonderland";
            Auth.newUsername := Some "carol";
            Auth.newPassword := Some (JS.VString "short") |}
         {| Auth.db := Sample.accounts; Auth.session := Sample.alice_session |})
  = {| Auth.db := Sample.accounts; Auth.session := Sample.alice_session |}.
Proof.
  apply (proj1 (change_credentials_atomic Sample.compare Sample.hash
                  {| Auth.currentPassword := Some "wonderland";
                     Auth.newUsername := Some "carol";
                     Auth.newPassword := Some (JS.VString "short") |}
                  {| Auth.db := Sample.accounts;
                     Auth.session := Sample.alice_session |})).
  vm_compute. discriminate.
Defined.

(** The length test counts UTF-16 code units, and only where there is a
    length: three letters of two bytes each are refused, the number 12345
    is accepted and stored as the hash of "12345". *)
Lemma password_length_examples :
  let eee := String "195" (String "169" (String "195" (String "169"
               (String "195" (String "169" EmptyString))))) in
  String.length eee = 6%nat
  /\ JS.length eee = 3%nat
  /\ Auth.change_credentials Sample.compare Sample.hash
       {| Auth.currentPassword := Some "wonderland";
          Auth.newUsername := None;
          Auth.newPassword := Some (JS.VString eee) |}
       {| Auth.db := Sample.accounts; Auth.session := Sample.alice_session |}
     = (res_status_json 400 (JError "Password must be at least 6 characters"),
        {| Auth.db := Sample.accounts; Auth.session := Sample.alice_session |})
  /\ exists w',
      Auth.change_credentials Sample.compare Sample.hash
        {| Auth.currentPassword := Some "wonderland";
           Auth.newUsername := None;
           Auth.newPassword := Some (JS.VOther None "12345") |}
        {| Auth.db := Sample.accounts; Auth.session := Sample.alice_session |}
      = (res_json (JSuccess "alice"), w')
      /\ option_map User.password
           (Auth.user_findUnique_username "alice" (Auth.db w'))
         = Some (Sample.hash "12345" 12).
Proof.
  cbv zeta. split; [reflexivity|]. split; [reflexivity|].
  split; [reflexivity|]. eexists. split; reflexivity.
Qed.

Lemma updated_users_ok (db : Store) (u : User.t) (data : Auth.UpdateData) :
  users_ok db ->
  In u (users db) ->
  (forall n v, Auth.new_username data = Some n -> In v (users db) ->
               User.username v = n -> User.id v = User.id u) ->
  users_ok (updated_users db u data).
Proof.
  intros [Hids Hnames] Hin Hfree.
  constructor; cbn [updated_users users]; rewrite map_app; cbn [map];
    apply NoDup_snoc; try now apply NoDup_map_filter.
  - intro H. apply in_map_iff in H. destruct H as (v & Hv & Hvin).
    apply filter_In in Hvin. destruct Hvin as (_ & Hne).
    apply negb_true_iff, Z.eqb_neq in Hne. now apply Hne.
  - intro H. apply in_map_iff in H. destruct H as (v & Hv & Hvin).
    apply filter_In in Hvin. destruct Hvin as (Hvl & Hne).
    apply negb_true_iff, Z.eqb_neq in Hne. apply Hne.
    unfold Auth.apply_update in Hv. cbn [User.username] in Hv.
    destruct (Auth.new_username data) as [n|] eqn:En.
    + now apply (Hfree n v).
    + f_equal.
      now apply (NoDup_map_eq _ _ User.username (users db)).
Qed.

(** X24. A credential change keeps the constraints of the credential table:
    after it, user ids and user names are still unique. *)
Theorem change_credentials_keeps_users_ok
        (bcrypt_compare : string -> string -> bool)
        (bcrypt_hash : string -> Z -> string)
        (body : Auth.CredentialsBody) (w : Auth.World) :
  users_ok (Auth.db w) ->
  users_ok
    (Auth.db (snd (Auth.change_credentials bcrypt_compare bcrypt_hash body w))).
Proof.
  intro Hok.
  destruct (change_credentials_cases bcrypt_compare bcrypt_hash body w)
    as [(-> & _)|(u & _ & Hfu & _ & _ & _ & Hfree & ->)]; [exact Hok|].
  destruct (found_by_id _ _ _ Hfu) as (Hin & _).
  cbn [snd Auth.db]. now apply updated_users_ok.
Qed.

Lemma change_credentials_keeps_users_ok_witness :
  users_ok
    (Auth.db
       (snd (Auth.change_credentials Sample.compare Sample.hash
               {| Auth.currentPassword := Some "wonderland";
                  Auth.newUsername := Some "carol";
                  Auth.newPassword := None |}
               {| Auth.db := Sample.accounts;
                  Auth.session := Sample.alice_session |}))).
Proof.
  apply (change_credentials_keeps_users_ok Sample.compare Sample.hash
           {| Auth.currentPassword := Some "wonderland";
              Auth.newUsername := Some "carol";
              Auth.newPassword := None |}
           {| Auth.db := Sample.accounts;
              Auth.session := Sample.alice_session |}).
  exact accounts_ok.
Defined.

Lemma login_accepts (bcrypt_compare : string -> string -> bool)
      (name pw : string) (w : Auth.World) (u : User.t) :
  NoDup (map User.username (users (Auth.db w))) ->
  In u (users (Auth.db w)) ->
  User.username u = name -> name <> "" -> pw <> "" ->
  bcrypt_compare pw (User.password u) = true ->
  Auth.login bcrypt_compare
    {| Auth.login_username := Some name; Auth.login_password := Some pw |} w =
  (res_json (JSuccess name),
   {| Auth.db := Auth.db w;
      Auth.session := {| Auth.userId := Some (User.id u);
                         Auth.username := Some name |} |}).
Proof.
  intros Hnd Hin Hname Hn Hp Hc.
  unfold Auth.login, try_catch, bind, ret, Auth.on_db, query, Auth.set_session.
  cbn [Auth.login_username Auth.login_password JS.truthy JS.String_].
  destruct name as [|c name]; [congruence|].
  destruct pw as [|d pw]; [congruence|]. cbn [JS.truthy_string negb orb].
  assert (Hf : Auth.user_findUnique_username (String c name) (Auth.db w)
               = Some u).
  { rewrite <- Hname.
    apply (find_by_key _ _ User.username String.eqb);
      [apply String.eqb_eq|exact Hnd|exact Hin]. }
  rewrite Hf, Hc. cbn [negb]. now rewrite Hname.
Qed.





(** ** The login gate *)

Lemma state_eta (st : App.State) :
  {| App.data := {| tables := tables (App.data st);
                    incomeSource_seq := incomeSource_seq (App.data st) |};
     App.session := App.session st;
     App.polluted := App.polluted st |} = st.
Proof. destruct st as [[t n] s p]. reflexivity. Qed.

(** A request made without a session, other than a login with valid
    credentials, leaves the data alone and opens no session. *)
Lemma handle_locked (bcrypt_compare : string -> string -> bool)
      (bcrypt_hash : string -> Z -> string) (parseInt : string -> option Z)
      (r : App.Request) (st : App.State) :
  Auth.logged_in (App.session st) = None ->
  (forall body u,
      r = App.POST_auth_login body ->
      In u (users (tables (App.data st))) ->
      User.username u = JS.String_ (Auth.login_username body) ->
      bcrypt_compare (JS.String_ (Auth.login_password body)) (User.password u)
      = false) ->
  App.data (snd (App.handle bcrypt_compare bcrypt_hash parseInt r st))
  = App.data st
  /\ Auth.logged_in
       (App.session (snd (App.handle bcrypt_compare bcrypt_hash parseInt r st)))
     = None
  /\ (App.protected r = true ->
      fst (App.handle bcrypt_compare bcrypt_hash parseInt r st) =
      reply_error 401 "Authentication required").
Proof.
  intros Hlock Hbad. unfold App.handle.
  destruct (App.protected r) eqn:Hp.
  - unfold Session.requireAuth. rewrite Hlock. cbn [fst snd]. auto.
  - destruct r as [lb| | |cb| |m|m|m ib|i ib|i|m eb|i eb|i| |y];
      try discriminate Hp; cbn [App.route].
    + unfold App.on_world.
      destruct (login_cases bcrypt_compare lb
                  {| Auth.db := tables (App.data st);
                     Auth.session := App.session st |})
        as [(-> & _)|[(-> & _)|(u & Hin & Hn & Hc & _)]].
      * cbn [fst snd Auth.db Auth.session]. rewrite state_eta.
        split; [reflexivity|]. split; [exact Hlock|discriminate].
      * cbn [fst snd Auth.db Auth.session]. rewrite state_eta.
        split; [reflexivity|]. split; [exact Hlock|discriminate].
      * cbn [Auth.db] in Hin. rewrite (Hbad lb u eq_refl Hin Hn) in Hc.
        discriminate.
    + cbn. split; [reflexivity|]. split; [reflexivity|discriminate].
    + cbn [fst snd]. split; [reflexivity|]. split; [exact Hlock|discriminate].
    + unfold App.on_world, Auth.change_credentials, try_catch, bind, ret, query.
      cbn [Auth.session]. rewrite Hlock.
      cbn [fst snd Auth.db Auth.session]. rewrite state_eta.
      split; [reflexivity|]. split; [exact Hlock|discriminate].
Qed.

(** X26. Without valid credentials there is no way in: starting without a
    session, whatever requests are made - as long as no login among them
    names an existing user with a password the comparison accepts - every
    request to the monthly and yearly routes is answered 401
    "Authentication required", and the data are left untouched. *)
Theorem no_access_without_credentials
        (bcrypt_compare : string -> string -> bool)
        (bcrypt_hash : string -> Z -> string) (parseInt : string -> option Z)
        (rs : list App.Request) (st : App.State) :
  Auth.logged_in (App.session st) = None ->
  (forall body u,
      In (App.POST_auth_login body) rs ->
      In u (users (tables (App.data st))) ->
      User.username u = JS.String_ (Auth.login_username body) ->
      bcrypt_compare (JS.String_ (Auth.login_password body)) (User.password u)
      = false) ->
  App.data (snd (App.serve bcrypt_compare bcrypt_hash parseInt rs st))
  = App.data st
  /\ forall r rep,
       In (r, rep)
          (combine rs
             (fst (App.serve bcrypt_compare bcrypt_hash parseInt rs st))) ->
       App.protected r = true ->
       rep = reply_error 401 "Authentication required".
Proof.
  revert st. induction rs as [|r rs IH]; intros st Hlock Hbad.
  - cbn. split; [reflexivity|]. intros r rep [].
  - cbn [App.serve].
    destruct (handle_locked bcrypt_compare bcrypt_hash parseInt r st Hlock)
      as (Hd & Hl & Hrep).
    { intros body u -> Hu Hn. apply (Hbad body u); auto. now left. }
    destruct (App.handle bcrypt_compare bcrypt_hash parseInt r st)
      as [rep st1] eqn:Hh.
    cbn [fst snd] in Hd, Hl, Hrep.
    destruct (IH st1 Hl) as (Hd' & Hreps).
    { intros body u Hb Hu Hn. apply (Hbad body u); auto.
      - now right.
      - now rewrite <- Hd. }
    destruct (App.serve bcrypt_compare bcrypt_hash parseInt rs st1)
      as [reps st2] eqn:Hs.
    cbn [fst snd] in *. split; [congruence|].
    intros r0 rep0 [Heq|Hin] Hp.
    + injection Heq as <- <-. now apply Hrep.
    + now apply (Hreps r0 rep0).
Qed.

Lemma no_access_without_credentials_witness :
  App.data
    (snd (App.serve Sample.compare Sample.hash Sample2.parseInt
            [App.POST_auth_login {| Auth.login_username := Some "alice";
                                    Auth.login_password := Some "guess" |};
             App.GET_monthly_month "2025-01";
             App.DELETE_monthly_month "2025-01"]
            (Sample2.state Sample.accounts Sample.anonymous)))
  = App.data (Sample2.state Sample.accounts Sample.anonymous)
  /\ map code
         (fst (App.serve Sample.compare Sample.hash Sample2.parseInt
                 [App.POST_auth_login {| Auth.login_username := Some "alice";
                                         Auth.login_password := Some "guess" |};
                  App.GET_monthly_month "2025-01";
                  App.DELETE_monthly_month "2025-01"]
                 (Sample2.state Sample.accounts Sample.anonymous)))
     = [401%Z; 401%Z; 401%Z].
Proof.
  split; [|reflexivity].
  apply (no_access_without_credentials Sample.compare Sample.hash
           Sample2.parseInt
           [App.POST_auth_login {| Auth.login_username := Some "alice";
                                   Auth.login_password := Some "guess" |};
            App.GET_monthly_month "2025-01";
            App.DELETE_monthly_month "2025-01"]
           (Sample2.state Sample.accounts Sample.anonymous) eq_refl).
  intros lb u [[= <-]|[H|[H|[]]]]; try discriminate H.
  intros [<-|[<-|[]]]; [reflexivity|discriminate].
Defined.

(** X27. A logout ends the session whatever it held: the answer is 200, the
    data are untouched, [/me] then reports nobody authenticated, and the next
    request to a monthly or yearly route is answered 401. *)
Theorem logout_closes_session
        (bcrypt_compare : string -> string -> bool)
        (bcrypt_hash : string -> Z -> string) (parseInt : string -> option Z)
        (r : App.Request) (st : App.State) :
  App.protected r = true ->
  App.serve bcrypt_compare bcrypt_hash parseInt
            [App.POST_auth_logout; App.GET_auth_me; r] st
  = ([reply_json PSuccess;
      reply_json (PMe false None);
      reply_error 401 "Authentication required"],
     {| App.data := App.data st; App.session := Session.destroyed;
        App.polluted := App.polluted st |}).
Proof.
  intro Hp. cbn [App.serve]. unfold App.handle.
  cbn [App.protected App.route Session.logout App.session].
  rewrite Hp. reflexivity.
Qed.

Lemma logout_closes_session_witness :
  fst (App.serve Sample.compare Sample.hash Sample2.parseInt
         [App.POST_auth_logout; App.GET_auth_me; App.GET_yearly]
         (Sample2.state Sample.accounts Sample.alice_session))
  = [reply_json PSuccess; reply_json (PMe false None);
     reply_error 401 "Authentication required"].
Proof.
  rewrite (logout_closes_session Sample.compare Sample.hash Sample2.parseInt
             App.GET_yearly
             (Sample2.state Sample.accounts Sample.alice_session) eq_refl).
  reflexivity.
Defined.

(** X28. After a login with valid credentials of a user with a non-zero id,
    the gate lets every request through to its handler. *)
Theorem login_opens_gate
        (bcrypt_compare : string -> string -> bool)
        (bcrypt_hash : string -> Z -> string) (parseInt : string -> option Z)
        (lb : Auth.LoginBody) (r : App.Request) (st : App.State) (u : User.t) :
  NoDup (map User.username (users (tables (App.data st)))) ->
  In u (users (tables (App.data st))) ->
  User.id u <> 0%Z ->
  User.username u <> "" ->
  Auth.login_username lb = Some (User.username u) ->
  JS.truthy (Auth.login_password lb) = true ->
  bcrypt_compare (JS.String_ (Auth.login_password lb)) (User.password u)
  = true ->
  let st1 := {| App.data := App.data st;
                App.session := {| Auth.userId := Some (User.id u);
                                  Auth.username := Some (User.username u) |};
                App.polluted := App.polluted st |} in
  App.serve bcrypt_compare bcrypt_hash parseInt [App.POST_auth_login lb; r] st
  = ([reply_json (PJson (JSuccess (User.username u)));
      fst (App.route bcrypt_compare bcrypt_hash parseInt r st1)],
     snd (App.route bcrypt_compare bcrypt_hash parseInt r st1)).
Proof.
  intros Hnd Hin Hid Hne Hname Hp Hc st1.
  assert (Hl : Auth.login bcrypt_compare lb
                 {| Auth.db := tables (App.data st);
                    Auth.session := App.session st |}
               = (res_json (JSuccess (User.username u)),
                  {| Auth.db := tables (App.data st);
                     Auth.session := App.session st1 |})).
  { destruct lb as [bu bp]. cbn in Hname, Hp, Hc. subst bu.
    destruct bp as [[|c p]|]; try discriminate Hp.
    apply (login_accepts bcrypt_compare (User.username u) (String c p)
             {| Auth.db := tables (App.data st);
                Auth.session := App.session st |} u); auto.
    discriminate. }
  cbn [App.serve]. unfold App.handle at 1.
  cbn [App.protected App.route]. unfold App.on_world. rewrite Hl.
  cbn [Auth.db Auth.session reply_of res_json res_status_json status body].
  assert (Hst : {| App.data := {| tables := tables (App.data st);
                                  incomeSource_seq :=
                                    incomeSource_seq (App.data st) |};
                   App.session := App.session st1;
                   App.polluted := App.polluted st |} = st1).
  { unfold st1. destruct st as [[t n] s p]. reflexivity. }
  rewrite Hst.
  assert (Hopen : App.handle bcrypt_compare bcrypt_hash parseInt r st1 =
                  App.route bcrypt_compare bcrypt_hash parseInt r st1).
  { unfold App.handle, Session.requireAuth, Auth.logged_in. cbn.
    apply Z.eqb_neq in Hid. rewrite Hid. now destruct (App.protected r). }
  rewrite Hopen.
  destruct (App.route bcrypt_compare bcrypt_hash parseInt r st1). reflexivity.
Qed.

Lemma login_opens_gate_witness :
  map code
      (fst (App.serve Sample.compare Sample.hash Sample2.parseInt
              [App.POST_auth_login {| Auth.login_username := Some "alice";
                                      Auth.login_password := Some "wonderland" |};
               App.GET_monthly_month "2025-01"]
              (Sample2.state Sample.accounts Sample.anonymous)))
  = [200%Z; 200%Z].
Proof.
  rewrite (login_opens_gate Sample.compare Sample.hash Sample2.parseInt
             {| Auth.login_username := Some "alice";
                Auth.login_password := Some "wonderland" |}
             (App.GET_monthly_month "2025-01")
             (Sample2.state Sample.accounts Sample.anonymous)
             (Sample.user 1 "alice" "wonderland")
             (unique_username accounts_ok) (or_introl eq_refl)).
  - reflexivity.
  - discriminate.
  - discriminate.
  - reflexivity.
  - reflexivity.
  - reflexivity.
Defined.

(** ** What a summary leaves behind *)

Lemma findMany_member (year : string) (db : Store) (m : MonthlyData.t) :
  In m (monthlyData db) ->
  String.prefix year (MonthlyData.month m) = true ->
  In (Prisma.include_all db m)
     (Prisma.monthlyData_findMany_startsWith_asc year db).
Proof.
  intros Hin Hpre. unfold Prisma.monthlyData_findMany_startsWith_asc.
  apply in_map. apply stable_sort_In. apply filter_In. auto.
Qed.

(** The summary of a year writes to [Object.prototype] exactly when a month
    of the year holds a category named [__proto__]. *)
Lemma get_year_prototype_spec (year : string) (db : Store) (polluted : bool) :
  Yearly.get_year_prototype year db polluted = true <->
  polluted = true
  \/ (JS.test JS.year_re year = true
      /\ exists m e,
           In m (monthlyData db)
           /\ String.prefix year (MonthlyData.month m) = true
           /\ In e (expenseCategories db)
           /\ ExpenseCategory.monthlyDataId e = MonthlyData.id m
           /\ ExpenseCategory.name e = "__proto__").
Proof.
  unfold Yearly.get_year_prototype.
  destruct (JS.test JS.year_re year) eqn:Hy; cbn [negb].
  2:{ split; [auto|]. intros [H|(H & _)]; [exact H|discriminate]. }
  rewrite orb_true_iff. unfold Yearly.writes_prototype.
  rewrite existsb_exists. split.
  - intros [H|(e & He & Hn)]; [now left|]. right. split; [reflexivity|].
    apply in_flat_map in He. destruct He as (full & Hfull & He).
    unfold Prisma.monthlyData_findMany_startsWith_asc in Hfull.
    apply in_map_iff in Hfull. destruct Hfull as (m & <- & Hm).
    apply stable_sort_In, filter_In in Hm. destruct Hm as (Hm & Hpre).
    cbn [Prisma.include_all MonthlyDataFull.expenseCategories] in He.
    apply filter_In in He. destruct He as (He & Hid).
    apply Z.eqb_eq in Hid. apply String.eqb_eq in Hn.
    exists m, e. auto.
  - intros [H|(_ & m & e & Hm & Hpre & He & Hid & Hn)]; [now left|].
    right. exists e. split; [|now rewrite Hn].
    apply in_flat_map. exists (Prisma.include_all db m).
    split; [now apply findMany_member|].
    cbn [Prisma.include_all MonthlyDataFull.expenseCategories].
    apply filter_In. split; [exact He|]. now apply Z.eqb_eq.
Qed.

(** X29. The summary of a year that holds a category named "__proto__"
    leaves the members budgeted and actual on Object.prototype.  From then
    on, for a logged-in client, an update of an expense category that
    leaves out budgeted or actual, and an update of an income source that
    leaves out actual, is answered 500 and writes nothing, whichever row it
    names. *)
Theorem summary_breaks_partial_updates
        (bcrypt_compare : string -> string -> bool)
        (bcrypt_hash : string -> Z -> string) (parseInt : string -> option Z)
        (st : App.State) (uid : Z) (year id1 id2 : string)
        (m : MonthlyData.t) (e : ExpenseCategory.t)
        (expense : Monthly.ExpenseBody) (income : Ledger.IncomeBody) :
  Auth.logged_in (App.session st) = Some uid ->
  JS.test JS.year_re year = true ->
  In m (monthlyData (tables (App.data st))) ->
  String.prefix year (MonthlyData.month m) = true ->
  In e (expenseCategories (tables (App.data st))) ->
  ExpenseCategory.monthlyDataId e = MonthlyData.id m ->
  ExpenseCategory.name e = "__proto__" ->
  Monthly.body_budgeted expense = None \/ Monthly.body_actual expense = None ->
  Ledger.body_actual income = None ->
  App.serve bcrypt_compare bcrypt_hash parseInt
            [App.GET_yearly_year year;
             App.PATCH_monthly_expense id1 expense;
             App.PATCH_monthly_income id2 income] st
  = ([reply_of
        (res_json
           (JSummary
              (Yearly.summarize year
                 (Prisma.monthlyData_findMany_startsWith_asc
                    year (tables (App.data st))))));
      reply_error 500 "Failed to update expense";
      reply_error 500 "Failed to update income"],
     {| App.data := App.data st; App.session := App.session st;
        App.polluted := true |}).
Proof.
  intros Hlog Hy Hm Hpre He Hid Hn Hexp Hinc.
  assert (Hpol : Yearly.get_year_prototype year (tables (App.data st))
                                           (App.polluted st) = true).
  { apply get_year_prototype_spec. right. split; [exact Hy|].
    exists m, e. auto. }
  assert (Hopen : forall r s, App.session s = App.session st ->
            App.handle bcrypt_compare bcrypt_hash parseInt r s =
            App.route bcrypt_compare bcrypt_hash parseInt r s).
  { intros r s Hs. unfold App.handle, Session.requireAuth.
    rewrite Hs, Hlog. now destruct (App.protected r). }
  cbn [App.serve]. rewrite (Hopen _ st eq_refl). cbn [App.route].
  unfold App.on_store at 1, App.retype.
  rewrite (get_year_ok year _ Hy), Hpol.
  cbn [App.data App.session].
  set (st1 := {| App.data := {| tables := tables (App.data st);
                                incomeSource_seq :=
                                  incomeSource_seq (App.data st) |};
                 App.session := App.session st;
                 App.polluted := true |}).
  assert (Hst1 : st1 = {| App.data := App.data st;
                          App.session := App.session st;
                          App.polluted := true |}).
  { unfold st1. now destruct st as [[t n] s p]. }
  rewrite (Hopen _ st1 eq_refl). cbn [App.route].
  unfold App.on_store. cbn [App.polluted App.data App.session st1 tables
                             incomeSource_seq].
  rewrite patch_expense_refused.
  2:{ right. left.
      unfold Client.expense_columns, Ledger.expense_updateData.
      cbn [Client.exp_budgeted Client.exp_actual].
      rewrite !written_read_amount.
      destruct Hexp as [-> | ->]; [reflexivity|].
      destruct (Monthly.body_budgeted expense) as [q|];
        [destruct (Schema.DECIMAL_10_2 q)|]; reflexivity. }
  fold st1. rewrite (Hopen _ st1 eq_refl). cbn [App.route].
  unfold App.on_store. cbn [App.polluted App.data App.session st1 tables
                             incomeSource_seq].
  rewrite patch_income_refused.
  2:{ right. left.
      unfold Client.income_columns, Ledger.income_updateData.
      cbn [Client.inc_expected Client.inc_actual].
      rewrite !written_read_amount, Hinc.
      destruct (Ledger.body_expected income) as [q|];
        [destruct (Schema.DECIMAL_10_2 q)|]; reflexivity. }
  fold st1. now rewrite Hst1.
Qed.

Lemma summary_breaks_partial_updates_witness :
  map code
      (fst (App.serve Sample.compare Sample.hash Sample2.parseInt
              [App.GET_yearly_year "2025";
               App.PATCH_monthly_expense "1"
                 {| Monthly.body_name := None;
                    Monthly.body_budgeted := None;
                    Monthly.body_actual := Some 1200;
                    Monthly.body_isPaid := Some true;
                    Monthly.body_showPaidStatus := None |};
               App.PATCH_monthly_income "1"
                 {| Ledger.body_name := None;
                    Ledger.body_expected := Some 120;
                    Ledger.body_actual := None |}]
              (Sample2.state Sample2.inherited_name Sample.alice_session)))
  = [200%Z; 500%Z; 500%Z]
  /\ map code
         (fst (App.serve Sample.compare Sample.hash Sample2.parseInt
                 [App.PATCH_monthly_expense "1"
                    {| Monthly.body_name := None;
                       Monthly.body_budgeted := None;
                       Monthly.body_actual := Some 1200;
                       Monthly.body_isPaid := Some true;
                       Monthly.body_showPaidStatus := None |}]
                 (Sample2.state Sample2.inherited_name Sample.alice_session)))
     = [200%Z].
Proof.
  split; [|reflexivity].
  rewrite (summary_breaks_partial_updates Sample.compare Sample.hash
             Sample2.parseInt
             (Sample2.state Sample2.inherited_name Sample.alice_session)
             1 "2025" "1" "1"
             (Sample.month 1 "2025-01")
             (Sample.expense 2 "__proto__" 10 5 false false 1)
             {| Monthly.body_name := None;
                Monthly.body_budgeted := None;
                Monthly.body_actual := Some 1200;
                Monthly.body_isPaid := Some true;
                Monthly.body_showPaidStatus := None |}
             {| Ledger.body_name := None;
                Ledger.body_expected := Some 120;
                Ledger.body_actual := None |}
             eq_refl eq_refl (or_introl eq_refl) eq_refl
             (or_intror (or_introl eq_refl)) eq_refl eq_refl
             (or_introl eq_refl) eq_refl).
  reflexivity.
Defined.
